(** * Learnivia: the usage-analytics aggregation of [services/storageService.ts]

    A shallow embedding of [calculateEventDuration] and of the statistics that
    [getUserStats] derives from the activity log, together with the JavaScript
    run-time behaviour they rely on; of [extractKeywords], [logActivity] and
    [getActivities], which write and read that log; and of the two components
    that log results, the quiz runner ([components/QuizRunner.tsx]) and the
    exam mode (in [components/ChatInterface.tsx]).

    Modelling conventions.
    - The event log and the clock are explicit arguments: [getUserStats] reads
      the log with [getActivities] and the clock with [new Date()] /
      [Date.now()]; all clock reads of one run are taken to return the same
      instant [now].
    - A JavaScript number that is an integer by construction (timestamps,
      lengths, counters, sums of integers) is a [Z]; this is exact below 2^53.
      The marks of an exam question and the score of a finished exam come
      from parsed JSON and nothing makes them integers: [ExamMode] and
      [Storage] read them as integers, and [Numbers] has the sums and the
      average taken over them for arbitrary binary64 values.
      Where the code divides or multiplies by a non-integer the result is a
      binary64 value: it is modelled as the rational it denotes and every such
      operation rounds with [JSNumber.fl] (round to nearest, ties to even, 53
      bit significand; overflow, subnormals, NaN and infinities are outside
      the model).
    - In [Storage] local time is a fixed offset [tz] (milliseconds east of
      UTC), so a local calendar day is 86 400 000 ms long.  A date string
      produced by [toDateString] is represented by its day number, the number
      of local days since 1970-01-01; [new Date(dateString)] is local
      midnight.  The streaks and the week strip, which compare calendar days
      with instants 24 hours apart, are embedded a second time in [Zoned] for
      a time zone given by its calendar ([Zone]): there the offset may change
      (daylight saving time) and a local day lasts 23 to 25 hours.  At a
      fixed offset the two embeddings coincide.
    - Strings are sequences of bytes; [trim] and [toLowerCase] act on ASCII.
    - [Array.prototype.sort] is stable, and the own keys of an object are
      enumerated with the array indices first, in ascending order, followed
      by the other keys in creation order (ECMAScript 2019 and later).
    - The table [study_activities] is a list of rows.  An insert that succeeds
      adds one row; a query that succeeds returns the rows in ascending order
      of their timestamps, rows of equal timestamp in any order.  The session
      table ([saveSession], [getSessions], [deleteSession]) is not modelled:
      what those functions return is decided by the database alone.
    - React state is an explicit argument of the handlers, and an object used
      as a dictionary from question ids to answers is a function on ids. *)

From Stdlib Require Import ZArith QArith Qabs Qround Qpower Lqa Lia.
From Stdlib Require Import List String Ascii Bool Sorted Permutation.
Import ListNotations.

Local Open Scope Z_scope.

(* ------------------------------------------------------------------------ *)
(** ** JavaScript numbers *)

Module JSNumber.
Local Open Scope Q_scope.

Definition pow2 (e : Z) : Q := Qpower 2 e.

(** [ilog2 x] is the binade of a positive [x]: [2^(ilog2 x) <= x < 2^(ilog2 x + 1)]. *)
Definition ilog2 (x : Q) : Z :=
  let e0 := (Z.log2 (Qnum x) - Z.log2 (Zpos (Qden x)))%Z in
  if Qle_bool (pow2 e0) x then e0 else (e0 - 1)%Z.

(** Nearest integer, ties to even. *)
Definition rne (x : Q) : Z :=
  let f := Qfloor x in
  match Qcompare (x - inject_Z f) (1 # 2) with
  | Lt => f
  | Gt => (f + 1)%Z
  | Eq => if Z.even f then f else (f + 1)%Z
  end.

Definition fl_pos (x : Q) : Q :=
  let u := pow2 (ilog2 x - 52) in inject_Z (rne (x / u)) * u.

(** The binary64 value nearest to [x]. *)
Definition fl (x : Q) : Q :=
  match Qcompare x 0 with
  | Eq => 0
  | Gt => fl_pos x
  | Lt => - fl_pos (- x)
  end.

Definition ofZ (n : Z) : Q := inject_Z n.

Definition add (a b : Q) : Q := fl (a + b).
Definition mul (a b : Q) : Q := fl (a * b).
Definition div (a b : Q) : Q := fl (a / b).

(** [Math.ceil] and [Math.round] (ties towards +infinity) are exact. *)
Definition Math_ceil (x : Q) : Z := Qceiling x.
Definition Math_round (x : Q) : Z := Qfloor (x + (1 # 2)).

(** [parseFloat(x.toFixed(1))]: the decimal with one fractional digit nearest
    to [x] (ties away from zero), read back as a binary64 value. *)
Definition toFixed1 (x : Q) : Q :=
  let n := if Qle_bool 0 x then Qfloor (x * 10 + (1 # 2))
           else (- Qfloor (- x * 10 + (1 # 2)))%Z in
  fl (inject_Z n / 10).

End JSNumber.

(* ------------------------------------------------------------------------ *)
(** ** Arrays *)

Module JSArray.

Section Sort.
Context {A : Type}.
(** The comparator of [Array.prototype.sort]: negative when the first
    argument goes first. *)
Variable cmp : A -> A -> Z.

Fixpoint insert (x : A) (l : list A) : list A :=
  match l with
  | [] => [x]
  | y :: ys => if 0 <? cmp x y then y :: insert x ys else x :: y :: ys
  end.

(** [Array.prototype.sort] is stable; for a consistent comparator its result
    is the one of a stable insertion sort. *)
Fixpoint sort (l : list A) : list A :=
  match l with
  | [] => []
  | x :: xs => insert x (sort xs)
  end.
End Sort.

(** [Array.from(new Set(l))]: the distinct elements in order of first
    occurrence. *)
Section Distinct.
Context {A : Type}.
Variable eqb : A -> A -> bool.

Fixpoint distinctFrom (seen : list A) (l : list A) : list A :=
  match l with
  | [] => []
  | x :: xs => if existsb (eqb x) seen then distinctFrom seen xs
               else x :: distinctFrom (x :: seen) xs
  end.

Definition fromSet (l : list A) : list A := distinctFrom [] l.
End Distinct.

Definition length {A} (l : list A) : Z := Z.of_nat (List.length l).

(** [l.slice(0, n)] *)
Definition slice0 {A} (n : nat) (l : list A) : list A := firstn n l.

End JSArray.

(* ------------------------------------------------------------------------ *)
(** ** Dates *)

Module JSDate.

Definition msPerDay : Z := 86400000.

(** A date string such as ["Thu Jan 01 1970"], identified with its local day
    number. *)
Definition DateString : Type := Z.

(** [new Date(t).toDateString()] *)
Definition toDateString (tz t : Z) : DateString := (t + tz) / msPerDay.

(** [new Date(dateString).getTime()]: local midnight of that day. *)
Definition getTime (tz : Z) (d : DateString) : Z := d * msPerDay - tz.

(** Days since 1970-01-01 to (year, month 1..12, day 1..31) in the proleptic
    Gregorian calendar. *)
Definition civil (days : Z) : Z * Z * Z :=
  let z := days + 719468 in
  let era := z / 146097 in
  let doe := z - era * 146097 in
  let yoe := (doe - doe / 1460 + doe / 36524 - doe / 146096) / 365 in
  let doy := doe - (365 * yoe + yoe / 4 - yoe / 100) in
  let mp := (5 * doy + 2) / 153 in
  let d := doy - (153 * mp + 2) / 5 + 1 in
  let m := if mp <? 10 then mp + 3 else mp - 9 in
  let y := yoe + era * 400 + (if m <=? 2 then 1 else 0) in
  (y, m, d).

(** [new Date(t).getMonth()] (0..11) and [getFullYear()]. *)
Definition getMonth (tz t : Z) : Z :=
  let '(_, m, _) := civil (toDateString tz t) in m - 1.
Definition getFullYear (tz t : Z) : Z :=
  let '(y, _, _) := civil (toDateString tz t) in y.

(** [d.setDate(d.getDate() - i)] on the instant [t]: the same local time of
    day, [i] days earlier. *)
Definition minusDays (t i : Z) : Z := t - i * msPerDay.

(** [toLocaleDateString('en-US', { weekday: 'narrow' })] of a day. *)
Definition weekdayNarrow (d : DateString) : string :=
  match (d + 4) mod 7 with
  | 0 => "S" | 1 => "M" | 2 => "T" | 3 => "W" | 4 => "T" | 5 => "F" | _ => "S"
  end%string.

End JSDate.

(* ------------------------------------------------------------------------ *)
(** ** Strings *)

Module JSString.

Definition isWhiteSpace (c : ascii) : bool :=
  let n := nat_of_ascii c in
  ((9 <=? n) && (n <=? 13))%nat || (n =? 32)%nat.

Fixpoint trimStart (s : string) : string :=
  match s with
  | EmptyString => EmptyString
  | String c s' => if isWhiteSpace c then trimStart s' else s
  end.

Fixpoint trimEnd (s : string) : string :=
  match s with
  | EmptyString => EmptyString
  | String c s' =>
      match trimEnd s' with
      | EmptyString => if isWhiteSpace c then EmptyString else String c EmptyString
      | r => String c r
      end
  end.

Definition trim (s : string) : string := trimEnd (trimStart s).

Definition lowerChar (c : ascii) : ascii :=
  let n := nat_of_ascii c in
  if ((65 <=? n) && (n <=? 90))%nat then ascii_of_nat (n + 32) else c.

Fixpoint toLowerCase (s : string) : string :=
  match s with
  | EmptyString => EmptyString
  | String c s' => String (lowerChar c) (toLowerCase s')
  end.

(** A string is truthy when it is not empty. *)
Definition truthy (s : string) : bool :=
  match s with EmptyString => false | _ => true end.

(** [\w]: an ASCII letter, digit or underscore. *)
Definition isWordChar (c : ascii) : bool :=
  let n := nat_of_ascii c in
  (((48 <=? n) && (n <=? 57)) || ((65 <=? n) && (n <=? 90))
   || ((97 <=? n) && (n <=? 122)) || (n =? 95))%nat.

Definition isUpperChar (c : ascii) : bool :=
  let n := nat_of_ascii c in ((65 <=? n) && (n <=? 90))%nat.

Fixpoint filterChars (p : ascii -> bool) (s : string) : string :=
  match s with
  | EmptyString => EmptyString
  | String c s' => if p c then String c (filterChars p s') else filterChars p s'
  end.

(** [s.replace(/[^\w\s]/g, '')] *)
Definition removeNonWordSpace (s : string) : string :=
  filterChars (fun c => isWordChar c || isWhiteSpace c) s.

(** [s.split(/\s+/)], scanning [s] with the piece [cur] read so far;
    [skipping] holds inside a run of white space, whose preceding piece has
    been emitted.  Leading and trailing white space give an empty piece. *)
Fixpoint splitFrom (s cur : string) (skipping : bool) : list string :=
  match s with
  | EmptyString => [cur]
  | String c s' =>
      if isWhiteSpace c
      then if skipping then splitFrom s' EmptyString true
           else cur :: splitFrom s' EmptyString true
      else splitFrom s' (cur ++ String c EmptyString) false
  end.

Definition splitWhiteSpace (s : string) : list string := splitFrom s EmptyString false.

Definition length (s : string) : Z := Z.of_nat (String.length s).

Fixpoint startsWith (s p : string) : bool :=
  match p, s with
  | EmptyString, _ => true
  | String _ _, EmptyString => false
  | String b p', String a s' => Ascii.eqb a b && startsWith s' p'
  end.

(** [s.includes(sub)] *)
Fixpoint includes (s sub : string) : bool :=
  startsWith s sub ||
  match s with
  | EmptyString => false
  | String _ s' => includes s' sub
  end.

End JSString.

(* ------------------------------------------------------------------------ *)
(** ** Ordinary objects used as dictionaries of counters *)

Module JSObject.

(** Own properties in creation order. *)
Definition t : Type := list (string * Z).

Definition empty : t := [].

Fixpoint getOwn (o : t) (k : string) : option Z :=
  match o with
  | [] => None
  | (k', v) :: o' => if String.eqb k k' then Some v else getOwn o' k
  end.

(** Assignment keeps the position of an existing property and appends a new
    one. *)
Fixpoint set (o : t) (k : string) (v : Z) : t :=
  match o with
  | [] => [(k, v)]
  | (k', v') :: o' => if String.eqb k k' then (k', v) :: o' else (k', v') :: set o' k v
  end.

Definition isDigit (c : ascii) : bool :=
  let n := nat_of_ascii c in ((48 <=? n) && (n <=? 57))%nat.

Fixpoint digitsValue (acc : Z) (s : string) : option Z :=
  match s with
  | EmptyString => Some acc
  | String c s' =>
      if isDigit c then digitsValue (10 * acc + (Z.of_nat (nat_of_ascii c) - 48)) s'
      else None
  end.

(** A property key is an array index when it is the canonical decimal form of
    an integer in [0, 2^32 - 2]. *)
Definition arrayIndex (k : string) : option Z :=
  match k with
  | EmptyString => None
  | String c rest =>
      if (Ascii.eqb c "0" && negb (String.eqb rest ""))%bool then None
      else match digitsValue 0 k with
           | Some n => if n <=? 4294967294 then Some n else None
           | None => None
           end
  end.

Definition isIndex (k : string) : bool :=
  match arrayIndex k with Some _ => true | None => false end.

Definition indexOf (k : string) : Z :=
  match arrayIndex k with Some n => n | None => 0 end.

(** [Object.entries]: array-index keys in ascending numeric order, then the
    other keys in creation order. *)
Definition entries (o : t) : list (string * Z) :=
  JSArray.sort (fun a b => indexOf (fst a) - indexOf (fst b))
               (filter (fun p => isIndex (fst p)) o)
  ++ filter (fun p => negb (isIndex (fst p))) o.

End JSObject.

(* ------------------------------------------------------------------------ *)
(** ** types.ts *)

Module Types.

Inductive ActivityType : Type :=
| create_session | explain | summarize | quiz | flashcards | chat
| quiz_complete | exam_complete.

Definition ActivityType_eqb (a b : ActivityType) : bool :=
  match a, b with
  | create_session, create_session | explain, explain | summarize, summarize
  | quiz, quiz | flashcards, flashcards | chat, chat
  | quiz_complete, quiz_complete | exam_complete, exam_complete => true
  | _, _ => false
  end.

(** An optional field is [None] when the row does not carry it ([undefined] or
    [null]); [topic_keywords] is [None] when it is not an array.  The numeric
    fields hold integers: [logActivity] stores a clock reading, a string
    length, question counts and sums of marks. *)
Record StudyEvent : Type := {
  id : string;
  user_id : string;
  action_type : ActivityType;
  timestamp : Z;
  text_length : Z;
  topic_keywords : option (list string);
  quiz_total_questions : option Z;
  quiz_correct_answers : option Z;
  exam_score : option Z;
  exam_total_marks : option Z;
  exam_subject : option string
}.

Record DayEntry : Type := {
  day : string;
  date : JSDate.DateString;
  studied : bool
}.

Record TopicEntry : Type := {
  topic : string;
  count : Z
}.

Record UserStats : Type := {
  totalSessions : Z;
  sessionsToday : Z;
  sessionsThisWeek : Z;
  sessionsThisMonth : Z;
  totalTimeMinutes : Z;
  studyTimeToday : Z;
  studyTimeThisWeek : Z;
  quizzesGenerated : Z;
  currentStreak : Z;
  longestStreak : Z;
  lastSevenDays : list DayEntry;
  quizAccuracy : Z;
  totalQuizQuestions : Z;
  totalQuizCorrect : Z;
  totalQuizzesTaken : Z;
  totalExamsTaken : Z;
  examAverageAccuracy : Z;
  examAverageScore : Q;
  examBestScore : Z;
  topTopics : list TopicEntry
}.

End Types.
Import Types.

(* ------------------------------------------------------------------------ *)
(** ** services/storageService.ts *)

Module Storage.
Import JSNumber.

(** [x || d] on an optional number: [undefined], [null] and [0] are falsy. *)
Definition orElse (x : option Z) (d : Z) : Z :=
  match x with
  | Some v => if v =? 0 then d else v
  | None => d
  end.

(** Truthiness of an optional number. *)
Definition truthy (x : option Z) : bool :=
  match x with
  | Some v => negb (v =? 0)
  | None => false
  end.

(** The number held by a field that has just been tested to be truthy. *)
Definition valueOf (x : option Z) : Z :=
  match x with
  | Some v => v
  | None => 0
  end.

Definition calculateEventDuration (event : StudyEvent) : Z :=
  if ActivityType_eqb (action_type event) quiz_complete
     && truthy (quiz_total_questions event)
  then valueOf (quiz_total_questions event)
  else if ActivityType_eqb (action_type event) exam_complete
          && truthy (exam_total_marks event)
  then Math_ceil (mul (ofZ (valueOf (exam_total_marks event))) (3 # 2))
  else
    let duration := 1 in
    let duration :=
      if 0 <? text_length event
      then duration + Math_ceil (div (ofZ (text_length event)) (ofZ 500))
      else duration in
    let duration :=
      if ActivityType_eqb (action_type event) quiz then duration + 2 else duration in
    duration.

Section Stats.
(** The local time zone, the fetched log and the instant of the call. *)
Variable tz : Z.
Variable events : list StudyEvent.
Variable now : Z.

Definition dateOf (e : StudyEvent) : JSDate.DateString :=
  JSDate.toDateString tz (timestamp e).

Definition todayStr : JSDate.DateString := JSDate.toDateString tz now.
Definition currentMonth : Z := JSDate.getMonth tz now.
Definition currentYear : Z := JSDate.getFullYear tz now.
Definition oneWeekAgo : Z := now - 7 * 24 * 60 * 60 * 1000.

(** *** 1. Session counts *)
Definition sessionCreates : list StudyEvent :=
  filter (fun e => ActivityType_eqb (action_type e) create_session) events.

Definition totalSessions : Z := JSArray.length sessionCreates.

Definition sessionsToday : Z :=
  JSArray.length (filter (fun e => dateOf e =? todayStr) sessionCreates).

Definition sessionsThisWeek : Z :=
  JSArray.length (filter (fun e => oneWeekAgo <? timestamp e) sessionCreates).

Definition sessionsThisMonth : Z :=
  JSArray.length
    (filter (fun e => (JSDate.getMonth tz (timestamp e) =? currentMonth)
                      && (JSDate.getFullYear tz (timestamp e) =? currentYear))
            sessionCreates).

(** *** 2. Study time: the three accumulators of the [forEach] *)
Record StudyTime : Type := {
  st_total : Z;
  st_today : Z;
  st_week : Z
}.

Definition studyTimeStep (acc : StudyTime) (e : StudyEvent) : StudyTime :=
  let duration := calculateEventDuration e in
  {| st_total := st_total acc + duration;
     st_today := if dateOf e =? todayStr then st_today acc + duration else st_today acc;
     st_week := if oneWeekAgo <? timestamp e then st_week acc + duration else st_week acc |}.

Definition studyTime : StudyTime :=
  fold_left studyTimeStep events {| st_total := 0; st_today := 0; st_week := 0 |}.

Definition totalTimeMinutes : Z := st_total studyTime.
Definition studyTimeToday : Z := st_today studyTime.
Definition studyTimeThisWeek : Z := st_week studyTime.

(** *** 3. Quizzes *)
Definition quizzesGenerated : Z :=
  JSArray.length (filter (fun a => ActivityType_eqb (action_type a) quiz) events).

Definition quizCompletions : list StudyEvent :=
  filter (fun a => ActivityType_eqb (action_type a) quiz_complete) events.

Definition totalQuizzesTaken : Z := JSArray.length quizCompletions.

Definition quizTotals : Z * Z :=
  fold_left (fun '(totalQuizQuestions, totalQuizCorrect) q =>
               (totalQuizQuestions + orElse (quiz_total_questions q) 0,
                totalQuizCorrect + orElse (quiz_correct_answers q) 0))
            quizCompletions (0, 0).

Definition totalQuizQuestions : Z := fst quizTotals.
Definition totalQuizCorrect : Z := snd quizTotals.

Definition quizAccuracy : Z :=
  if 0 <? totalQuizQuestions
  then Math_round (mul (div (ofZ totalQuizCorrect) (ofZ totalQuizQuestions)) (ofZ 100))
  else 0.

(** *** 4. Exams *)
Definition examCompletions : list StudyEvent :=
  filter (fun a => ActivityType_eqb (action_type a) exam_complete) events.

Definition totalExamsTaken : Z := JSArray.length examCompletions.

Record ExamAcc : Type := {
  examTotalScore : Z;
  examTotalAccuracySum : Q;
  examBest : Z
}.

Definition examStep (a : ExamAcc) (e : StudyEvent) : ExamAcc :=
  let score := orElse (exam_score e) 0 in
  let total := orElse (exam_total_marks e) 1 in
  let acc := mul (div (ofZ score) (ofZ total)) (ofZ 100) in
  {| examTotalScore := examTotalScore a + score;
     examTotalAccuracySum := add (examTotalAccuracySum a) acc;
     examBest := if examBest a <? score then score else examBest a |}.

Definition examAcc : ExamAcc :=
  fold_left examStep examCompletions
            {| examTotalScore := 0; examTotalAccuracySum := 0%Q; examBest := 0 |}.

Definition examAverageAccuracy : Z :=
  if 0 <? totalExamsTaken
  then Math_round (div (examTotalAccuracySum examAcc) (ofZ totalExamsTaken))
  else 0.

Definition examAverageScore : Q :=
  if 0 <? totalExamsTaken
  then toFixed1 (div (ofZ (examTotalScore examAcc)) (ofZ totalExamsTaken))
  else 0%Q.

Definition examBestScore : Z := examBest examAcc.

(** *** 5. Streaks *)
Definition dates : list JSDate.DateString := map dateOf events.

Definition uniqueDates : list JSDate.DateString :=
  JSArray.sort (fun a b => JSDate.getTime tz a - JSDate.getTime tz b)
               (JSArray.fromSet Z.eqb dates).

(** [(curr.getTime() - prev.getTime()) / (1000 * 3600 * 24)] *)
Definition diffDays (prev curr : JSDate.DateString) : Q :=
  div (ofZ (JSDate.getTime tz curr - JSDate.getTime tz prev)) (ofZ (1000 * 3600 * 24)).

(** One iteration of the forward loop at index [i]; the state is
    [(tempStreak, longestStreak)]. *)
Definition longestStep (st : Z * Z) (i : nat) : Z * Z :=
  let '(tempStreak, longestStreak) := st in
  let tempStreak :=
    match i with
    | O => 1
    | S j =>
        if Qle_bool (diffDays (nth j uniqueDates 0) (nth i uniqueDates 0)) (3 # 2)
        then tempStreak + 1 else 1
    end in
  (tempStreak, if longestStreak <? tempStreak then tempStreak else longestStreak).

Definition longestStreak : Z :=
  snd (fold_left longestStep (seq 0 (List.length uniqueDates)) (0, 0)).

(** The backward loop [for (i = length - 1; i > 0; i--)] with its [break]. *)
Fixpoint currentLoop (i : nat) (currentStreak : Z) : Z :=
  match i with
  | O => currentStreak
  | S j =>
      if Qle_bool (diffDays (nth j uniqueDates 0) (nth i uniqueDates 0)) (3 # 2)
      then currentLoop j (currentStreak + 1)
      else currentStreak
  end.

Definition currentStreak : Z :=
  match uniqueDates with
  | [] => 0
  | _ :: _ =>
      let today := JSDate.toDateString tz now in
      let yesterday := JSDate.toDateString tz (now - 86400000) in
      let lastActive := nth (List.length uniqueDates - 1) uniqueDates 0 in
      if (lastActive =? today) || (lastActive =? yesterday)
      then currentLoop (List.length uniqueDates - 1) 1
      else 0
  end.

(** *** 6. Last 7 days *)
Definition lastSevenDays : list DayEntry :=
  map (fun i =>
         let d := JSDate.minusDays now i in
         let dateStr := JSDate.toDateString tz d in
         let dayLabel := JSDate.weekdayNarrow dateStr in
         let studied := existsb (fun e => dateOf e =? dateStr) events in
         {| day := dayLabel; date := dateStr; studied := studied |})
      [6; 5; 4; 3; 2; 1; 0].

(** *** 7. Topics *)

(** [topicCounts[k] = (topicCounts[k] || 0) + 1] on an object literal.
    ["__proto__"] reads the prototype and the assignment of the resulting
    string is ignored by the inherited setter; ["constructor"] reads the
    inherited function and stores a string, which is not a count: the result
    is then outside this model ([None]). *)
Definition bump (topicCounts : JSObject.t) (k : string) : option JSObject.t :=
  if String.eqb k "__proto__" then Some topicCounts
  else if String.eqb k "constructor" then None
  else Some (JSObject.set topicCounts k (orElse (JSObject.getOwn topicCounts k) 0 + 1)).

Definition keywordStep (acc : option JSObject.t) (keyword : string) : option JSObject.t :=
  match acc with
  | None => None
  | Some topicCounts =>
      let k := JSString.toLowerCase (JSString.trim keyword) in
      if JSString.truthy k then bump topicCounts k else Some topicCounts
  end.

Definition topicStep (acc : option JSObject.t) (e : StudyEvent) : option JSObject.t :=
  match topic_keywords e with
  | Some keywords => fold_left keywordStep keywords acc
  | None => acc
  end.

Definition topicCounts : option JSObject.t :=
  fold_left topicStep events (Some JSObject.empty).

Definition topTopics : option (list TopicEntry) :=
  match topicCounts with
  | None => None
  | Some topicCounts =>
      Some (JSArray.slice0 5
              (JSArray.sort (fun a b => count b - count a)
                 (map (fun '(topic, count) => {| topic := topic; count := count |})
                      (JSObject.entries topicCounts))))
  end.

Definition getUserStats : option UserStats :=
  match topTopics with
  | None => None
  | Some topTopics =>
      Some {| Types.totalSessions := totalSessions;
              Types.sessionsToday := sessionsToday;
              Types.sessionsThisWeek := sessionsThisWeek;
              Types.sessionsThisMonth := sessionsThisMonth;
              Types.totalTimeMinutes := totalTimeMinutes;
              Types.studyTimeToday := studyTimeToday;
              Types.studyTimeThisWeek := studyTimeThisWeek;
              Types.quizzesGenerated := quizzesGenerated;
              Types.currentStreak := currentStreak;
              Types.longestStreak := longestStreak;
              Types.lastSevenDays := lastSevenDays;
              Types.quizAccuracy := quizAccuracy;
              Types.totalQuizQuestions := totalQuizQuestions;
              Types.totalQuizCorrect := totalQuizCorrect;
              Types.totalQuizzesTaken := totalQuizzesTaken;
              Types.totalExamsTaken := totalExamsTaken;
              Types.examAverageAccuracy := examAverageAccuracy;
              Types.examAverageScore := examAverageScore;
              Types.examBestScore := examBestScore;
              Types.topTopics := topTopics |}
  end.
End Stats.

End Storage.

(* ------------------------------------------------------------------------ *)
(** ** The specification's reading of the statistics *)

Module Spec.

(** *** Time estimate *)

Definition sum (l : list Z) : Z := fold_right Z.add 0 l.

(** "All other events": 1, plus [ceil(textLength / 500)] for a positive text
    length, plus 2 for a [quiz] event. *)
Definition otherContribution (e : StudyEvent) : Z :=
  1 + (if 0 <? text_length e
       then Qceiling (inject_Z (text_length e) / inject_Z 500) else 0)
    + (if ActivityType_eqb (action_type e) quiz then 2 else 0).

(** The per-event rule in the specification's words: a field is known when
    the event carries it. *)
Definition contributionAsClaimed (e : StudyEvent) : Z :=
  match action_type e, quiz_total_questions e, exam_total_marks e with
  | quiz_complete, Some n, _ => n
  | exam_complete, _, Some m => Qceiling (inject_Z m * (3 # 2))
  | _, _, _ => otherContribution e
  end.

(** The same rule where a count or a total of 0 is treated like a missing
    one. *)
Definition contribution (e : StudyEvent) : Z :=
  match action_type e, quiz_total_questions e, exam_total_marks e with
  | quiz_complete, Some n, _ => if n =? 0 then otherContribution e else n
  | exam_complete, _, Some m =>
      if m =? 0 then otherContribution e else Qceiling (inject_Z m * (3 # 2))
  | _, _, _ => otherContribution e
  end.

(** Field values for which the binary64 operations of the estimate are
    exact enough: every text length and mark total of practical size. *)
Definition inRange (e : StudyEvent) : Prop :=
  text_length e <= 2 ^ 52 /\
  match exam_total_marks e with Some m => Z.abs m <= 2 ^ 51 | None => True end.

(** *** Quiz and exam accuracy *)

(** A missing field contributes 0. *)
Definition field0 (x : option Z) : Z := match x with Some v => v | None => 0 end.

Definition isQuizComplete (e : StudyEvent) : bool :=
  ActivityType_eqb (action_type e) quiz_complete.

Definition isExamComplete (e : StudyEvent) : bool :=
  ActivityType_eqb (action_type e) exam_complete.

Definition S_total (events : list StudyEvent) : Z :=
  sum (map (fun e => field0 (quiz_total_questions e)) (filter isQuizComplete events)).

Definition S_correct (events : list StudyEvent) : Z :=
  sum (map (fun e => field0 (quiz_correct_answers e)) (filter isQuizComplete events)).

(** Rounding of an exact value to the nearest integer, a tie going up. *)
Definition round (x : Q) : Z := Qfloor (x + (1 # 2)).

Definition quizAccuracyAsClaimed (events : list StudyEvent) : Z :=
  if S_total events =? 0 then 0
  else round (100 * inject_Z (S_correct events) / inject_Z (S_total events)).

(** [100 * c / t] lies exactly half-way between two integers. *)
Definition halfway (c t : Z) : Prop := (200 * c + t) mod (2 * t) = 0.

Definition nonNegative (x : option Z) : Prop :=
  match x with Some v => 0 <= v | None => True end.

Definition nonNegativeFields (e : StudyEvent) : Prop :=
  nonNegative (quiz_total_questions e) /\ nonNegative (quiz_correct_answers e) /\
  nonNegative (exam_score e) /\ nonNegative (exam_total_marks e).

(** The total marks of an exam, taken as 1 when absent or 0. *)
Definition marksOrOne (e : StudyEvent) : Z :=
  match exam_total_marks e with Some m => Z.max m 1 | None => 1 end.

Definition scoreWithinMarks (e : StudyEvent) : Prop :=
  isExamComplete e = true -> field0 (exam_score e) <= marksOrOne e.

(** *** Session counts *)

Definition tally {A : Type} (f : A -> bool) (l : list A) : Z :=
  Z.of_nat (List.length (filter f l)).

Definition isCreateSession (e : StudyEvent) : bool :=
  ActivityType_eqb (action_type e) create_session.

Definition week : Z := 7 * 24 * 60 * 60 * 1000.

(** "Within the trailing 7 x 24 h window ending at now". *)
Definition inTrailingWeekAsClaimed (now : Z) (e : StudyEvent) : bool :=
  isCreateSession e && (now - week <? timestamp e) && (timestamp e <=? now).

(** Later than one week before now. *)
Definition afterOneWeekAgo (now : Z) (e : StudyEvent) : bool :=
  isCreateSession e && (now - week <? timestamp e).


(** *** Streaks *)

(** "Consecutive entries differ by at most 1.5 days", on day numbers. *)
Definition withinTolerance (prev curr : Z) : bool :=
  Qle_bool (inject_Z (curr - prev)) (3 # 2).

Fixpoint scan (prev counter best : Z) (days : list Z) : Z :=
  match days with
  | [] => best
  | d :: rest =>
      let counter := if withinTolerance prev d then counter + 1 else 1 in
      scan d counter (Z.max best counter) rest
  end.

Definition longestRun (days : list Z) : Z :=
  match days with
  | [] => 0
  | d :: rest => scan d 1 1 rest
  end.

Fixpoint walkBack (curr : Z) (earlier : list Z) : Z :=
  match earlier with
  | [] => 1
  | prev :: rest => if withinTolerance prev curr then 1 + walkBack prev rest else 1
  end.

Definition currentRun (today : Z) (days : list Z) : Z :=
  match rev days with
  | [] => 0
  | lastActive :: earlier =>
      if (lastActive =? today) || (lastActive =? today - 1)
      then walkBack lastActive earlier else 0
  end.

(** *** Topic ranking *)

Definition keywordsOf (e : StudyEvent) : list string :=
  match topic_keywords e with Some l => l | None => [] end.

Definition normalize (k : string) : string := JSString.toLowerCase (JSString.trim k).

(** All non-empty trimmed, lowercased keywords of the log, in input order. *)
Definition keywords (events : list StudyEvent) : list string :=
  filter JSString.truthy (map normalize (flat_map keywordsOf events)).

(** The distinct keywords in the order of their first occurrence. *)
Fixpoint firstSeen (l : list string) : list string :=
  match l with
  | [] => []
  | k :: rest => k :: filter (fun k' => negb (String.eqb k' k)) (firstSeen rest)
  end.

Definition occurrences (k : string) (l : list string) : Z :=
  Z.of_nat (List.length (filter (String.eqb k) l)).

Definition entriesOf (order kws : list string) : list TopicEntry :=
  map (fun k => {| topic := k; count := occurrences k kws |}) order.

(** [ranking] lists the entries of [order] by descending count, entries of
    equal count in the order they have in [order]. *)
Definition rankedBy (order kws : list string) (ranking : list TopicEntry) : Prop :=
  Permutation ranking (entriesOf order kws) /\
  StronglySorted (fun a b => count b <= count a) ranking /\
  forall c, filter (fun t => count t =? c) ranking
            = filter (fun t => count t =? c) (entriesOf order kws).

(** Keys that shadow no member inherited from [Object.prototype]. *)
Definition plainKey (k : string) : Prop :=
  k <> "constructor"%string /\ k <> "__proto__"%string.

End Spec.

(* ------------------------------------------------------------------------ *)
(** ** Sample events *)

Module Sample.
Local Open Scope string_scope.

Definition event (a : ActivityType) (t len : Z) (kw : list string) : StudyEvent :=
  {| id := ""; user_id := "u"; action_type := a; timestamp := t; text_length := len;
     topic_keywords := Some kw; quiz_total_questions := None;
     quiz_correct_answers := None; exam_score := None; exam_total_marks := None;
     exam_subject := None |}.

Definition quizDone (t total correct : Z) : StudyEvent :=
  {| id := ""; user_id := "u"; action_type := quiz_complete; timestamp := t;
     text_length := 10; topic_keywords := Some []; quiz_total_questions := Some total;
     quiz_correct_answers := Some correct; exam_score := None;
     exam_total_marks := None; exam_subject := None |}.

Definition examDone (t score total : Z) : StudyEvent :=
  {| id := ""; user_id := "u"; action_type := exam_complete; timestamp := t;
     text_length := 19; topic_keywords := Some []; quiz_total_questions := None;
     quiz_correct_answers := None; exam_score := Some score;
     exam_total_marks := Some total; exam_subject := Some "General Knowledge" |}.

Definition dayMs : Z := 86400000.

(** A log over the local days 19996 .. 20000 (2024-09-30 .. 2024-10-04). *)
Definition log : list StudyEvent :=
  [ event create_session (19996 * dayMs + 7) 1200 ["react"; "2024"];
    event explain (19997 * dayMs) 0 ["React "; "go"];
    event quiz (19998 * dayMs + 100) 501 ["go"];
    event chat (20000 * dayMs + 3) 500 [];
    quizDone (20000 * dayMs + 4) 5 4;
    quizDone (20000 * dayMs + 5) 10 6;
    examDone (20000 * dayMs + 6) 18 20 ].

Definition now : Z := 20000 * dayMs + 5000.

End Sample.

(* ------------------------------------------------------------------------ *)
(** ** Notions used in the proofs *)

Module Derived.
Import Storage.

(** An exam whose score lies between 0 and its divisor. *)
Definition examOk (e : StudyEvent) : Prop :=
  0 <= orElse (exam_score e) 0 <= orElse (exam_total_marks e) 1.

(** The object with the keys [keys], in that order, and the values [f]. *)
Definition tabulate (f : string -> Z) (keys : list string) : JSObject.t :=
  map (fun k => (k, f k)) keys.

(** [topicCounts[k] = (topicCounts[k] || 0) + 1] for a plain key. *)
Definition put (o : JSObject.t) (k : string) : JSObject.t :=
  JSObject.set o k (orElse (JSObject.getOwn o k) 0 + 1).

(** The counter object after the keywords [l]. *)
Definition objOf (l : list string) : JSObject.t :=
  tabulate (fun k => Spec.occurrences k l) (Spec.firstSeen l).

(** One keyword of the inner [forEach], already trimmed and lowercased. *)
Definition bumpStep (acc : option JSObject.t) (k : string) : option JSObject.t :=
  match acc with
  | None => None
  | Some o => bump o k
  end.

(** The comparators of the two sorts. *)
Definition byIndex (a b : string) : Z := JSObject.indexOf a - JSObject.indexOf b.

Definition byCount (a b : TopicEntry) : Z := count b - count a.

(** The key order of [Object.entries] for keys created in the order [keys]. *)
Definition enumeration (keys : list string) : list string :=
  JSArray.sort byIndex (filter JSObject.isIndex keys)
  ++ filter (fun k => negb (JSObject.isIndex k)) keys.

(** The value of a decimal digit and the length of a key. *)
Definition digit (c : ascii) : Z := Z.of_nat (nat_of_ascii c) - 48.
Definition len (s : string) : Z := Z.of_nat (String.length s).

End Derived.

(* ------------------------------------------------------------------------ *)
(** ** services/storageService.ts: writing and reading the activity log *)

Module StorageLog.

Definition stopWords : list string :=
  ["the"; "is"; "in"; "at"; "of"; "on"; "and"; "a"; "to"; "for"; "with"; "as";
   "by"; "an"; "are"; "it"; "this"; "that"; "from"]%string.

Definition extractKeywords (text : string) : list string :=
  if negb (JSString.truthy text) then []
  else
    let words :=
      filter (fun w => (3 <? JSString.length w) && negb (existsb (String.eqb w) stopWords))
             (JSString.splitWhiteSpace
                (JSString.removeNonWordSpace (JSString.toLowerCase text))) in
    JSArray.slice0 5 (JSArray.fromSet String.eqb words).

(** The optional third argument of [logActivity]. *)
Record ExtraData : Type := {
  total_questions : option Z;
  correct_answers : option Z;
  exam_score : option Z;
  exam_total : option Z;
  exam_subject : option string
}.

(** [extraData?.field] *)
Definition optField {A : Type} (extraData : option ExtraData)
           (field : ExtraData -> option A) : option A :=
  match extraData with
  | Some x => field x
  | None => None
  end.

(** The row that [logActivity] builds; [rowId] is the key the table gives
    it and [clock] the reading of [Date.now()]. *)
Definition newEvent (rowId userId : string) (clock : Z) (type : ActivityType)
           (textContent : string) (extraData : option ExtraData) : StudyEvent :=
  {| Types.id := rowId;
     Types.user_id := userId;
     Types.action_type := type;
     Types.timestamp := clock;
     Types.text_length := JSString.length textContent;
     Types.topic_keywords := Some (extractKeywords textContent);
     Types.quiz_total_questions := optField extraData total_questions;
     Types.quiz_correct_answers := optField extraData correct_answers;
     Types.exam_score := optField extraData exam_score;
     Types.exam_total_marks := optField extraData exam_total;
     Types.exam_subject := optField extraData exam_subject |}.

(** [logActivity] on the table [store]: nothing is written without a logged-in
    user, nor when the insert fails ([inserted = false]; the error is
    swallowed). *)
Definition logActivity (user : option string) (inserted : bool) (rowId : string)
           (clock : Z) (type : ActivityType) (textContent : string)
           (extraData : option ExtraData) (store : list StudyEvent) : list StudyEvent :=
  match user with
  | None => store
  | Some userId =>
      if inserted
      then store ++ [newEvent rowId userId clock type textContent extraData]
      else store
  end.

(** What [getActivities] may return for the table [store]: when the query
    succeeds ([ok = true]) the rows in ascending order of their timestamps,
    rows of equal timestamp in any order; the empty list when it fails. *)
Inductive getActivities (store : list StudyEvent) : bool -> list StudyEvent -> Prop :=
| fetched (data : list StudyEvent) :
    Permutation data store ->
    StronglySorted (fun a b => timestamp a <= timestamp b) data ->
    getActivities store true data
| fetchFailed : getActivities store false [].

End StorageLog.

(* ------------------------------------------------------------------------ *)
(** ** components/QuizRunner.tsx *)

Module QuizRunner.
Import JSNumber.

Inductive QuizType : Type := mcq | short_answer.

Record QuizItem : Type := {
  id : Z;
  type : QuizType;
  question : string;
  options : option (list string);
  correctAnswer : string;
  explanation : option string;
  keywords : option (list string)
}.

(** The state [userAnswers]: an object from question ids to answers. *)
Definition Answers : Type := Z -> option string.

Definition noAnswers : Answers := fun _ => None.

Definition handleAnswerChange (isSubmitted : bool) (prev : Answers) (id : Z) (val : string)
  : Answers :=
  if isSubmitted then prev
  else fun k => if k =? id then Some val else prev k.

(** The body of the [forEach] of [calculateResults]: is [q] answered
    correctly? *)
Definition isCorrect (userAnswers : Answers) (q : QuizItem) : bool :=
  let userAns :=
    option_map (fun a => JSString.toLowerCase (JSString.trim a)) (userAnswers (id q)) in
  let correctAns := JSString.toLowerCase (correctAnswer q) in
  match userAns with
  | Some ua =>
      if JSString.truthy ua
      then
        match type q with
        | mcq => String.eqb ua correctAns
        | short_answer =>
            match keywords q with
            | Some ks =>
                if 0 <? JSArray.length ks
                then
                  let matches := filter (fun k => JSString.includes ua (JSString.toLowerCase k)) ks in
                  Math_ceil (div (ofZ (JSArray.length ks)) (ofZ 2)) <=? JSArray.length matches
                else String.eqb ua correctAns
            | None => String.eqb ua correctAns
            end
        end
      else false
  | None => false
  end.

(** [correctCount] at the end of [calculateResults]. *)
Definition correctCount (questions : list QuizItem) (userAnswers : Answers) : Z :=
  fold_left (fun correctCount q => if isCorrect userAnswers q then correctCount + 1
                                   else correctCount)
            questions 0.

(** The marks drawn for each question: [hasAttempted] and the [isCorrect] of
    the render loop, which is computed apart from the score. *)
Definition hasAttempted (userAnswers : Answers) (q : QuizItem) : bool :=
  match userAnswers (id q) with
  | Some userAnswer => negb (String.eqb userAnswer "")
  | None => false
  end.

Definition shownCorrect (isSubmitted : bool) (userAnswers : Answers) (q : QuizItem) : bool :=
  if isSubmitted && hasAttempted userAnswers q
  then
    match userAnswers (id q) with
    | Some userAnswer =>
        match type q with
        | mcq => String.eqb userAnswer (correctAnswer q)
        | short_answer =>
            match keywords q with
            | Some ks =>
                existsb (fun k => JSString.includes (JSString.toLowerCase userAnswer)
                                                    (JSString.toLowerCase k)) ks
            | None =>
                String.eqb (JSString.toLowerCase userAnswer)
                           (JSString.toLowerCase (correctAnswer q))
            end
        end
    | None => false
    end
  else false.

(** The third argument of the [logActivity] call of [calculateResults]. *)
Definition logged (questions : list QuizItem) (userAnswers : Answers) : StorageLog.ExtraData :=
  {| StorageLog.total_questions := Some (JSArray.length questions);
     StorageLog.correct_answers := Some (correctCount questions userAnswers);
     StorageLog.exam_score := None;
     StorageLog.exam_total := None;
     StorageLog.exam_subject := None |}.

End QuizRunner.

(* ------------------------------------------------------------------------ *)
(** ** components/ExamMode (in ChatInterface.tsx) *)

Module ExamMode.
Import JSNumber.

Inductive ExamType : Type := mcq | fill_blank | short_answer | long_answer.

Record ExamItem : Type := {
  id : Z;
  type : ExamType;
  question : string;
  options : option (list string);
  correctAnswer : option string;
  modelAnswer : option string;
  explanation : option string;
  keywords : option (list string);
  marks : Z
}.

Definition Answers : Type := Z -> option string.

(** The state [submittedQuestions]. *)
Definition Submitted : Type := Z -> option bool.

Definition handleAnswerChange (isFinished : bool) (prev : Answers) (id : Z) (val : string)
  : Answers :=
  if negb isFinished then fun k => if k =? id then Some val else prev k
  else prev.


(** [loadHistory]: the [exam_complete] events, newest first. *)
Definition loadHistory (allEvents : list StudyEvent) : list StudyEvent :=
  JSArray.sort (fun a b => timestamp b - timestamp a)
               (filter (fun e => ActivityType_eqb (action_type e) exam_complete) allEvents).

(** [ans === q.correctAnswer?.toLowerCase()] *)
Definition matchesAnswer (ans : string) (q : ExamItem) : bool :=
  match correctAnswer q with
  | Some c => String.eqb ans (JSString.toLowerCase c)
  | None => false
  end.

(** [hits >= Math.ceil(keywords.length / 2)] with [hits] the number of
    keywords that the answer includes. *)
Definition enoughHits (ans : string) (ks : list string) : bool :=
  let hits :=
    fold_left (fun acc k => if JSString.includes ans (JSString.toLowerCase k)
                            then acc + 1 else acc) ks 0 in
  Math_ceil (div (ofZ (JSArray.length ks)) (ofZ 2)) <=? hits.

(** [userAnswers[q.id]?.trim().toLowerCase()], [None] when it is falsy. *)
Definition answerOf (userAnswers : Answers) (q : ExamItem) : option string :=
  match userAnswers (id q) with
  | Some a =>
      let ans := JSString.toLowerCase (JSString.trim a) in
      if JSString.truthy ans then Some ans else None
  | None => None
  end.

Definition isCorrect (userAnswers : Answers) (q : ExamItem) : bool :=
  match answerOf userAnswers q with
  | None => false
  | Some ans =>
      match type q with
      | mcq => matchesAnswer ans q
      | fill_blank => matchesAnswer ans q
      | short_answer | long_answer =>
          match keywords q with
          | None => true
          | Some ks => enoughHits ans ks
          end
      end
  end.

Definition isTrue (x : option bool) : bool :=
  match x with Some b => b | None => false end.

Definition getCurrentScore (examData : list ExamItem) (userAnswers : Answers)
           (submittedQuestions : Submitted) (isFinished : bool) : Z :=
  fold_left (fun score q =>
               if (isTrue (submittedQuestions (id q)) || isFinished)
                  && isCorrect userAnswers q
               then score + marks q else score)
            examData 0.

(** The grading inside [finishExam]. *)
Definition correctAtFinish (userAnswers : Answers) (q : ExamItem) : bool :=
  match answerOf userAnswers q with
  | None => false
  | Some ans =>
      match type q with
      | mcq => matchesAnswer ans q
      | fill_blank => matchesAnswer ans q
      | short_answer | long_answer =>
          match keywords q with
          | Some ks => enoughHits ans ks
          | None => false
          end
      end
  end.

(** [finalScore] of [finishExam], the score that is logged. *)
Definition finalScore (examData : list ExamItem) (userAnswers : Answers) : Z :=
  fold_left (fun score q => if correctAtFinish userAnswers q then score + marks q else score)
            examData 0.


(** The third argument of the [logActivity] call of [finishExam]. *)
Definition logged (examData : list ExamItem) (userAnswers : Answers) (totalMarks : Z)
           (subjectName : string) : StorageLog.ExtraData :=
  {| StorageLog.total_questions := None;
     StorageLog.correct_answers := None;
     StorageLog.exam_score := Some (finalScore examData userAnswers);
     StorageLog.exam_total := Some totalMarks;
     StorageLog.exam_subject := Some subjectName |}.

(** The accuracy column of the exam history. *)
Definition percentage (exam : StudyEvent) : Z :=
  let score := Storage.orElse (Types.exam_score exam) 0 in
  let total := Storage.orElse (exam_total_marks exam) 1 in
  Math_round (mul (div (ofZ score) (ofZ total)) (ofZ 100)).

End ExamMode.

(* ------------------------------------------------------------------------ *)
(** ** components/Profile *)

Module Profile.

(** The statistics shown to a guest, and when loading them throws. *)
Definition EMPTY_STATS : UserStats :=
  {| Types.totalSessions := 0;
     Types.sessionsToday := 0;
     Types.sessionsThisWeek := 0;
     Types.sessionsThisMonth := 0;
     Types.totalTimeMinutes := 0;
     Types.studyTimeToday := 0;
     Types.studyTimeThisWeek := 0;
     Types.quizzesGenerated := 0;
     Types.currentStreak := 0;
     Types.longestStreak := 0;
     Types.lastSevenDays := [];
     Types.quizAccuracy := 0;
     Types.totalQuizQuestions := 0;
     Types.totalQuizCorrect := 0;
     Types.totalQuizzesTaken := 0;
     Types.totalExamsTaken := 0;
     Types.examAverageAccuracy := 0;
     Types.examAverageScore := 0%Q;
     Types.examBestScore := 0;
     Types.topTopics := [] |}.

End Profile.

(* ------------------------------------------------------------------------ *)
(** ** Notions used in the further properties *)

Module Notions.

Fixpoint allChars (p : ascii -> bool) (s : string) : bool :=
  match s with
  | EmptyString => true
  | String c s' => p c && allChars p s'
  end.

(** A lowercase letter, a digit or an underscore. *)
Definition isKeywordChar (c : ascii) : bool :=
  JSString.isWordChar c && negb (JSString.isUpperChar c).

(** The shape of the keywords that [extractKeywords] returns: longer than 3
    characters, no stop word, made of lowercase letters, digits and
    underscores. *)
Definition keywordShape (k : string) : Prop :=
  3 < JSString.length k /\
  ~ In k StorageLog.stopWords /\
  allChars isKeywordChar k = true.

(** A day with at least one event. *)
Definition active (tz : Z) (events : list StudyEvent) (d : JSDate.DateString) : Prop :=
  exists e, In e events /\ Storage.dateOf tz e = d.

(** The number of keywords of [ks] that the answer [ans] includes. *)
Definition hits (ans : string) (ks : list string) : Z :=
  JSArray.length (filter (fun k => JSString.includes ans (JSString.toLowerCase k)) ks).

(** An answered short or long question without keyword list. *)
Definition gradedLoosely (userAnswers : ExamMode.Answers) (q : ExamMode.ExamItem) : bool :=
  match ExamMode.answerOf userAnswers q, ExamMode.type q, ExamMode.keywords q with
  | Some _, ExamMode.short_answer, None => true
  | Some _, ExamMode.long_answer, None => true
  | _, _, _ => false
  end.


(** The row that [calculateResults] logs for a quiz. *)
Definition quizRow (rowId userId : string) (clock : Z) (title : string)
           (questions : list QuizRunner.QuizItem) (userAnswers : QuizRunner.Answers)
  : StudyEvent :=
  StorageLog.newEvent rowId userId clock quiz_complete ("Quiz: " ++ title)%string
                      (Some (QuizRunner.logged questions userAnswers)).

(** The statistics [s] with another week strip. *)
Definition withDays (s : UserStats) (days : list DayEntry) : UserStats :=
  {| Types.totalSessions := Types.totalSessions s;
     Types.sessionsToday := Types.sessionsToday s;
     Types.sessionsThisWeek := Types.sessionsThisWeek s;
     Types.sessionsThisMonth := Types.sessionsThisMonth s;
     Types.totalTimeMinutes := Types.totalTimeMinutes s;
     Types.studyTimeToday := Types.studyTimeToday s;
     Types.studyTimeThisWeek := Types.studyTimeThisWeek s;
     Types.quizzesGenerated := Types.quizzesGenerated s;
     Types.currentStreak := Types.currentStreak s;
     Types.longestStreak := Types.longestStreak s;
     Types.lastSevenDays := days;
     Types.quizAccuracy := Types.quizAccuracy s;
     Types.totalQuizQuestions := Types.totalQuizQuestions s;
     Types.totalQuizCorrect := Types.totalQuizCorrect s;
     Types.totalQuizzesTaken := Types.totalQuizzesTaken s;
     Types.totalExamsTaken := Types.totalExamsTaken s;
     Types.examAverageAccuracy := Types.examAverageAccuracy s;
     Types.examAverageScore := Types.examAverageScore s;
     Types.examBestScore := Types.examBestScore s;
     Types.topTopics := Types.topTopics s |}.

(** The row that [finishExam] logs for an exam. *)
Definition examRow (rowId userId : string) (clock : Z) (examData : list ExamMode.ExamItem)
           (userAnswers : ExamMode.Answers) (totalMarks : Z) (subjectName : string)
  : StudyEvent :=
  StorageLog.newEvent rowId userId clock exam_complete "Completed Exam Mode"%string
                      (Some (ExamMode.logged examData userAnswers totalMarks subjectName)).

End Notions.

(* ------------------------------------------------------------------------ *)
(** ** A sample quiz and a sample exam *)

Module Examples.
Local Open Scope string_scope.

Definition mcqItem : QuizRunner.QuizItem :=
  {| QuizRunner.id := 1; QuizRunner.type := QuizRunner.mcq;
     QuizRunner.question := "Capital of France?";
     QuizRunner.options := Some ["Paris"; "Rome"];
     QuizRunner.correctAnswer := "Paris"; QuizRunner.explanation := None;
     QuizRunner.keywords := None |}.

Definition shortItem : QuizRunner.QuizItem :=
  {| QuizRunner.id := 2; QuizRunner.type := QuizRunner.short_answer;
     QuizRunner.question := "What does a plant need for photosynthesis?";
     QuizRunner.options := None;
     QuizRunner.correctAnswer := "Light, water and carbon dioxide";
     QuizRunner.explanation := None;
     QuizRunner.keywords := Some ["Light"; "water"; "carbon"] |}.

Definition quizItems : list QuizRunner.QuizItem := [mcqItem; shortItem].

Definition quizAnswers : QuizRunner.Answers :=
  QuizRunner.handleAnswerChange false
    (QuizRunner.handleAnswerChange false QuizRunner.noAnswers 1 "Paris")
    2 "  Water and LIGHT ".

Definition blankItem : ExamMode.ExamItem :=
  {| ExamMode.id := 1; ExamMode.type := ExamMode.fill_blank;
     ExamMode.question := "The powerhouse of the cell is the ___";
     ExamMode.options := None; ExamMode.correctAnswer := Some "Mitochondria";
     ExamMode.modelAnswer := None; ExamMode.explanation := None;
     ExamMode.keywords := None; ExamMode.marks := 2 |}.

Definition looseItem : ExamMode.ExamItem :=
  {| ExamMode.id := 2; ExamMode.type := ExamMode.long_answer;
     ExamMode.question := "Describe osmosis.";
     ExamMode.options := None; ExamMode.correctAnswer := None;
     ExamMode.modelAnswer := Some "Water moves across a membrane";
     ExamMode.explanation := None;
     ExamMode.keywords := None; ExamMode.marks := 5 |}.

Definition essayItem : ExamMode.ExamItem :=
  {| ExamMode.id := 3; ExamMode.type := ExamMode.short_answer;
     ExamMode.question := "What crosses what in osmosis?";
     ExamMode.options := None; ExamMode.correctAnswer := None;
     ExamMode.modelAnswer := Some "Water crosses a membrane";
     ExamMode.explanation := None;
     ExamMode.keywords := Some ["Water"; "membrane"; "gradient"]; ExamMode.marks := 3 |}.

Definition examItems : list ExamMode.ExamItem := [blankItem; looseItem; essayItem].

Definition examAnswers : ExamMode.Answers :=
  ExamMode.handleAnswerChange false
    (ExamMode.handleAnswerChange false
       (ExamMode.handleAnswerChange false (fun _ => None) 1 "mitochondria ")
       2 "no idea")
    3 "Water and a MEMBRANE".

(** A table with one quiz row and one exam row. *)
Definition table : list StudyEvent :=
  [ Notions.quizRow "r1" "u" (20000 * Sample.dayMs + 10) "Plants" quizItems quizAnswers;
    Notions.examRow "r2" "u" (20000 * Sample.dayMs + 20) examItems examAnswers 20
                    "General Knowledge" ].

(** The last event of the sample log. *)
Definition lastExam : StudyEvent := Sample.examDone (20000 * Sample.dayMs + 6) 18 20.

End Examples.

(* ------------------------------------------------------------------------ *)
(** ** Time zones whose offset changes *)

Module Zone.

(** What the code asks of the local time zone: [localDay t] is the day number
    of the local calendar day of the instant [t], that is, of
    [new Date(t).toDateString()]; [midnight d] is the instant at which the
    local day [d] begins, that is, [new Date(dateString).getTime()]. *)
Record t : Type := {
  localDay : Z -> Z;
  midnight : Z -> Z
}.

(** A zone at a constant offset of [tz] milliseconds east of UTC. *)
Definition fixed (tz : Z) : t :=
  {| localDay := JSDate.toDateString tz; midnight := JSDate.getTime tz |}.

Definition hour : Z := 3600000.

(** Sunday 2026-03-08, the day on which daylight saving time begins in
    America/New_York, and the instant of the change, 07:00 UTC (02:00 EST). *)
Definition changeDay : Z := 20520.
Definition change : Z := changeDay * JSDate.msPerDay + 7 * hour.

(** America/New_York around that change: 5 hours west of UTC before it, 4
    hours after it. *)
Definition newYork : t :=
  {| localDay := fun t =>
       (t - (if t <? change then 5 * hour else 4 * hour)) / JSDate.msPerDay;
     midnight := fun d =>
       d * JSDate.msPerDay + (if d <=? changeDay then 5 * hour else 4 * hour) |}.

(** The local days partition time, each beginning at its midnight, and a local
    day lasts between 23 and 25 hours. *)
Definition regular (z : t) : Prop :=
  (forall t d, localDay z t = d <-> midnight z d <= t < midnight z (d + 1)) /\
  (forall d, 23 * hour <= midnight z (d + 1) - midnight z d <= 25 * hour).

End Zone.

(* ------------------------------------------------------------------------ *)
(** ** services/storageService.ts: the streaks and the week strip in any zone *)

Module Zoned.
Import JSNumber.

Section Stats.
Variable zone : Zone.t.
Variable events : list StudyEvent.
Variable now : Z.

Definition dateOf (e : StudyEvent) : JSDate.DateString :=
  Zone.localDay zone (timestamp e).

Definition dates : list JSDate.DateString := map dateOf events.

Definition uniqueDates : list JSDate.DateString :=
  JSArray.sort (fun a b => Zone.midnight zone a - Zone.midnight zone b)
               (JSArray.fromSet Z.eqb dates).

Definition diffDays (prev curr : JSDate.DateString) : Q :=
  div (ofZ (Zone.midnight zone curr - Zone.midnight zone prev)) (ofZ (1000 * 3600 * 24)).

Definition longestStep (st : Z * Z) (i : nat) : Z * Z :=
  let '(tempStreak, longestStreak) := st in
  let tempStreak :=
    match i with
    | O => 1
    | S j =>
        if Qle_bool (diffDays (nth j uniqueDates 0) (nth i uniqueDates 0)) (3 # 2)
        then tempStreak + 1 else 1
    end in
  (tempStreak, if longestStreak <? tempStreak then tempStreak else longestStreak).

Definition longestStreak : Z :=
  snd (fold_left longestStep (seq 0 (List.length uniqueDates)) (0, 0)).

Fixpoint currentLoop (i : nat) (currentStreak : Z) : Z :=
  match i with
  | O => currentStreak
  | S j =>
      if Qle_bool (diffDays (nth j uniqueDates 0) (nth i uniqueDates 0)) (3 # 2)
      then currentLoop j (currentStreak + 1)
      else currentStreak
  end.

Definition currentStreak : Z :=
  match uniqueDates with
  | [] => 0
  | _ :: _ =>
      let today := Zone.localDay zone now in
      let yesterday := Zone.localDay zone (now - 86400000) in
      let lastActive := nth (List.length uniqueDates - 1) uniqueDates 0 in
      if (lastActive =? today) || (lastActive =? yesterday)
      then currentLoop (List.length uniqueDates - 1) 1
      else 0
  end.

(** [d.setDate(d.getDate() - i)] moves the calendar date, so the entry [i]
    is the local day [i] days before today. *)
Definition lastSevenDays : list DayEntry :=
  map (fun i =>
         let dateStr := Zone.localDay zone now - i in
         let dayLabel := JSDate.weekdayNarrow dateStr in
         let studied := existsb (fun e => dateOf e =? dateStr) events in
         {| day := dayLabel; date := dateStr; studied := studied |})
      [6; 5; 4; 3; 2; 1; 0].
End Stats.

End Zoned.

Module ZoneNotions.
(** The count of [Spec.currentRun], with the day that the code takes for
    yesterday as an argument. *)
Definition currentRunAt (today yesterday : Z) (days : list Z) : Z :=
  match rev days with
  | [] => 0
  | lastActive :: earlier =>
      if (lastActive =? today) || (lastActive =? yesterday)
      then Spec.walkBack lastActive earlier else 0
  end.

(** A day with at least one event, in the zone [zone]. *)
Definition activeIn (zone : Zone.t) (events : list StudyEvent) (d : JSDate.DateString) : Prop :=
  exists e, In e events /\ Zoned.dateOf zone e = d.


(** A log with one event on Sunday 2026-03-08 at noon, and one with an event
    on the Saturday before; half past midnight on the Monday after. *)
Definition sunday : list StudyEvent :=
  [Sample.event chat (Zone.changeDay * JSDate.msPerDay + 16 * Zone.hour) 0 []].
Definition saturday : list StudyEvent :=
  [Sample.event chat ((Zone.changeDay - 1) * JSDate.msPerDay + 17 * Zone.hour) 0 []].
Definition monday0030 : Z := (Zone.changeDay + 1) * JSDate.msPerDay + 4 * Zone.hour + Zone.hour / 2.
End ZoneNotions.

(* ------------------------------------------------------------------------ *)
(** ** The score sums on arbitrary numbers *)

(** [marks] and [exam_score] are JavaScript numbers read from parsed JSON:
    nothing makes them integers.  The definitions above read them as
    integers; here are the same loops for arbitrary binary64 values, the
    number [q.marks] being [value q] and the number [e.exam_score || 0] being
    [score e]. *)
Module Numbers.
Import JSNumber.

(** A number that is an integer, and the exact sum of a list of numbers. *)
Definition isInteger (x : Q) : Prop := (x == inject_Z (Qfloor x))%Q.

Definition exactSum (l : list Q) : Q := fold_right Qplus 0%Q l.

Definition getCurrentScore (value : ExamMode.ExamItem -> Q)
           (examData : list ExamMode.ExamItem) (userAnswers : ExamMode.Answers)
           (submittedQuestions : ExamMode.Submitted) (isFinished : bool) : Q :=
  fold_left (fun score q =>
               if (ExamMode.isTrue (submittedQuestions (ExamMode.id q)) || isFinished)
                  && ExamMode.isCorrect userAnswers q
               then add score (value q) else score)
            examData 0%Q.

Definition finalScore (value : ExamMode.ExamItem -> Q)
           (examData : list ExamMode.ExamItem) (userAnswers : ExamMode.Answers) : Q :=
  fold_left (fun score q => if ExamMode.correctAtFinish userAnswers q
                            then add score (value q) else score)
            examData 0%Q.

(** [examTotalScore] and [examBestScore] of [getUserStats]. *)
Definition examScoreStep (score : StudyEvent -> Q) (a : Q * Q) (e : StudyEvent) : Q * Q :=
  let '(examTotalScore, examBestScore) := a in
  (add examTotalScore (score e),
   if Qle_bool (score e) examBestScore then examBestScore else score e).

Definition examScores (score : StudyEvent -> Q) (events : list StudyEvent) : Q * Q :=
  fold_left (examScoreStep score) (Storage.examCompletions events) (0%Q, 0%Q).

Definition examBestScore (score : StudyEvent -> Q) (events : list StudyEvent) : Q :=
  snd (examScores score events).

Definition examAverageScore (score : StudyEvent -> Q) (events : list StudyEvent) : Q :=
  if 0 <? Storage.totalExamsTaken events
  then toFixed1 (div (fst (examScores score events)) (ofZ (Storage.totalExamsTaken events)))
  else 0%Q.

(** Marks of 0.1 for the question 2, 0.2 for the question 1 and 0.3 for the
    others, and a score of 1.25. *)
Definition tenths (q : ExamMode.ExamItem) : Q :=
  div (ofZ (if ExamMode.id q =? 2 then 1 else if ExamMode.id q =? 1 then 2 else 3)) (ofZ 10).

Definition fiveQuarters (e : StudyEvent) : Q := div (ofZ 5) (ofZ 4).

End Numbers.

(* ======================================================================== *)
(** * Properties *)

(** ** Binary64 rounding *)

Module JSNumberFacts.
Import JSNumber.
Local Open Scope Q_scope.

Lemma pow2_pos e : 0 < pow2 e.
Proof. apply Qpower_0_lt. reflexivity. Qed.

Lemma pow2_add a b : pow2 (a + b) == pow2 a * pow2 b.
Proof. apply Qpower_plus. discriminate. Qed.

Lemma pow2_succ e : pow2 (e + 1) == 2 * pow2 e.
Proof. rewrite pow2_add. unfold pow2 at 2. simpl. lra. Qed.

Lemma pow2_le a b : (a <= b)%Z -> pow2 a <= pow2 b.
Proof. intros. apply Qpower_le_compat_l; [assumption | discriminate]. Qed.

Lemma pow2_lt a b : (a < b)%Z -> pow2 a < pow2 b.
Proof. intros. apply Qpower_lt_compat_l; [assumption | reflexivity]. Qed.

Lemma pow2_Z e : (0 <= e)%Z -> pow2 e == inject_Z (2 ^ e).
Proof. intros. unfold pow2. rewrite Zpower_Qpower by assumption. reflexivity. Qed.

Lemma Zlog2_Q n : (0 < n)%Z ->
  pow2 (Z.log2 n) <= inject_Z n /\ inject_Z n < pow2 (Z.log2 n + 1).
Proof.
  intros Hn. destruct (Z.log2_spec n Hn) as [H1 H2].
  pose proof (Z.log2_nonneg n) as H0.
  rewrite !pow2_Z by lia. rewrite <- Zle_Qle, <- Zlt_Qlt.
  split; [exact H1 | ]. replace (Z.log2 n + 1)%Z with (Z.succ (Z.log2 n)) by lia. exact H2.
Qed.

Lemma Q_as_frac x : x * inject_Z (Zpos (Qden x)) == inject_Z (Qnum x).
Proof.
  destruct x as [n d]. unfold Qeq, Qmult, inject_Z. simpl. lia.
Qed.

Lemma ilog2_rough x : 0 < x ->
  let e0 := (Z.log2 (Qnum x) - Z.log2 (Zpos (Qden x)))%Z in
  pow2 (e0 - 1) < x /\ x < pow2 (e0 + 1).
Proof.
  intros Hx e0.
  assert (Hn : (0 < Qnum x)%Z) by (destruct x as [n d]; unfold Qlt in Hx; simpl in *; lia).
  destruct (Zlog2_Q _ Hn) as [Ha1 Ha2].
  destruct (Zlog2_Q (Zpos (Qden x)) eq_refl) as [Hb1 Hb2].
  pose proof (Q_as_frac x) as Hf.
  set (a := Z.log2 (Qnum x)) in *. set (b := Z.log2 (Zpos (Qden x))) in *.
  set (N := inject_Z (Qnum x)) in *. set (D := inject_Z (Zpos (Qden x))) in *.
  pose proof (pow2_pos a) as Pa. pose proof (pow2_pos b) as Pb.
  pose proof (pow2_pos (e0 - 1)) as P1. pose proof (pow2_pos (e0 + 1)) as P2.
  assert (E1 : pow2 (e0 - 1) * (2 * pow2 b) == pow2 a).
  { rewrite <- pow2_succ, <- pow2_add. subst e0. replace (a - b - 1 + (b + 1))%Z with a by lia. reflexivity. }
  assert (E2 : pow2 (e0 + 1) * pow2 b == 2 * pow2 a).
  { rewrite <- pow2_succ, <- pow2_add. subst e0. replace (a - b + 1 + b)%Z with (a + 1)%Z by lia. reflexivity. }
  rewrite pow2_succ in Ha2, Hb2.
  split.
  - (* pow2 (e0-1) * D < pow2 (e0 - 1) * 2 pow2 b = pow2 a <= N = x * D *)
    assert (pow2 (e0 - 1) * D < x * D) by nra.
    nra.
  - assert (x * D < pow2 (e0 + 1) * D) by nra.
    nra.
Qed.

Lemma ilog2_spec x : 0 < x -> pow2 (ilog2 x) <= x /\ x < pow2 (ilog2 x + 1).
Proof.
  intros Hx. destruct (ilog2_rough x Hx) as [H1 H2]. unfold ilog2.
  set (e0 := (Z.log2 (Qnum x) - Z.log2 (Zpos (Qden x)))%Z) in *.
  destruct (Qle_bool (pow2 e0) x) eqn:E.
  - apply Qle_bool_iff in E. split; assumption.
  - assert (~ pow2 e0 <= x) by (intro C; apply Qle_bool_iff in C; congruence).
    replace (e0 - 1 + 1)%Z with e0 by lia. split; lra.
Qed.

Lemma binade_unique x e1 e2 :
  pow2 e1 <= x -> x < pow2 (e1 + 1) -> pow2 e2 <= x -> x < pow2 (e2 + 1) -> e1 = e2.
Proof.
  intros A1 A2 B1 B2.
  destruct (Z.lt_trichotomy e1 e2) as [L | [E | L]]; [ | assumption | ].
  - assert (pow2 (e1 + 1) <= pow2 e2) by (apply pow2_le; lia). lra.
  - assert (pow2 (e2 + 1) <= pow2 e1) by (apply pow2_le; lia). lra.
Qed.

Lemma ilog2_unique x e : pow2 e <= x -> x < pow2 (e + 1) -> ilog2 x = e.
Proof.
  intros H1 H2. assert (0 < x) by (pose proof (pow2_pos e); lra).
  destruct (ilog2_spec x H). eapply binade_unique; eassumption.
Qed.

Lemma ilog2_mono x y : 0 < x -> x <= y -> (ilog2 x <= ilog2 y)%Z.
Proof.
  intros Hx Hxy. destruct (ilog2_spec x Hx) as [A1 A2].
  destruct (ilog2_spec y) as [B1 B2]; [lra|].
  destruct (Z_le_gt_dec (ilog2 x) (ilog2 y)); [assumption|].
  assert (pow2 (ilog2 y + 1) <= pow2 (ilog2 x)) by (apply pow2_le; lia). lra.
Qed.


Lemma Qfloor_bounds x : inject_Z (Qfloor x) <= x /\ x < inject_Z (Qfloor x) + 1.
Proof.
  split; [apply Qfloor_le|]. pose proof (Qlt_floor x) as H.
  rewrite inject_Z_plus in H. change (inject_Z 1) with 1 in H. exact H.
Qed.

Lemma Qfloor_unique x k : inject_Z k <= x -> x < inject_Z k + 1 -> Qfloor x = k.
Proof.
  intros H1 H2. destruct (Qfloor_bounds x) as [F1 F2].
  assert (A : inject_Z k < inject_Z (Qfloor x + 1)) by (rewrite inject_Z_plus; change (inject_Z 1) with 1; lra).
  assert (B : inject_Z (Qfloor x) < inject_Z (k + 1)) by (rewrite inject_Z_plus; change (inject_Z 1) with 1; lra).
  rewrite <- Zlt_Qlt in A, B. lia.
Qed.

Lemma rne_range x : (Qfloor x <= rne x <= Qfloor x + 1)%Z.
Proof.
  unfold rne. destruct (Qcompare _ _); [destruct (Z.even _)| |]; lia.
Qed.

Lemma rne_Z k : rne (inject_Z k) = k.
Proof.
  unfold rne. rewrite Qfloor_Z.
  destruct (Qcompare_spec (inject_Z k - inject_Z k) (1 # 2)); [lra | reflexivity | lra].
Qed.

#[global] Instance rne_proper : Proper (Qeq ==> eq) rne.
Proof.
  intros x y E. unfold rne.
  rewrite (Qfloor_comp x y E).
  rewrite (Qcompare_comp (x - inject_Z (Qfloor y)) (y - inject_Z (Qfloor y))
             ltac:(rewrite E; reflexivity) (1 # 2) (1 # 2) ltac:(reflexivity)).
  reflexivity.
Qed.

Lemma rne_mono x y : x <= y -> (rne x <= rne y)%Z.
Proof.
  intros Hxy. pose proof (Qfloor_resp_le _ _ Hxy) as Hf.
  pose proof (rne_range x) as Rx. pose proof (rne_range y) as Ry.
  destruct (Z.eq_dec (Qfloor x) (Qfloor y)) as [E | NE]; [ | lia].
  unfold rne in *. rewrite <- E in *.
  destruct (Qcompare_spec (x - inject_Z (Qfloor x)) (1 # 2));
  destruct (Qcompare_spec (y - inject_Z (Qfloor x)) (1 # 2));
  try (destruct (Z.even (Qfloor x))); try lia; lra.
Qed.


Lemma rne_near x : x - (1 # 2) <= inject_Z (rne x) /\ inject_Z (rne x) <= x + (1 # 2).
Proof.
  destruct (Qfloor_bounds x) as [F1 F2]. unfold rne.
  destruct (Qcompare_spec (x - inject_Z (Qfloor x)) (1 # 2));
  try destruct (Z.even (Qfloor x)); try (rewrite inject_Z_plus; change (inject_Z 1) with 1);
  split; lra.
Qed.

Lemma pow2_split e k : (0 <= k)%Z -> pow2 e == inject_Z (2 ^ k) * pow2 (e - k).
Proof.
  intros Hk. rewrite <- pow2_Z by assumption. rewrite <- pow2_add.
  replace (k + (e - k))%Z with e by lia. reflexivity.
Qed.

(** scaled significand of a positive number lies in [2^52, 2^53) *)
Lemma scaled_range x : 0 < x ->
  let u := pow2 (ilog2 x - 52) in
  inject_Z (2 ^ 52) <= x / u /\ x / u < inject_Z (2 ^ 53).
Proof.
  intros Hx u. destruct (ilog2_spec x Hx) as [H1 H2].
  pose proof (pow2_pos (ilog2 x - 52)) as Pu. fold u in Pu.
  assert (E1 : pow2 (ilog2 x) == inject_Z (2 ^ 52) * u) by (apply pow2_split; lia).
  assert (E2 : pow2 (ilog2 x + 1) == inject_Z (2 ^ 53) * u).
  { unfold u. replace (ilog2 x - 52)%Z with (ilog2 x + 1 - 53)%Z by lia. apply pow2_split; lia. }
  split.
  - apply Qle_shift_div_l; [exact Pu | lra].
  - apply Qlt_shift_div_r; [exact Pu | lra].
Qed.

Lemma fl_pos_bounds x : 0 < x ->
  pow2 (ilog2 x) <= fl_pos x /\ fl_pos x <= pow2 (ilog2 x + 1).
Proof.
  intros Hx. destruct (scaled_range x Hx) as [S1 S2]. unfold fl_pos.
  set (u := pow2 (ilog2 x - 52)) in *.
  pose proof (pow2_pos (ilog2 x - 52)) as Pu. fold u in Pu.
  assert (E1 : pow2 (ilog2 x) == inject_Z (2 ^ 52) * u) by (apply pow2_split; lia).
  assert (E2 : pow2 (ilog2 x + 1) == inject_Z (2 ^ 53) * u).
  { unfold u. replace (ilog2 x - 52)%Z with (ilog2 x + 1 - 53)%Z by lia. apply pow2_split; lia. }
  pose proof (rne_mono _ _ S1) as R1. rewrite rne_Z in R1.
  pose proof (rne_mono _ _ (Qlt_le_weak _ _ S2)) as R2. rewrite rne_Z in R2.
  rewrite Zle_Qle in R1, R2.
  rewrite E1, E2. split; apply Qmult_le_compat_r; lra.
Qed.

Lemma fl_pos_mono x y : 0 < x -> x <= y -> fl_pos x <= fl_pos y.
Proof.
  intros Hx Hxy. assert (Hy : 0 < y) by lra.
  pose proof (ilog2_mono x y Hx Hxy) as Hm.
  destruct (Z.eq_dec (ilog2 x) (ilog2 y)) as [E | NE].
  - unfold fl_pos. rewrite E.
    pose proof (pow2_pos (ilog2 y - 52)) as Pu.
    apply Qmult_le_compat_r; [ | lra ].
    rewrite <- Zle_Qle. apply rne_mono.
    apply Qmult_le_compat_r; [ assumption | ].
    apply Qlt_le_weak, Qinv_lt_0_compat, Pu.
  - destruct (fl_pos_bounds x Hx) as [_ Ux]. destruct (fl_pos_bounds y Hy) as [Ly _].
    assert (pow2 (ilog2 x + 1) <= pow2 (ilog2 y)) by (apply pow2_le; lia). lra.
Qed.

Lemma fl_pos_pos x : 0 < x -> 0 < fl_pos x.
Proof.
  intros Hx. destruct (fl_pos_bounds x Hx) as [L _].
  pose proof (pow2_pos (ilog2 x)). lra.
Qed.

Lemma fl_pos_proper x y : 0 < x -> x == y -> fl_pos x == fl_pos y.
Proof.
  intros Hx E. unfold fl_pos.
  assert (Ei : ilog2 x = ilog2 y).
  { destruct (ilog2_spec x Hx). symmetry. apply ilog2_unique; rewrite <- E; assumption. }
  rewrite Ei. rewrite (rne_proper (x / pow2 (ilog2 y - 52)) (y / pow2 (ilog2 y - 52))); [reflexivity|].
  rewrite E. reflexivity.
Qed.

#[global] Instance fl_proper : Proper (Qeq ==> Qeq) fl.
Proof.
  intros x y E. unfold fl.
  rewrite (Qcompare_comp x y E 0 0 ltac:(reflexivity)).
  destruct (Qcompare_spec y 0) as [H | H | H]; [reflexivity | | ].
  - apply Qopp_comp. apply fl_pos_proper; [ lra | rewrite E; reflexivity ].
  - apply fl_pos_proper; [lra | assumption].
Qed.

Lemma fl_0 : fl 0 == 0.
Proof. reflexivity. Qed.

Lemma fl_sign_pos x : 0 < x -> 0 < fl x.
Proof.
  intros Hx. unfold fl. destruct (Qcompare_spec x 0); [lra | lra | apply fl_pos_pos; assumption].
Qed.

Lemma fl_sign_neg x : x < 0 -> fl x < 0.
Proof.
  intros Hx. unfold fl. destruct (Qcompare_spec x 0); [lra | | lra].
  assert (0 < fl_pos (- x)) by (apply fl_pos_pos; lra). lra.
Qed.

Lemma fl_mono x y : x <= y -> fl x <= fl y.
Proof.
  intros Hxy.
  destruct (Qcompare_spec x 0) as [Hx | Hx | Hx]; destruct (Qcompare_spec y 0) as [Hy | Hy | Hy]; try lra.
  - rewrite Hx, Hy. lra.
  - rewrite Hx, fl_0. apply Qlt_le_weak, fl_sign_pos; assumption.
  - rewrite Hy, fl_0. apply Qlt_le_weak, fl_sign_neg; assumption.
  - unfold fl. destruct (Qcompare_spec x 0); try lra. destruct (Qcompare_spec y 0); try lra.
    assert (fl_pos (- y) <= fl_pos (- x)) by (apply fl_pos_mono; lra). lra.
  - pose proof (fl_sign_neg x Hx). pose proof (fl_sign_pos y Hy). lra.
  - unfold fl. destruct (Qcompare_spec x 0); try lra. destruct (Qcompare_spec y 0); try lra.
    apply fl_pos_mono; assumption.
Qed.

Lemma pow2_lt_inv a b : pow2 a < pow2 b -> (a < b)%Z.
Proof.
  intros H. destruct (Z_lt_ge_dec a b); [assumption|].
  assert (pow2 b <= pow2 a) by (apply pow2_le; lia). lra.
Qed.

(** Numbers with a significand of at most 53 bits are fixed by the rounding. *)
Lemma fl_pos_exact m j : (0 < m <= 2 ^ 53)%Z ->
  fl_pos (inject_Z m * pow2 j) == inject_Z m * pow2 j.
Proof.
  intros Hm. set (x := inject_Z m * pow2 j).
  pose proof (pow2_pos j) as Pj.
  assert (Hm1 : 1 <= inject_Z m) by (change 1 with (inject_Z 1); rewrite <- Zle_Qle; lia).
  assert (Hm2 : inject_Z m <= inject_Z (2 ^ 53)) by (rewrite <- Zle_Qle; lia).
  assert (Hx : 0 < x) by (unfold x; nra).
  destruct (Z.eq_dec m (2 ^ 53)) as [Em | Nm].
  - (* a power of two *)
    assert (Ex : x == pow2 (53 + j)).
    { unfold x. rewrite Em. rewrite pow2_add, (pow2_Z 53) by lia. reflexivity. }
    assert (Ei : ilog2 x = (53 + j)%Z).
    { apply ilog2_unique; rewrite Ex; [lra | apply pow2_lt; lia]. }
    unfold fl_pos. rewrite Ei.
    assert (Es : x / pow2 (53 + j - 52) == inject_Z (2 ^ 52)).
    { rewrite Ex. rewrite (pow2_split (53 + j) 52) by lia.
      pose proof (pow2_pos (53 + j - 52)). field. lra. }
    rewrite (rne_proper _ _ Es), rne_Z. rewrite Ex.
    symmetry. apply pow2_split. lia.
  - destruct (ilog2_spec x Hx) as [L U].
    assert (Hlt : pow2 (ilog2 x) < pow2 (53 + j)).
    { rewrite pow2_add, (pow2_Z 53) by lia.
      assert (inject_Z m < inject_Z (2 ^ 53)) by (rewrite <- Zlt_Qlt; lia).
      eapply Qle_lt_trans; [exact L|]. unfold x.
      apply Qmult_lt_compat_r; assumption. }
    apply pow2_lt_inv in Hlt.
    unfold fl_pos. set (e := ilog2 x) in *.
    set (k := (52 + j - e)%Z). assert (Hk : (0 <= k)%Z) by lia.
    assert (Ex : x == inject_Z (m * 2 ^ k) * pow2 (e - 52)).
    { unfold x. rewrite (pow2_split j k Hk).
      replace (j - k)%Z with (e - 52)%Z by lia.
      rewrite inject_Z_mult. ring. }
    assert (Es : x / pow2 (e - 52) == inject_Z (m * 2 ^ k)).
    { rewrite Ex. pose proof (pow2_pos (e - 52)). field. lra. }
    rewrite (rne_proper _ _ Es), rne_Z. symmetry. exact Ex.
Qed.

Lemma fl_exact m j : (Z.abs m <= 2 ^ 53)%Z ->
  fl (inject_Z m * pow2 j) == inject_Z m * pow2 j.
Proof.
  intros Hm. pose proof (pow2_pos j) as Pj.
  destruct (Z.lt_trichotomy m 0) as [N | [Z0 | P]].
  - assert (inject_Z m < 0) by (change 0 with (inject_Z 0); rewrite <- Zlt_Qlt; lia).
    unfold fl. destruct (Qcompare_spec (inject_Z m * pow2 j) 0); try nra.
    assert (E : - (inject_Z m * pow2 j) == inject_Z (- m) * pow2 j) by (rewrite inject_Z_opp; ring).
    assert (Hp : 0 < - (inject_Z m * pow2 j)) by nra.
    rewrite (fl_pos_proper _ _ Hp E), fl_pos_exact by lia.
    rewrite inject_Z_opp. ring.
  - subst m. assert (E : inject_Z 0 * pow2 j == 0) by ring. rewrite E. reflexivity.
  - assert (0 < inject_Z m) by (change 0 with (inject_Z 0); rewrite <- Zlt_Qlt; lia).
    unfold fl. destruct (Qcompare_spec (inject_Z m * pow2 j) 0); try nra.
    apply fl_pos_exact. lia.
Qed.

Lemma fl_Z m : (Z.abs m <= 2 ^ 53)%Z -> fl (inject_Z m) == inject_Z m.
Proof.
  intros Hm. assert (E : inject_Z m == inject_Z m * pow2 0) by (unfold pow2; simpl; ring).
  rewrite E at 1. rewrite fl_exact by assumption. symmetry. exact E.
Qed.

End JSNumberFacts.


(** ** Time estimate *)

Module DurationFacts.
Import JSNumber JSNumberFacts Storage.

Lemma Qceiling_unique (y : Q) (k : Z) :
  (inject_Z k - 1 < y)%Q -> (y <= inject_Z k)%Q -> Qceiling y = k.
Proof.
  intros H1 H2. unfold Qceiling.
  rewrite (Qfloor_unique (- y) (- k)); [lia | |]; rewrite inject_Z_opp; lra.
Qed.

Lemma inject_Z_sub a b : (inject_Z (a - b) == inject_Z a - inject_Z b)%Q.
Proof. unfold Z.sub. rewrite inject_Z_plus, inject_Z_opp. reflexivity. Qed.

Lemma inject_Z_lt_inv a b : (inject_Z a < inject_Z b)%Q -> a < b.
Proof. intros H. rewrite <- Zlt_Qlt in H. exact H. Qed.

Lemma inject_Z_le_inv a b : (inject_Z a <= inject_Z b)%Q -> a <= b.
Proof. intros H. rewrite <- Zle_Qle in H. exact H. Qed.

(** The rounded quotient [n / 500] has the ceiling of the exact quotient. *)
Lemma ceil_div_500 (n : Z) : 0 < n <= 2 ^ 52 ->
  Math_ceil (div (ofZ n) (ofZ 500)) = Qceiling (inject_Z n / inject_Z 500).
Proof.
  intros Hn. unfold Math_ceil, div, ofZ.
  set (x := (inject_Z n / inject_Z 500)%Q).
  set (k := Qceiling x).
  assert (Hx : (x * 500 == inject_Z n)%Q) by (unfold x; change (inject_Z 500) with 500%Q; field).
  pose proof (Qle_ceiling x) as Hu. pose proof (Qceiling_lt x) as Hl. fold k in Hu, Hl.
  rewrite inject_Z_sub in Hl. change (inject_Z 1) with 1%Q in Hl.
  assert (P52 : 2 ^ 52 = 4503599627370496) by reflexivity.
  assert (P53 : 2 ^ 53 = 9007199254740992) by reflexivity.
  assert (Hk1 : 500 * (k - 1) < n).
  { apply inject_Z_lt_inv. rewrite inject_Z_mult, inject_Z_sub.
    change (inject_Z 500) with 500%Q. change (inject_Z 1) with 1%Q. lra. }
  assert (Hk2 : n <= 500 * k).
  { apply inject_Z_le_inv. rewrite inject_Z_mult. change (inject_Z 500) with 500%Q. lra. }
  assert (Hk : 1 <= k) by lia.
  apply Qceiling_unique.
  - (* a binary64 value strictly above k - 1 lies below x *)
    set (y := (inject_Z ((k - 1) * 512 + 1) * pow2 (-9))%Q).
    assert (Ey : (y == inject_Z k - 1 + (1 # 512))%Q).
    { unfold y, pow2. rewrite inject_Z_plus, inject_Z_mult, inject_Z_sub.
      change (inject_Z 512) with 512%Q. change (inject_Z 1) with 1%Q.
      change (2 ^ (-9))%Q with (1 # 512)%Q. field. }
    assert (Hy : (fl y == y)%Q) by (apply fl_exact; lia).
    assert (Hyx : (y <= x)%Q).
    { rewrite Ey.
      assert (inject_Z (500 * (k - 1) + 1) <= inject_Z n)%Q by (rewrite <- Zle_Qle; lia).
      rewrite inject_Z_plus, inject_Z_mult, inject_Z_sub in H.
      change (inject_Z 500) with 500%Q in H. change (inject_Z 1) with 1%Q in H. lra. }
    apply fl_mono in Hyx. rewrite Hy, Ey in Hyx. lra.
  - apply fl_mono in Hu. rewrite fl_Z in Hu by lia. exact Hu.
Qed.

Lemma ceil_mul_3_2 (m : Z) : Z.abs m <= 2 ^ 51 ->
  Math_ceil (mul (ofZ m) (3 # 2)) = Qceiling (inject_Z m * (3 # 2)).
Proof.
  intros Hm. unfold Math_ceil, mul, ofZ.
  apply Qceiling_comp.
  assert (E : (inject_Z m * (3 # 2) == inject_Z (3 * m) * pow2 (-1))%Q).
  { rewrite inject_Z_mult. change (inject_Z 3) with 3%Q. unfold pow2.
    change (2 ^ (-1))%Q with (1 # 2)%Q. field. }
  rewrite E. apply fl_exact.
  assert (2 ^ 51 = 2251799813685248) by reflexivity.
  assert (2 ^ 53 = 9007199254740992) by reflexivity. lia.
Qed.

Lemma other_branch (e : StudyEvent) : text_length e <= 2 ^ 52 ->
  (let duration := 1 in
   let duration :=
     if 0 <? text_length e
     then duration + Math_ceil (div (ofZ (text_length e)) (ofZ 500))
     else duration in
   let duration :=
     if ActivityType_eqb (action_type e) quiz then duration + 2 else duration in
   duration) = Spec.otherContribution e.
Proof.
  intros Ht. cbv zeta. unfold Spec.otherContribution.
  destruct (0 <? text_length e) eqn:E.
  - apply Z.ltb_lt in E. rewrite ceil_div_500 by lia.
    destruct (ActivityType_eqb (action_type e) quiz); lia.
  - destruct (ActivityType_eqb (action_type e) quiz); lia.
Qed.

Lemma calculateEventDuration_spec (e : StudyEvent) :
  Spec.inRange e -> calculateEventDuration e = Spec.contribution e.
Proof.
  intros [Ht Hm]. pose proof (other_branch e Ht) as Ho.
  unfold calculateEventDuration, Spec.contribution, truthy, valueOf in *.
  destruct (action_type e); cbn [ActivityType_eqb andb] in *; try exact Ho.
  - (* quiz_complete *)
    destruct (quiz_total_questions e) as [n | ].
    + destruct (n =? 0); cbn [negb]; [ | reflexivity ].
      destruct (exam_total_marks e); exact Ho.
    + destruct (exam_total_marks e); exact Ho.
  - (* exam_complete *)
    destruct (exam_total_marks e) as [m | ].
    + destruct (m =? 0); cbn [negb].
      * destruct (quiz_total_questions e); exact Ho.
      * rewrite ceil_mul_3_2 by exact Hm. destruct (quiz_total_questions e); reflexivity.
    + destruct (quiz_total_questions e); exact Ho.
Qed.

Lemma studyTime_total tz now (events : list StudyEvent) (acc : StudyTime) :
  st_total (fold_left (studyTimeStep tz now) events acc)
  = st_total acc + Spec.sum (map calculateEventDuration events).
Proof.
  revert acc. induction events as [ | e events IH]; intros acc; simpl.
  - lia.
  - rewrite IH. simpl. lia.
Qed.

End DurationFacts.

(** ** Accuracy *)

Module AccuracyFacts.
Import JSNumber JSNumberFacts DurationFacts Storage Derived.

Lemma orElse_0 x : orElse x 0 = Spec.field0 x.
Proof. destruct x as [v | ]; simpl; [ | reflexivity]. destruct (v =? 0) eqn:E; [ apply Z.eqb_eq in E; lia | reflexivity ]. Qed.

Lemma quizTotals_fold (l : list StudyEvent) (a b : Z) :
  fold_left (fun '(totalQuizQuestions, totalQuizCorrect) q =>
               (totalQuizQuestions + orElse (quiz_total_questions q) 0,
                totalQuizCorrect + orElse (quiz_correct_answers q) 0)) l (a, b)
  = (a + Spec.sum (map (fun e => Spec.field0 (quiz_total_questions e)) l),
     b + Spec.sum (map (fun e => Spec.field0 (quiz_correct_answers e)) l)).
Proof.
  revert a b. induction l as [ | e l IH]; intros a b; simpl.
  - f_equal; lia.
  - rewrite IH, !orElse_0. f_equal; lia.
Qed.

Lemma totalQuizQuestions_spec events : totalQuizQuestions events = Spec.S_total events.
Proof. unfold totalQuizQuestions, quizTotals. rewrite quizTotals_fold. reflexivity. Qed.

Lemma totalQuizCorrect_spec events : totalQuizCorrect events = Spec.S_correct events.
Proof. unfold totalQuizCorrect, quizTotals. rewrite quizTotals_fold. reflexivity. Qed.

(** relative error of the rounding *)
Lemma fl_error (x : Q) : (0 <= x)%Q ->
  (x - x * pow2 (-53) <= fl x /\ fl x <= x + x * pow2 (-53))%Q.
Proof.
  intros Hx. destruct (Qcompare_spec x 0) as [E | L | G]; [ | lra | ].
  - rewrite E. change (fl 0) with 0%Q. lra.
  - unfold fl. destruct (Qcompare_spec x 0); try lra.
    unfold fl_pos. destruct (ilog2_spec x G) as [Lo _].
    set (e := ilog2 x) in *. pose proof (pow2_pos (e - 52)) as Pu.
    destruct (rne_near (x / pow2 (e - 52))) as [N1 N2].
    set (m := inject_Z (rne (x / pow2 (e - 52)))) in *.
    assert (Eu : (pow2 e * pow2 (-53) == pow2 (e - 52) * (1 # 2))%Q).
    { rewrite <- pow2_add. replace (e + -53) with ((e - 52) + (-1)) by lia.
      rewrite pow2_add. reflexivity. }
    assert (Ex : (x / pow2 (e - 52) * pow2 (e - 52) == x)%Q) by (field; lra).
    pose proof (pow2_pos (-53)) as P53.
    assert (pow2 e * pow2 (-53) <= x * pow2 (-53))%Q by (apply Qmult_le_compat_r; lra).
    assert ((x / pow2 (e - 52) - (1 # 2)) * pow2 (e - 52) <= m * pow2 (e - 52))%Q
      by (apply Qmult_le_compat_r; lra).
    assert (m * pow2 (e - 52) <= (x / pow2 (e - 52) + (1 # 2)) * pow2 (e - 52))%Q
      by (apply Qmult_le_compat_r; lra).
    split; lra.
Qed.

Lemma eps_val : (pow2 (-53) == 1 # 9007199254740992)%Q.
Proof. reflexivity. Qed.

(** The binary64 evaluation of [(c / t) * 100] is within [1 / (2 t)] of the
    exact percentage. *)
Lemma percent_error (c t : Z) : 0 <= c <= 2 ^ 43 -> 0 < t ->
  let r := mul (div (ofZ c) (ofZ t)) (ofZ 100) in
  (-1 < 2 * inject_Z t * r - 200 * inject_Z c /\
   2 * inject_Z t * r - 200 * inject_Z c < 1)%Q.
Proof.
  intros Hc Ht r. unfold ofZ in r.
  set (C := inject_Z c) in *. set (T := inject_Z t) in *.
  assert (HT : (0 < T)%Q) by (unfold T; change 0%Q with (inject_Z 0); rewrite <- Zlt_Qlt; lia).
  assert (HC0 : (0 <= C)%Q) by (unfold C; change 0%Q with (inject_Z 0); rewrite <- Zle_Qle; lia).
  assert (HC1 : (C <= 8796093022208)%Q).
  { unfold C. change 8796093022208%Q with (inject_Z (2 ^ 43)). rewrite <- Zle_Qle. lia. }
  set (q := div C T) in *.
  assert (HX : (C / T * T == C)%Q) by (field; lra).
  assert (HX0 : (0 <= C / T)%Q) by (apply Qle_shift_div_l; lra).
  destruct (fl_error (C / T) HX0) as [Q1 Q2]. fold (div C T) in Q1, Q2. fold q in Q1, Q2.
  rewrite eps_val in Q1, Q2.
  assert (Hq0 : (0 <= q)%Q).
  { unfold q, div. change 0%Q with (fl 0). apply fl_mono. exact HX0. }
  assert (Hy0 : (0 <= q * inject_Z 100)%Q) by (change (inject_Z 100) with 100%Q; lra).
  destruct (fl_error _ Hy0) as [R1 R2]. fold (mul q (inject_Z 100)) in R1, R2. fold r in R1, R2.
  rewrite eps_val in R1, R2. change (inject_Z 100) with 100%Q in R1, R2.
  apply (Qmult_le_l _ _ T HT) in Q1, Q2, R1, R2.
  set (X := (C / T)%Q) in *.
  assert (HX' : (T * X == C)%Q) by (rewrite <- HX; ring).
  set (a := (T * q)%Q) in *. set (b := (T * r)%Q) in *.
  assert (A1 : (C - C * (1 # 9007199254740992) <= a)%Q).
  { eapply Qle_trans; [ | exact Q1 ]. rewrite <- HX'. apply Qle_lteq. right. ring. }
  assert (A2 : (a <= C + C * (1 # 9007199254740992))%Q).
  { eapply Qle_trans; [ exact Q2 | ]. rewrite <- HX'. apply Qle_lteq. right. ring. }
  assert (B1 : (a * 100 - a * 100 * (1 # 9007199254740992) <= b)%Q).
  { eapply Qle_trans; [ | exact R1 ]. unfold a. apply Qle_lteq. right. ring. }
  assert (B2 : (b <= a * 100 + a * 100 * (1 # 9007199254740992))%Q).
  { eapply Qle_trans; [ exact R2 | ]. unfold a. apply Qle_lteq. right. ring. }
  assert (Eb : (2 * T * r == 2 * b)%Q) by (unfold b; ring).
  rewrite Eb. split; lra.
Qed.

Lemma Qfloor_between (y : Q) (a b : Z) :
  (inject_Z a <= y)%Q -> (y < inject_Z b)%Q -> a <= Qfloor y < b.
Proof.
  intros H1 H2. destruct (Qfloor_bounds y) as [F1 F2].
  assert (A : (inject_Z a < inject_Z (Qfloor y + 1))%Q)
    by (rewrite inject_Z_plus; change (inject_Z 1) with 1%Q; lra).
  assert (B : (inject_Z (Qfloor y) < inject_Z b)%Q) by lra.
  apply inject_Z_lt_inv in A, B. lia.
Qed.

Lemma percent_round (c t : Z) : 0 <= c <= 2 ^ 43 -> 0 < t ->
  let r := mul (div (ofZ c) (ofZ t)) (ofZ 100) in
  let p := (100 * inject_Z c / inject_Z t)%Q in
  (~ Spec.halfway c t -> Math_round r = Spec.round p) /\
  (Spec.halfway c t -> Math_round r = Spec.round p \/ Math_round r = Spec.round p - 1).
Proof.
  intros Hc Ht r p. destruct (percent_error c t Hc Ht) as [E1 E2]. fold r in E1, E2.
  unfold Math_round, Spec.round, Spec.halfway.
  set (k := (200 * c + t) / (2 * t)). set (rho := (200 * c + t) mod (2 * t)).
  assert (Hdm : 200 * c + t = 2 * t * k + rho) by (apply Z.div_mod; lia).
  assert (Hrho : 0 <= rho < 2 * t) by (apply Z.mod_pos_bound; lia).
  set (C := inject_Z c) in *. set (T := inject_Z t) in *.
  assert (HT : (1 <= T)%Q) by (unfold T; change 1%Q with (inject_Z 1); rewrite <- Zle_Qle; lia).
  assert (HQ : (200 * C + T == 2 * T * inject_Z k + inject_Z rho)%Q).
  { unfold C, T. change 200%Q with (inject_Z 200). change 2%Q with (inject_Z 2).
    rewrite <- !inject_Z_mult, <- !inject_Z_plus. rewrite Hdm. reflexivity. }
  assert (Hr0 : (0 <= inject_Z rho)%Q) by (change 0%Q with (inject_Z 0); rewrite <- Zle_Qle; lia).
  assert (Hr1 : (inject_Z rho + 1 <= 2 * T)%Q).
  { unfold T. change 2%Q with (inject_Z 2). change 1%Q with (inject_Z 1).
    rewrite <- inject_Z_mult, <- inject_Z_plus, <- Zle_Qle. lia. }
  assert (Ep : (p + (1 # 2) == (200 * C + T) / (2 * T))%Q) by (unfold p; field; lra).
  assert (Er : (r + (1 # 2) == (2 * T * r + T) / (2 * T))%Q) by (field; lra).
  assert (Kp : Qfloor (p + (1 # 2)) = k).
  { apply Qfloor_unique; rewrite Ep.
    - apply Qle_shift_div_l; lra.
    - apply Qlt_shift_div_r; lra. }
  rewrite Kp. split.
  - intros Hnh. assert (Hr2 : (1 <= inject_Z rho)%Q).
    { change 1%Q with (inject_Z 1). rewrite <- Zle_Qle. fold rho in Hnh. lia. }
    apply Qfloor_unique; rewrite Er.
    + apply Qle_shift_div_l; lra.
    + apply Qlt_shift_div_r; lra.
  - intros Hh. fold rho in Hh. rewrite Hh in HQ. change (inject_Z 0) with 0%Q in HQ.
    assert (B : k - 1 <= Qfloor (r + (1 # 2)) < k + 1).
    { apply Qfloor_between; rewrite Er.
      - apply Qle_shift_div_l; [lra | ]. rewrite inject_Z_sub. change (inject_Z 1) with 1%Q. lra.
      - apply Qlt_shift_div_r; [lra | ]. rewrite inject_Z_plus. change (inject_Z 1) with 1%Q. lra. }
    lia.
Qed.

Lemma Math_round_bounds (x : Q) (a b : Z) :
  (inject_Z a <= x)%Q -> (x <= inject_Z b)%Q -> a <= Math_round x <= b.
Proof.
  intros H1 H2. unfold Math_round.
  assert (a <= Qfloor (x + (1 # 2)) < b + 1); [ | lia ].
  apply Qfloor_between; [ lra | rewrite inject_Z_plus; change (inject_Z 1) with 1%Q; lra ].
Qed.

Lemma fl_le_Z (x : Q) (k : Z) : Z.abs k <= 2 ^ 53 -> (x <= inject_Z k)%Q -> (fl x <= inject_Z k)%Q.
Proof. intros Hk H. apply fl_mono in H. rewrite fl_Z in H by exact Hk. exact H. Qed.

Lemma fl_ge_Z (x : Q) (k : Z) : Z.abs k <= 2 ^ 53 -> (inject_Z k <= x)%Q -> (inject_Z k <= fl x)%Q.
Proof. intros Hk H. apply fl_mono in H. rewrite fl_Z in H by exact Hk. exact H. Qed.

(** [(s / t) * 100] for [0 <= s <= t], [0 < t] lies in [0, 100]. *)
Lemma percent_bounds (s t : Z) : 0 <= s <= t -> 0 < t ->
  (0 <= mul (div (ofZ s) (ofZ t)) (ofZ 100) <= 100)%Q.
Proof.
  intros Hs Ht. unfold mul, div, ofZ.
  assert (HT : (0 < inject_Z t)%Q) by (change 0%Q with (inject_Z 0); rewrite <- Zlt_Qlt; lia).
  assert (HS : (0 <= inject_Z s)%Q) by (change 0%Q with (inject_Z 0); rewrite <- Zle_Qle; lia).
  assert (HST : (inject_Z s <= inject_Z t)%Q) by (rewrite <- Zle_Qle; lia).
  assert (Q0 : (0 <= fl (inject_Z s / inject_Z t))%Q).
  { apply (fl_ge_Z _ 0); [ simpl; lia | ]. change (inject_Z 0) with 0%Q. apply Qle_shift_div_l; lra. }
  assert (Q1 : (fl (inject_Z s / inject_Z t) <= 1)%Q).
  { apply (fl_le_Z _ 1); [ simpl; lia | ]. change (inject_Z 1) with 1%Q. apply Qle_shift_div_r; lra. }
  change (inject_Z 100) with 100%Q. split.
  - apply (fl_ge_Z _ 0); [ simpl; lia | ]. change (inject_Z 0) with 0%Q. lra.
  - apply (fl_le_Z _ 100); [ simpl; lia | ]. change (inject_Z 100) with 100%Q. lra.
Qed.

Lemma orElse_1_marks (e : StudyEvent) : Spec.nonNegative (exam_total_marks e) ->
  orElse (exam_total_marks e) 1 = Spec.marksOrOne e.
Proof.
  unfold Spec.marksOrOne, orElse, Spec.nonNegative. destruct (exam_total_marks e) as [m | ]; [ | reflexivity ].
  intros Hm. destruct (m =? 0) eqn:E; [ apply Z.eqb_eq in E | apply Z.eqb_neq in E ]; lia.
Qed.

Lemma orElse_nonzero (x : option Z) (d : Z) : d <> 0 -> orElse x d <> 0.
Proof.
  intros Hd. unfold orElse. destruct x as [v | ]; [ | exact Hd ].
  destruct (v =? 0) eqn:E; [ exact Hd | apply Z.eqb_neq in E; exact E ].
Qed.


Lemma examSum_bounds (l : list StudyEvent) (a : ExamAcc) (k : Z) :
  Forall examOk l -> 0 <= k ->
  100 * (k + Z.of_nat (List.length l)) <= 2 ^ 53 ->
  (0 <= examTotalAccuracySum a <= inject_Z (100 * k))%Q ->
  (0 <= examTotalAccuracySum (fold_left examStep l a)
   <= inject_Z (100 * (k + Z.of_nat (List.length l))))%Q.
Proof.
  intros Hl. revert a k. induction Hl as [ | e l He _ IH]; intros a k Hk Hlen Ha.
  - simpl. replace (k + 0) with k by lia. exact Ha.
  - cbn [fold_left List.length] in *.
    replace (k + Z.of_nat (S (List.length l))) with ((k + 1) + Z.of_nat (List.length l)) in * by lia.
    apply IH; [ lia | exact Hlen | ].
    unfold examStep; cbn [examTotalAccuracySum].
    assert (Ht : 0 < orElse (exam_total_marks e) 1).
    { pose proof (orElse_nonzero (exam_total_marks e) 1 ltac:(lia)). unfold examOk in He. lia. }
    destruct (percent_bounds _ _ He Ht) as [P0 P1].
    set (acc := mul (div (ofZ (orElse (exam_score e) 0)) (ofZ (orElse (exam_total_marks e) 1))) (ofZ 100)) in *.
    unfold add. split.
    + apply (fl_ge_Z _ 0); [ simpl; lia | ]. change (inject_Z 0) with 0%Q. lra.
    + apply fl_le_Z; [ lia | ].
      replace (100 * (k + 1)) with (100 * k + 100) by lia.
      rewrite inject_Z_plus. change (inject_Z 100) with 100%Q. lra.
Qed.

Lemma examAverageAccuracy_bounds (events : list StudyEvent) :
  Z.of_nat (List.length events) <= 2 ^ 32 ->
  Forall examOk (examCompletions events) ->
  0 <= examAverageAccuracy events <= 100.
Proof.
  intros Hlen Hok. unfold examAverageAccuracy, totalExamsTaken, examAcc, JSArray.length.
  set (l := examCompletions events) in *.
  assert (Hl : (List.length l <= List.length events)%nat) by apply filter_length_le.
  destruct (0 <? Z.of_nat (List.length l)) eqn:E; [ apply Z.ltb_lt in E | lia ].
  assert (P32 : 2 ^ 32 = 4294967296) by reflexivity.
  assert (P53 : 2 ^ 53 = 9007199254740992) by reflexivity.
  pose proof (examSum_bounds l {| examTotalScore := 0; examTotalAccuracySum := 0%Q; examBest := 0 |} 0
                Hok ltac:(lia) ltac:(lia)) as B.
  cbn [examTotalAccuracySum] in B. specialize (B ltac:(split; [apply Qle_refl | unfold Qle; simpl; lia])).
  destruct B as [B0 B1]. set (s := examTotalAccuracySum _) in *.
  set (n := Z.of_nat (List.length l)) in *.
  assert (Hn : (0 < inject_Z n)%Q) by (change 0%Q with (inject_Z 0); rewrite <- Zlt_Qlt; lia).
  replace (0 + n) with n in B1 by lia. rewrite inject_Z_mult in B1. change (inject_Z 100) with 100%Q in B1.
  apply Math_round_bounds; unfold div, ofZ.
  - apply fl_ge_Z; [ simpl; lia | ]. change (inject_Z 0) with 0%Q. apply Qle_shift_div_l; lra.
  - apply fl_le_Z; [ simpl; lia | ]. change (inject_Z 100) with 100%Q. apply Qle_shift_div_r; lra.
Qed.

Lemma quizAccuracy_bounds (events : list StudyEvent) :
  0 <= Spec.S_correct events <= Spec.S_total events -> 0 <= quizAccuracy events <= 100.
Proof.
  intros H. unfold quizAccuracy. rewrite totalQuizQuestions_spec, totalQuizCorrect_spec.
  destruct (0 <? Spec.S_total events) eqn:E; [ apply Z.ltb_lt in E | lia ].
  destruct (percent_bounds _ _ H E). apply Math_round_bounds; assumption.
Qed.

Lemma S_correct_nonneg (events : list StudyEvent) :
  Forall Spec.nonNegativeFields events -> 0 <= Spec.S_correct events.
Proof.
  intros Hnn. unfold Spec.S_correct.
  induction Hnn as [ | e l He _ IH]; simpl; [ lia | ].
  destruct (Spec.isQuizComplete e); simpl; [ | exact IH ].
  destruct He as (_ & Hc & _). unfold Spec.nonNegative, Spec.field0 in *.
  destruct (quiz_correct_answers e); lia.
Qed.

Lemma examOk_completions (events : list StudyEvent) :
  Forall Spec.nonNegativeFields events -> Forall Spec.scoreWithinMarks events ->
  Forall examOk (examCompletions events).
Proof.
  intros Hnn Hs. unfold examCompletions.
  induction Hnn as [ | e l He _ IH]; simpl; [ constructor | ].
  inversion Hs as [ | ? ? Hse Hl ]; subst.
  destruct (ActivityType_eqb (action_type e) exam_complete) eqn:Ee; [ | exact (IH Hl) ].
  constructor; [ | exact (IH Hl) ].
  destruct He as (_ & _ & Hsc & Hm). unfold examOk.
  rewrite (orElse_1_marks e Hm), orElse_0.
  specialize (Hse Ee). unfold Spec.nonNegative, Spec.field0 in *.
  destruct (exam_score e); lia.
Qed.

End AccuracyFacts.

(** ** Session counts and the seven-day calendar *)

Module CountFacts.
Import Storage.

Lemma length_filter_insert {A : Type} (f : A -> bool) (l1 l2 : list A) (x : A) :
  JSArray.length (filter f (l1 ++ x :: l2))
  = JSArray.length (filter f (l1 ++ l2)) + (if f x then 1 else 0).
Proof.
  unfold JSArray.length. rewrite !filter_app. cbn [filter].
  destruct (f x); rewrite !length_app; cbn [List.length]; lia.
Qed.

Lemma filter_filter {A : Type} (f g : A -> bool) (l : list A) :
  filter f (filter g l) = filter (fun x => g x && f x) l.
Proof.
  induction l as [ | x l IH]; simpl; [ reflexivity | ].
  destruct (g x); simpl; [ destruct (f x) | ]; rewrite IH; reflexivity.
Qed.

Lemma sessionsThisWeek_count (events : list StudyEvent) (now : Z) :
  sessionsThisWeek events now = Spec.tally (Spec.afterOneWeekAgo now) events.
Proof.
  unfold sessionsThisWeek, sessionCreates, Spec.tally, JSArray.length.
  rewrite filter_filter. reflexivity.
Qed.


Lemma count_insert {A : Type} (f : A -> bool) (l1 l2 : list A) (x : A) :
  Spec.tally f (l1 ++ x :: l2) = Spec.tally f (l1 ++ l2) + (if f x then 1 else 0).
Proof. apply length_filter_insert. Qed.

Lemma count_ext_in {A : Type} (f g : A -> bool) (l : list A) :
  (forall x, In x l -> f x = g x) -> Spec.tally f l = Spec.tally g l.
Proof.
  intros H. unfold Spec.tally. f_equal. f_equal. apply filter_ext_in. exact H.
Qed.

Lemma toDateString_minusDays (tz now i : Z) :
  JSDate.toDateString tz (JSDate.minusDays now i) = JSDate.toDateString tz now - i.
Proof.
  unfold JSDate.toDateString, JSDate.minusDays.
  replace (now - i * JSDate.msPerDay + tz) with (now + tz + (- i) * JSDate.msPerDay) by lia.
  rewrite Z.div_add by (unfold JSDate.msPerDay; lia). lia.
Qed.

Lemma studied_iff (tz : Z) (events : list StudyEvent) (d : JSDate.DateString) :
  existsb (fun e => dateOf tz e =? d) events = true
  <-> exists e, In e events /\ dateOf tz e = d.
Proof.
  rewrite existsb_exists. split; intros (e & Hin & He); exists e; split; trivial.
  - apply Z.eqb_eq. exact He.
  - apply Z.eqb_eq. exact He.
Qed.


End CountFacts.

(** ** Sorting *)

Module SortFacts.
Section Keyed.
Context {A : Type}.
Variable cmp : A -> A -> Z.
Variable key : A -> Z.
Hypothesis cmp_key : forall x y, (0 <? cmp x y) = (key y <? key x).

Lemma insert_perm (x : A) (l : list A) : Permutation (JSArray.insert cmp x l) (x :: l).
Proof.
  induction l as [ | y ys IH]; simpl; [ apply Permutation_refl | ].
  destruct (0 <? cmp x y); [ | apply Permutation_refl ].
  eapply Permutation_trans; [ apply perm_skip, IH | apply perm_swap ].
Qed.

Lemma sort_perm (l : list A) : Permutation (JSArray.sort cmp l) l.
Proof.
  induction l as [ | x xs IH]; simpl; [ constructor | ].
  eapply Permutation_trans; [ apply insert_perm | apply perm_skip, IH ].
Qed.

Lemma insert_sorted (x : A) (l : list A) :
  StronglySorted (fun a b => key a <= key b) l -> StronglySorted (fun a b => key a <= key b) (JSArray.insert cmp x l).
Proof.
  induction 1 as [ | y ys Hs IH Hy]; simpl.
  - repeat constructor.
  - rewrite cmp_key. destruct (Z.ltb_spec (key y) (key x)) as [Hlt | Hge].
    + constructor; [ exact IH | ].
      eapply Permutation_Forall; [ apply Permutation_sym, insert_perm | ].
      constructor; [ lia | exact Hy ].
    + constructor; [ constructor; assumption | ].
      constructor; [ exact Hge | ].
      eapply Forall_impl; [ | exact Hy ]. cbn beta. intros; lia.
Qed.

Lemma sort_sorted (l : list A) : StronglySorted (fun a b => key a <= key b) (JSArray.sort cmp l).
Proof.
  induction l as [ | x xs IH]; simpl; [ constructor | apply insert_sorted, IH ].
Qed.

(** Stability: the elements of one key keep their order. *)
Lemma insert_stable (k : Z) (x : A) (l : list A) :
  filter (fun y => key y =? k) (JSArray.insert cmp x l)
  = filter (fun y => key y =? k) (x :: l).
Proof.
  induction l as [ | y ys IH]; [ reflexivity | ].
  cbn [JSArray.insert]. rewrite cmp_key.
  destruct (Z.ltb_spec (key y) (key x)) as [Hlt | Hge]; [ | reflexivity ].
  cbn [filter] in *. rewrite IH.
  destruct (Z.eqb_spec (key x) k); destruct (Z.eqb_spec (key y) k); try reflexivity; lia.
Qed.

Lemma sort_stable (k : Z) (l : list A) :
  filter (fun y => key y =? k) (JSArray.sort cmp l) = filter (fun y => key y =? k) l.
Proof.
  induction l as [ | x xs IH]; [ reflexivity | ].
  cbn [JSArray.sort]. rewrite insert_stable. cbn [filter]. rewrite IH. reflexivity.
Qed.
End Keyed.

Section Unique.
Context {A : Type}.
Variable key : A -> Z.

Lemma filter_key_head (x : A) (l : list A) :
  filter (fun y => key y =? key x) (x :: l) = x :: filter (fun y => key y =? key x) l.
Proof. cbn [filter]. rewrite Z.eqb_refl. reflexivity. Qed.

Lemma class_member (k : Z) (x : A) (l1 l2 : list A) :
  (forall k, filter (fun y => key y =? k) l1 = filter (fun y => key y =? k) l2) ->
  In x l1 -> In x l2.
Proof.
  intros H Hx. assert (Hin : In x (filter (fun y => key y =? key x) l1)).
  { apply filter_In. split; [ exact Hx | apply Z.eqb_refl ]. }
  rewrite H in Hin. apply filter_In in Hin. tauto.
Qed.

Lemma sorted_stable_unique (l1 l2 : list A) :
  StronglySorted (fun a b => key a <= key b) l1 ->
  StronglySorted (fun a b => key a <= key b) l2 ->
  (forall k, filter (fun y => key y =? k) l1 = filter (fun y => key y =? k) l2) ->
  l1 = l2.
Proof.
  intros H1. revert l2. induction H1 as [ | x xs Hs IH Hx]; intros l2 H2 Hf.
  - destruct l2 as [ | y ys]; [ reflexivity | ].
    specialize (Hf (key y)). rewrite filter_key_head in Hf. discriminate Hf.
  - destruct H2 as [ | y ys Hs2 Hy].
    + specialize (Hf (key x)). rewrite filter_key_head in Hf. discriminate Hf.
    + rewrite Forall_forall in Hx, Hy.
      assert (Hxy : key x = key y).
      { assert (In x (y :: ys)) as [-> | Hin1]
          by (apply (class_member (key x) x (x :: xs)); [ exact Hf | left; reflexivity ]);
          [ reflexivity | ].
        assert (In y (x :: xs)) as [-> | Hin2]
          by (apply (class_member (key y) y (y :: ys));
              [ intros k; symmetry; apply Hf | left; reflexivity ]);
          [ reflexivity | ].
        specialize (Hx y Hin2). specialize (Hy x Hin1). lia. }
      pose proof (Hf (key x)) as Hk. cbn [filter] in Hk.
      rewrite <- Hxy, Z.eqb_refl in Hk.
      injection Hk as Exy Etl. subst y. f_equal. apply IH; [ exact Hs2 | ].
      intros k. specialize (Hf k). cbn [filter] in Hf.
      destruct (key x =? k); [ injection Hf as Hf | ]; exact Hf.
Qed.
End Unique.
End SortFacts.

(** ** Streaks *)

Module StreakFacts.
Import JSNumber JSNumberFacts AccuracyFacts Storage Spec.

Lemma distinctFrom_In (seen l : list Z) (x : Z) :
  In x (JSArray.distinctFrom Z.eqb seen l) <-> In x l /\ ~ In x seen.
Proof.
  revert seen. induction l as [ | y ys IH]; intros seen; simpl; [ tauto | ].
  destruct (existsb (Z.eqb y) seen) eqn:E.
  - rewrite IH. apply existsb_exists in E. destruct E as (z & Hz & Hyz).
    apply Z.eqb_eq in Hyz. subst z. split; [ tauto | ].
    intros [[-> | H] Hn]; [ contradiction | tauto ].
  - assert (Hy : ~ In y seen).
    { intros Hin. assert (existsb (Z.eqb y) seen = true); [ | congruence ].
      apply existsb_exists. exists y. split; [ exact Hin | apply Z.eqb_refl ]. }
    simpl. rewrite IH. simpl. split.
    + intros [-> | [H1 H2]]; [ tauto | ]. split; [ tauto | ]. tauto.
    + intros [[-> | H1] H2]; [ tauto | ]. destruct (Z.eq_dec y x); [ tauto | ]. right. tauto.
Qed.

Lemma distinctFrom_NoDup (seen l : list Z) : NoDup (JSArray.distinctFrom Z.eqb seen l).
Proof.
  revert seen. induction l as [ | y ys IH]; intros seen; simpl; [ constructor | ].
  destruct (existsb (Z.eqb y) seen); [ apply IH | ].
  constructor; [ | apply IH ]. rewrite distinctFrom_In. simpl. tauto.
Qed.

Lemma fromSet_In (l : list Z) (x : Z) : In x (JSArray.fromSet Z.eqb l) <-> In x l.
Proof. unfold JSArray.fromSet. rewrite distinctFrom_In. simpl. tauto. Qed.

Lemma sorted_le_NoDup_lt (l : list Z) :
  StronglySorted Z.le l -> NoDup l -> StronglySorted Z.lt l.
Proof.
  induction 1 as [ | x xs Hs IH Hx]; intros Hnd; [ constructor | ].
  inversion Hnd as [ | ? ? Hnin Hnd' ]; subst. constructor; [ apply IH; exact Hnd' | ].
  rewrite Forall_forall in *. intros y Hy. specialize (Hx y Hy).
  assert (x <> y) by (intros ->; contradiction). lia.
Qed.

Lemma sorted_lt_unique (l1 l2 : list Z) :
  StronglySorted Z.lt l1 -> StronglySorted Z.lt l2 ->
  (forall x, In x l1 <-> In x l2) -> l1 = l2.
Proof.
  intros H1. revert l2. induction H1 as [ | x xs Hs IH Hx]; intros l2 H2 Hin.
  - destruct l2 as [ | y ys]; [ reflexivity | ]. exfalso. apply (Hin y). left. reflexivity.
  - destruct H2 as [ | y ys Hs2 Hy].
    + exfalso. apply (Hin x). left. reflexivity.
    + rewrite Forall_forall in Hx, Hy.
      assert (x = y).
      { destruct (proj1 (Hin x) (or_introl eq_refl)) as [E | Hxy]; [ congruence | ].
        destruct (proj2 (Hin y) (or_introl eq_refl)) as [E | Hyx]; [ congruence | ].
        specialize (Hx y Hyx). specialize (Hy x Hxy). lia. }
      subst y. f_equal. apply IH; [ exact Hs2 | ].
      intros z. split; intros Hz.
      * destruct (proj1 (Hin z) (or_intror Hz)) as [E | H]; [ | exact H ].
        subst z. specialize (Hx x Hz). lia.
      * destruct (proj2 (Hin z) (or_intror Hz)) as [E | H]; [ | exact H ].
        subst z. specialize (Hy x Hz). lia.
Qed.

Lemma cmp_dates (tz a b : Z) :
  (0 <? JSDate.getTime tz a - JSDate.getTime tz b) = (b <? a).
Proof.
  unfold JSDate.getTime, JSDate.msPerDay.
  destruct (Z.ltb_spec b a); [ apply Z.ltb_lt | apply Z.ltb_ge ]; lia.
Qed.

Lemma uniqueDates_sorted (tz : Z) (events : list StudyEvent) :
  StronglySorted Z.lt (uniqueDates tz events).
Proof.
  unfold uniqueDates. apply sorted_le_NoDup_lt.
  - apply (SortFacts.sort_sorted _ (fun d => d) (cmp_dates tz)).
  - eapply Permutation_NoDup; [ apply Permutation_sym, SortFacts.sort_perm | ].
    apply distinctFrom_NoDup.
Qed.

Lemma uniqueDates_In (tz : Z) (events : list StudyEvent) (d : Z) :
  In d (uniqueDates tz events) <-> In d (dates tz events).
Proof.
  unfold uniqueDates. split; intros H.
  - apply fromSet_In. eapply Permutation_in; [ apply SortFacts.sort_perm | exact H ].
  - eapply Permutation_in; [ apply Permutation_sym, SortFacts.sort_perm | ].
    apply fromSet_In. exact H.
Qed.

Lemma withinTolerance_leb (prev curr : Z) :
  withinTolerance prev curr = (curr - prev <=? 1).
Proof.
  unfold withinTolerance. destruct (Z.leb_spec (curr - prev) 1) as [H | H].
  - apply Qle_bool_iff.
    assert (inject_Z (curr - prev) <= inject_Z 1)%Q by (rewrite <- Zle_Qle; exact H).
    change (inject_Z 1) with 1%Q in *. lra.
  - destruct (Qle_bool (inject_Z (curr - prev)) (3 # 2)) eqn:E; [ | reflexivity ].
    apply Qle_bool_iff in E.
    assert (inject_Z 2 <= inject_Z (curr - prev))%Q by (rewrite <- Zle_Qle; lia).
    change (inject_Z 2) with 2%Q in *. lra.
Qed.

Lemma diffDays_exact (tz prev curr : Z) :
  (diffDays tz prev curr == fl (inject_Z (curr - prev)))%Q.
Proof.
  unfold diffDays, div, ofZ. apply fl_proper.
  unfold JSDate.getTime.
  replace (curr * JSDate.msPerDay - tz - (prev * JSDate.msPerDay - tz))
    with ((curr - prev) * 86400000) by (unfold JSDate.msPerDay; lia).
  change (1000 * 3600 * 24) with 86400000.
  rewrite inject_Z_mult. change (inject_Z 86400000) with 86400000%Q. field.
Qed.

Lemma diffDays_within (tz prev curr : Z) :
  Qle_bool (diffDays tz prev curr) (3 # 2) = withinTolerance prev curr.
Proof.
  rewrite withinTolerance_leb.
  destruct (Z.leb_spec (curr - prev) 1) as [H | H].
  - apply Qle_bool_iff. rewrite diffDays_exact.
    assert (fl (inject_Z (curr - prev)) <= inject_Z 1)%Q.
    { apply fl_le_Z; [ simpl; lia | rewrite <- Zle_Qle; exact H ]. }
    change (inject_Z 1) with 1%Q in *. lra.
  - destruct (Qle_bool (diffDays tz prev curr) (3 # 2)) eqn:E; [ | reflexivity ].
    apply Qle_bool_iff in E. rewrite diffDays_exact in E.
    assert (inject_Z 2 <= fl (inject_Z (curr - prev)))%Q.
    { apply fl_ge_Z; [ simpl; lia | rewrite <- Zle_Qle; lia ]. }
    change (inject_Z 2) with 2%Q in *. lra.
Qed.

Lemma nth_app_cons (pre rest : list Z) (d : Z) :
  nth (List.length pre) (pre ++ d :: rest) 0 = d.
Proof. rewrite app_nth2, Nat.sub_diag by lia. reflexivity. Qed.

Lemma longest_loop (tz : Z) (events : list StudyEvent) (rest pre : list Z) (d c b : Z) :
  uniqueDates tz events = pre ++ d :: rest ->
  snd (fold_left (longestStep tz events) (seq (S (List.length pre)) (List.length rest)) (c, b))
  = scan d c b rest.
Proof.
  revert pre d c b. induction rest as [ | d' rest IH]; intros pre d c b Hl; [ reflexivity | ].
  cbn [List.length seq fold_left scan].
  assert (Hl' : uniqueDates tz events = (pre ++ [d]) ++ d' :: rest)
    by (rewrite <- app_assoc; exact Hl).
  specialize (IH (pre ++ [d]) d').
  rewrite length_app in IH. cbn [List.length] in IH.
  replace (List.length pre + 1)%nat with (S (List.length pre)) in IH by lia.
  unfold longestStep at 2.
  assert (N1 : nth (List.length pre) (uniqueDates tz events) 0 = d)
    by (rewrite Hl; apply nth_app_cons).
  assert (N2 : nth (S (List.length pre)) (uniqueDates tz events) 0 = d').
  { rewrite Hl'. replace (S (List.length pre)) with (List.length (pre ++ [d]))
      by (rewrite length_app; simpl; lia). apply nth_app_cons. }
  rewrite N1, N2, diffDays_within.
  set (counter := if withinTolerance d d' then c + 1 else 1).
  replace (if b <? counter then counter else b) with (Z.max b counter)
    by (destruct (Z.ltb_spec b counter); lia).
  apply IH. exact Hl'.
Qed.

Lemma longestStreak_scan (tz : Z) (events : list StudyEvent) :
  longestStreak tz events = longestRun (uniqueDates tz events).
Proof.
  unfold longestStreak, longestRun.
  destruct (uniqueDates tz events) as [ | d rest] eqn:E; [ reflexivity | ].
  cbn [List.length seq fold_left]. unfold longestStep at 2. cbn [Z.ltb Z.compare].
  apply (longest_loop tz events rest [] d 1 1). exact E.
Qed.

Lemma firstn_S_nth (l : list Z) (j : nat) : (j < List.length l)%nat ->
  firstn (S j) l = firstn j l ++ [nth j l 0].
Proof.
  revert j. induction l as [ | x xs IH]; intros j Hj; simpl in Hj; [ lia | ].
  destruct j as [ | j]; [ reflexivity | ].
  cbn [firstn nth app]. f_equal. apply IH. lia.
Qed.

Lemma current_loop (tz : Z) (events : list StudyEvent) (i : nat) (c : Z) :
  (i < List.length (uniqueDates tz events))%nat ->
  currentLoop tz events i c
  = c - 1 + walkBack (nth i (uniqueDates tz events) 0) (rev (firstn i (uniqueDates tz events))).
Proof.
  revert c. induction i as [ | j IH]; intros c Hi.
  - simpl. lia.
  - cbn [currentLoop]. unfold JSDate.DateString in *.
    rewrite diffDays_within, firstn_S_nth by lia.
    rewrite rev_app_distr. cbn [rev app walkBack].
    destruct (withinTolerance _ _); [ rewrite IH by lia; lia | lia ].
Qed.

Lemma rev_last_firstn (l : list Z) : l <> [] ->
  rev l = nth (List.length l - 1) l 0 :: rev (firstn (List.length l - 1) l).
Proof.
  intros Hne. assert (Hlen : (0 < List.length l)%nat) by (destruct l; [ congruence | simpl; lia ]).
  rewrite <- (firstn_all l) at 1.
  replace (List.length l) with (S (List.length l - 1)) at 1 by lia.
  rewrite firstn_S_nth by lia. rewrite rev_app_distr. reflexivity.
Qed.

Lemma yesterday_date (tz now : Z) :
  JSDate.toDateString tz (now - 86400000) = JSDate.toDateString tz now - 1.
Proof. apply (CountFacts.toDateString_minusDays tz now 1). Qed.

Lemma currentStreak_walk (tz : Z) (events : list StudyEvent) (now : Z) :
  currentStreak tz events now
  = currentRun (JSDate.toDateString tz now) (uniqueDates tz events).
Proof.
  unfold currentStreak, currentRun.
  destruct (uniqueDates tz events) as [ | d rest] eqn:E; [ reflexivity | ].
  rewrite <- E. rewrite rev_last_firstn by (rewrite E; discriminate).
  rewrite yesterday_date.
  destruct (_ || _); [ | reflexivity ].
  rewrite current_loop by (rewrite E; simpl; lia).
  unfold JSDate.DateString in *. lia.
Qed.
Lemma uniqueDates_of_days (tz : Z) (events : list StudyEvent) (days : list Z) :
  StronglySorted Z.lt days ->
  (forall d, In d (dates tz events) <-> In d days) ->
  uniqueDates tz events = days.
Proof.
  intros Hs Hin. apply sorted_lt_unique; [ apply uniqueDates_sorted | exact Hs | ].
  intros d. rewrite uniqueDates_In. apply Hin.
Qed.

Lemma sorted4 (D : Z) : StronglySorted Z.lt [D; D + 1; D + 2; D + 4].
Proof. repeat constructor; lia. Qed.

Lemma longestRun_example (D : Z) : longestRun [D; D + 1; D + 2; D + 4] = 3.
Proof.
  unfold longestRun, scan. rewrite !withinTolerance_leb.
  destruct (Z.leb_spec (D + 1 - D) 1); [ | lia ].
  destruct (Z.leb_spec (D + 2 - (D + 1)) 1); [ | lia ].
  destruct (Z.leb_spec (D + 4 - (D + 2)) 1); [ lia | ].
  reflexivity.
Qed.

End StreakFacts.

(** ** Topic ranking *)

Module TopicFacts.
Import Storage Spec Derived.

Lemma firstSeen_In (l : list string) (k : string) : In k (firstSeen l) <-> In k l.
Proof.
  induction l as [ | x xs IH]; simpl; [ tauto | ].
  rewrite filter_In, IH. destruct (String.eqb_spec k x) as [-> | Hne]; simpl.
  - tauto.
  - split; [ intros [-> | [H _]]; tauto | intros [-> | H]; [ tauto | right; tauto ] ].
Qed.

Lemma firstSeen_NoDup (l : list string) : NoDup (firstSeen l).
Proof.
  induction l as [ | x xs IH]; simpl; constructor.
  - rewrite filter_In, String.eqb_refl. simpl. intros [_ H]. discriminate.
  - apply NoDup_filter. exact IH.
Qed.

Lemma existsb_eqb_In (k : string) (l : list string) :
  existsb (String.eqb k) l = true <-> In k l.
Proof.
  rewrite existsb_exists. split.
  - intros (x & Hx & E). apply String.eqb_eq in E. subst. exact Hx.
  - intros H. exists k. split; [ exact H | apply String.eqb_refl ].
Qed.

Lemma firstSeen_snoc (l : list string) (k : string) :
  firstSeen (l ++ [k]) = firstSeen l ++ (if existsb (String.eqb k) l then [] else [k]).
Proof.
  induction l as [ | x xs IH]; [ reflexivity | ].
  cbn [app firstSeen existsb]. rewrite IH, filter_app. f_equal.
  destruct (String.eqb_spec k x) as [-> | Hne]; cbn [orb].
  - destruct (existsb (String.eqb x) xs); cbn [filter]; rewrite ?String.eqb_refl; reflexivity.
  - destruct (existsb (String.eqb k) xs); cbn [filter]; [ reflexivity | ].
    destruct (String.eqb_spec k x); [ contradiction | reflexivity ].
Qed.

Lemma occurrences_snoc (k' k : string) (l : list string) :
  occurrences k' (l ++ [k]) = occurrences k' l + (if String.eqb k' k then 1 else 0).
Proof.
  unfold occurrences. rewrite filter_app, length_app. cbn [filter].
  destruct (String.eqb k' k); simpl; lia.
Qed.

Lemma occurrences_pos (k : string) (l : list string) : In k l -> 0 < occurrences k l.
Proof.
  intros H. unfold occurrences.
  assert (Hin : In k (filter (String.eqb k) l)) by (apply filter_In; split; [ exact H | apply String.eqb_refl ]).
  destruct (filter (String.eqb k) l); [ contradiction | simpl; lia ].
Qed.

Lemma occurrences_notin (k : string) (l : list string) : ~ In k l -> occurrences k l = 0.
Proof.
  intros H. unfold occurrences.
  destruct (filter (String.eqb k) l) as [ | x xs] eqn:E; [ reflexivity | ].
  exfalso. assert (Hx : In x (filter (String.eqb k) l)) by (rewrite E; left; reflexivity).
  apply filter_In in Hx. destruct Hx as [Hx Hk]. apply String.eqb_eq in Hk. subst. contradiction.
Qed.

Section Assoc.
Variable f : string -> Z.

Lemma getOwn_tabulate (keys : list string) (k : string) :
  JSObject.getOwn (tabulate f keys) k
  = if existsb (String.eqb k) keys then Some (f k) else None.
Proof.
  induction keys as [ | x xs IH]; [ reflexivity | ].
  cbn [tabulate map JSObject.getOwn existsb].
  destruct (String.eqb_spec k x) as [-> | Hne]; [ reflexivity | exact IH ].
Qed.

Lemma set_tabulate_notin (keys : list string) (k : string) (v : Z) :
  ~ In k keys -> JSObject.set (tabulate f keys) k v = tabulate f keys ++ [(k, v)].
Proof.
  induction keys as [ | x xs IH]; intros Hn; [ reflexivity | ].
  cbn [tabulate map JSObject.set app].
  destruct (String.eqb_spec k x) as [-> | Hne]; [ exfalso; apply Hn; left; reflexivity | ].
  f_equal. apply IH. intros H. apply Hn. right. exact H.
Qed.
End Assoc.

Lemma set_tabulate_in (f : string -> Z) (keys : list string) (k : string) (v : Z) :
  NoDup keys -> In k keys ->
  JSObject.set (tabulate f keys) k v
  = tabulate (fun k' => if String.eqb k' k then v else f k') keys.
Proof.
  induction keys as [ | x xs IH]; intros Hnd Hin; [ contradiction | ].
  inversion Hnd as [ | ? ? Hx Hnd' ]; subst.
  cbn [tabulate map JSObject.set].
  destruct (String.eqb_spec k x) as [-> | Hne].
  - rewrite String.eqb_refl. f_equal. apply map_ext_in. intros y Hy.
    destruct (String.eqb_spec y x) as [-> | ]; [ contradiction | reflexivity ].
  - destruct (String.eqb_spec x k) as [-> | _]; [ contradiction | ].
    f_equal. apply IH; [ exact Hnd' | ]. destruct Hin as [-> | H]; [ contradiction | exact H ].
Qed.

Lemma put_objOf (l : list string) (k : string) : put (objOf l) k = objOf (l ++ [k]).
Proof.
  unfold put, objOf. rewrite getOwn_tabulate, firstSeen_snoc.
  destruct (existsb (String.eqb k) (firstSeen l)) eqn:E.
  - apply existsb_eqb_In in E. assert (E' : In k l) by (apply (proj1 (firstSeen_In l k)); exact E).
    assert (Hx : existsb (String.eqb k) l = true) by (apply existsb_eqb_In; exact E').
    rewrite Hx, app_nil_r. unfold orElse.
    pose proof (occurrences_pos k l E') as Hp.
    destruct (Z.eqb_spec (occurrences k l) 0); [ lia | ].
    rewrite set_tabulate_in by (try apply firstSeen_NoDup; exact E).
    unfold tabulate. apply map_ext. intros y. rewrite occurrences_snoc.
    destruct (String.eqb_spec y k) as [-> | ]; [ reflexivity | f_equal; lia ].
  - assert (Hn : ~ In k (firstSeen l)).
    { intros H. apply existsb_eqb_In in H. congruence. }
    assert (Hn' : ~ In k l) by (rewrite <- firstSeen_In; exact Hn).
    assert (Hx : existsb (String.eqb k) l = false).
    { destruct (existsb (String.eqb k) l) eqn:E2; [ | reflexivity ].
      apply existsb_eqb_In in E2. contradiction. }
    rewrite Hx. cbn [orElse]. rewrite set_tabulate_notin by exact Hn.
    unfold tabulate. rewrite map_app. cbn [map]. f_equal.
    + apply map_ext_in. intros y Hy. rewrite occurrences_snoc.
      destruct (String.eqb_spec y k) as [-> | ]; [ contradiction | f_equal; lia ].
    + rewrite occurrences_snoc, String.eqb_refl, (occurrences_notin k l Hn'). reflexivity.
Qed.

Lemma fold_put (l : list string) : fold_left put l JSObject.empty = objOf l.
Proof.
  induction l as [ | k l IH] using rev_ind; [ reflexivity | ].
  rewrite fold_left_app. cbn [fold_left]. rewrite IH. apply put_objOf.
Qed.

Lemma fold_left_flat_map {A B C : Type} (g : A -> B -> A) (h : C -> list B)
      (l : list C) (a : A) :
  fold_left (fun acc x => fold_left g (h x) acc) l a = fold_left g (flat_map h l) a.
Proof.
  revert a. induction l as [ | x xs IH]; intros a; [ reflexivity | ].
  cbn [fold_left flat_map]. rewrite fold_left_app. apply IH.
Qed.

Lemma fold_left_pointwise {A B : Type} (f g : A -> B -> A) (l : list B) (a : A) :
  (forall acc x, f acc x = g acc x) -> fold_left f l a = fold_left g l a.
Proof.
  intros H. revert a. induction l as [ | x xs IH]; intros a; [ reflexivity | ].
  cbn [fold_left]. rewrite H. apply IH.
Qed.

Lemma keywordStep_normalized (raw : list string) (acc : option JSObject.t) :
  fold_left keywordStep raw acc
  = fold_left bumpStep (filter JSString.truthy (map normalize raw)) acc.
Proof.
  revert acc. induction raw as [ | kw raw IH]; intros acc; [ reflexivity | ].
  cbn [fold_left map filter]. rewrite IH.
  unfold keywordStep. fold (normalize kw).
  destruct acc as [o | ]; destruct (JSString.truthy (normalize kw)); reflexivity.
Qed.

Lemma topicCounts_keywords (events : list StudyEvent) :
  topicCounts events = fold_left bumpStep (keywords events) (Some JSObject.empty).
Proof.
  unfold topicCounts, keywords.
  rewrite <- keywordStep_normalized, <- fold_left_flat_map.
  apply fold_left_pointwise. intros acc e. unfold topicStep, keywordsOf.
  destruct (topic_keywords e); reflexivity.
Qed.

Lemma bump_plain (o : JSObject.t) (k : string) : plainKey k -> bump o k = Some (put o k).
Proof.
  intros [Hc Hp]. unfold bump.
  destruct (String.eqb_spec k "__proto__"); [ contradiction | ].
  destruct (String.eqb_spec k "constructor"); [ contradiction | ]. reflexivity.
Qed.

Lemma fold_bump_plain (kws : list string) (o : JSObject.t) :
  Forall plainKey kws -> fold_left bumpStep kws (Some o) = Some (fold_left put kws o).
Proof.
  intros H. revert o. induction H as [ | k kws Hk _ IH]; intros o; [ reflexivity | ].
  cbn [fold_left bumpStep]. rewrite (bump_plain o k Hk). apply IH.
Qed.

Lemma topicCounts_plain (events : list StudyEvent) :
  Forall plainKey (keywords events) -> topicCounts events = Some (objOf (keywords events)).
Proof.
  intros H. rewrite topicCounts_keywords, fold_bump_plain by exact H.
  rewrite fold_put. reflexivity.
Qed.

(** *** Enumeration order of the counters *)

Lemma sort_map {A B : Type} (g : A -> B) (cmpA : A -> A -> Z) (cmpB : B -> B -> Z)
      (l : list A) :
  (forall a b, cmpB (g a) (g b) = cmpA a b) ->
  JSArray.sort cmpB (map g l) = map g (JSArray.sort cmpA l).
Proof.
  intros H. induction l as [ | x xs IH]; [ reflexivity | ].
  cbn [map JSArray.sort]. rewrite IH. generalize (JSArray.sort cmpA xs). intros s.
  induction s as [ | y ys IHs]; [ reflexivity | ].
  cbn [map JSArray.insert]. rewrite H. destruct (0 <? cmpA x y); cbn [map]; [ | reflexivity ].
  f_equal. exact IHs.
Qed.

Lemma filter_tabulate (f : string -> Z) (q : string -> bool) (keys : list string) :
  filter (fun p => q (fst p)) (tabulate f keys) = tabulate f (filter q keys).
Proof.
  induction keys as [ | x xs IH]; [ reflexivity | ].
  cbn [tabulate map filter fst]. destruct (q x); cbn [map]; [ f_equal | ]; exact IH.
Qed.

Lemma enumeration_plain (keys : list string) :
  filter JSObject.isIndex keys = [] -> enumeration keys = keys.
Proof.
  intros Hnone. unfold enumeration. rewrite Hnone. cbn [JSArray.sort app].
  induction keys as [ | x xs IH]; [ reflexivity | ].
  cbn [filter] in *. destruct (JSObject.isIndex x); [ discriminate | ].
  cbn [negb]. f_equal. apply IH. exact Hnone.
Qed.

Lemma entries_tabulate (f : string -> Z) (keys : list string) :
  JSObject.entries (tabulate f keys) = tabulate f (enumeration keys).
Proof.
  unfold JSObject.entries, enumeration.
  rewrite (filter_tabulate f JSObject.isIndex), (filter_tabulate f (fun k => negb (JSObject.isIndex k))).
  unfold tabulate at 3. rewrite map_app. f_equal.
  apply sort_map. reflexivity.
Qed.

Lemma byIndex_key (x y : string) :
  (0 <? byIndex x y) = (JSObject.indexOf y <? JSObject.indexOf x).
Proof.
  unfold byIndex. destruct (Z.ltb_spec (JSObject.indexOf y) (JSObject.indexOf x));
    [ apply Z.ltb_lt | apply Z.ltb_ge ]; lia.
Qed.

Lemma byCount_key (x y : TopicEntry) :
  (0 <? byCount x y) = (- count y <? - count x).
Proof.
  unfold byCount. destruct (Z.ltb_spec (- count y) (- count x));
    [ apply Z.ltb_lt | apply Z.ltb_ge ]; lia.
Qed.

Lemma topTopics_plain (events : list StudyEvent) :
  Forall plainKey (keywords events) ->
  topTopics events
  = Some (firstn 5 (JSArray.sort byCount
                      (entriesOf (enumeration (firstSeen (keywords events)))
                                 (keywords events)))).
Proof.
  intros H. unfold topTopics. rewrite (topicCounts_plain events H).
  unfold objOf. rewrite entries_tabulate. unfold tabulate, JSArray.slice0.
  rewrite map_map. reflexivity.
Qed.

Lemma sort_rankedBy (order kws : list string) :
  rankedBy order kws (JSArray.sort byCount (entriesOf order kws)).
Proof.
  split; [ | split ].
  - apply SortFacts.sort_perm.
  - pose proof (SortFacts.sort_sorted byCount (fun t => - count t) byCount_key
                  (entriesOf order kws)) as Hs.
    eapply StronglySorted_ind with (P := fun l => StronglySorted (fun a b => count b <= count a) l);
      [ constructor | | exact Hs ].
    intros a l _ IH Ha. constructor; [ exact IH | ].
    eapply Forall_impl; [ | exact Ha ]. cbn beta. intros; lia.
  - intros c.
    pose proof (SortFacts.sort_stable byCount (fun t => - count t) byCount_key (- c)
                  (entriesOf order kws)) as Hst.
    assert (E : forall l : list TopicEntry,
               filter (fun t => count t =? c) l
               = filter (fun y => (fun t => - count t) y =? - c) l).
    { intros l. apply filter_ext. intros t. cbn beta.
      destruct (Z.eqb_spec (count t) c), (Z.eqb_spec (- count t) (- c)); try reflexivity; lia. }
    rewrite !E. exact Hst.
Qed.
(** *** Array-index keys *)

Lemma isDigit_range (c : ascii) : JSObject.isDigit c = true -> 0 <= digit c <= 9.
Proof.
  unfold JSObject.isDigit, digit. intros H. apply andb_prop in H. destruct H as [H1 H2].
  apply Nat.leb_le in H1, H2. lia.
Qed.

Lemma digit_inj (c1 c2 : ascii) : digit c1 = digit c2 -> c1 = c2.
Proof.
  unfold digit. intros H. assert (E : nat_of_ascii c1 = nat_of_ascii c2) by lia.
  rewrite <- (ascii_nat_embedding c1), <- (ascii_nat_embedding c2), E. reflexivity.
Qed.

Lemma digitsValue_bounds (s : string) (acc v : Z) :
  0 <= acc -> JSObject.digitsValue acc s = Some v ->
  acc * 10 ^ len s <= v < (acc + 1) * 10 ^ len s.
Proof.
  revert acc. induction s as [ | c s IH]; intros acc Ha H.
  - simpl in H. injection H as <-. unfold len. simpl. lia.
  - cbn [JSObject.digitsValue] in H. destruct (JSObject.isDigit c) eqn:Ec; [ | discriminate ].
    pose proof (isDigit_range c Ec) as Hd. fold (digit c) in H.
    apply IH in H; [ | lia ].
    unfold len in *. cbn [String.length]. rewrite Nat2Z.inj_succ, Z.pow_succ_r by lia.
    assert (0 < 10 ^ Z.of_nat (String.length s)) by (apply Z.pow_pos_nonneg; lia).
    nia.
Qed.

Lemma digitsValue_inj (s1 s2 : string) (a1 a2 v : Z) :
  String.length s1 = String.length s2 -> 0 <= a1 -> 0 <= a2 ->
  JSObject.digitsValue a1 s1 = Some v -> JSObject.digitsValue a2 s2 = Some v ->
  a1 = a2 /\ s1 = s2.
Proof.
  revert s2 a1 a2. induction s1 as [ | c1 t1 IH]; intros [ | c2 t2] a1 a2 Hl H1 H2 E1 E2;
    try discriminate Hl.
  - simpl in E1, E2. split; [ congruence | reflexivity ].
  - cbn [JSObject.digitsValue] in E1, E2.
    destruct (JSObject.isDigit c1) eqn:D1; [ | discriminate ].
    destruct (JSObject.isDigit c2) eqn:D2; [ | discriminate ].
    pose proof (isDigit_range c1 D1). pose proof (isDigit_range c2 D2).
    fold (digit c1) in E1. fold (digit c2) in E2.
    assert (Hl' : String.length t1 = String.length t2) by (simpl in Hl; lia).
    destruct (IH t2 (10 * a1 + digit c1) (10 * a2 + digit c2) Hl'
                 ltac:(lia) ltac:(lia) E1 E2) as [Ea Et].
    assert (a1 = a2) by lia. assert (digit c1 = digit c2) by lia.
    split; [ assumption | ]. f_equal; [ apply digit_inj; assumption | exact Et ].
Qed.

(** The decimal form of an array index is either ["0"] or starts with a
    non-zero digit. *)
Lemma arrayIndex_canonical (s : string) (v : Z) :
  JSObject.arrayIndex s = Some v ->
  JSObject.digitsValue 0 s = Some v /\
  (s = "0"%string \/ 10 ^ (len s - 1) <= v < 10 ^ len s /\ 1 <= len s /\ 1 <= v).
Proof.
  unfold JSObject.arrayIndex. destruct s as [ | c rest]; [ discriminate | ].
  destruct (Ascii.eqb c "0" && negb (String.eqb rest ""))%bool eqn:E0; [ discriminate | ].
  destruct (JSObject.digitsValue 0 (String c rest)) as [n | ] eqn:Ed; [ | discriminate ].
  destruct (n <=? 4294967294); [ | discriminate ]. intros H. injection H as <-.
  split; [ reflexivity | ].
  destruct (Ascii.eqb_spec c "0") as [-> | Hc].
  - left. simpl in E0. destruct (String.eqb_spec rest ""); [ subst; reflexivity | discriminate ].
  - right. cbn [JSObject.digitsValue] in Ed.
    destruct (JSObject.isDigit c) eqn:Dc; [ | discriminate ].
    pose proof (isDigit_range c Dc) as Hr. fold (digit c) in Ed.
    assert (Hd : digit c <> 0).
    { intros Hz. apply Hc. apply digit_inj. rewrite Hz. reflexivity. }
    apply digitsValue_bounds in Ed; [ | lia ].
    unfold len in *. cbn [String.length]. rewrite Nat2Z.inj_succ.
    replace (Z.succ (Z.of_nat (String.length rest)) - 1) with (Z.of_nat (String.length rest)) by lia.
    rewrite Z.pow_succ_r by lia.
    assert (0 < 10 ^ Z.of_nat (String.length rest)) by (apply Z.pow_pos_nonneg; lia).
    nia.
Qed.

Lemma arrayIndex_inj (s1 s2 : string) (v : Z) :
  JSObject.arrayIndex s1 = Some v -> JSObject.arrayIndex s2 = Some v -> s1 = s2.
Proof.
  intros H1 H2. apply arrayIndex_canonical in H1, H2.
  destruct H1 as [D1 C1], H2 as [D2 C2].
  assert (Hlen : String.length s1 = String.length s2).
  { destruct C1 as [-> | (B1 & L1 & V1)], C2 as [-> | (B2 & L2 & V2)].
    - reflexivity.
    - simpl in D1. injection D1 as <-. lia.
    - simpl in D2. injection D2 as <-. lia.
    - unfold len in *.
      destruct (Z.lt_trichotomy (Z.of_nat (String.length s1)) (Z.of_nat (String.length s2)))
        as [L | [E | G]]; [ | lia | ].
      + assert (10 ^ Z.of_nat (String.length s1) <= 10 ^ (Z.of_nat (String.length s2) - 1))
          by (apply Z.pow_le_mono_r; lia). lia.
      + assert (10 ^ Z.of_nat (String.length s2) <= 10 ^ (Z.of_nat (String.length s1) - 1))
          by (apply Z.pow_le_mono_r; lia). lia. }
  apply (digitsValue_inj s1 s2 0 0 v Hlen); try lia; assumption.
Qed.

Lemma isIndex_arrayIndex (k : string) :
  JSObject.isIndex k = true -> JSObject.arrayIndex k = Some (JSObject.indexOf k).
Proof.
  unfold JSObject.isIndex, JSObject.indexOf. destruct (JSObject.arrayIndex k); [ reflexivity | discriminate ].
Qed.

Lemma sorted_index_strict (l : list string) :
  NoDup l -> Forall (fun k => JSObject.isIndex k = true) l ->
  StronglySorted (fun a b => JSObject.indexOf a <= JSObject.indexOf b) l ->
  StronglySorted (fun a b => JSObject.indexOf a < JSObject.indexOf b) l.
Proof.
  intros Hnd Hidx Hs. induction Hs as [ | x xs Hs IH Hx]; [ constructor | ].
  inversion Hnd as [ | ? ? Hnin Hnd' ]; subst. inversion Hidx as [ | ? ? Hix Hidx' ]; subst.
  constructor; [ apply IH; assumption | ].
  rewrite Forall_forall in *. intros y Hy. specialize (Hx y Hy).
  destruct (Z.eq_dec (JSObject.indexOf x) (JSObject.indexOf y)) as [E | NE]; [ | lia ].
  exfalso. apply Hnin. 
  assert (x = y); [ | subst; exact Hy ].
  apply (arrayIndex_inj x y (JSObject.indexOf x)).
  - apply isIndex_arrayIndex. exact Hix.
  - rewrite E. apply isIndex_arrayIndex. apply Hidx'. exact Hy.
Qed.

(** *** The ranking is determined *)

Lemma filter_partition_perm {A : Type} (p : A -> bool) (l : list A) :
  Permutation (filter p l ++ filter (fun x => negb (p x)) l) l.
Proof.
  induction l as [ | x xs IH]; [ constructor | ].
  cbn [filter]. destruct (p x); cbn [negb app].
  - apply perm_skip. exact IH.
  - apply Permutation_sym. apply Permutation_cons_app. apply Permutation_sym. exact IH.
Qed.

Lemma rankedBy_unique (order kws : list string) (r1 r2 : list TopicEntry) :
  rankedBy order kws r1 -> rankedBy order kws r2 -> r1 = r2.
Proof.
  intros (_ & S1 & F1) (_ & S2 & F2).
  apply (SortFacts.sorted_stable_unique (fun t => - count t)).
  - eapply StronglySorted_ind with (P := fun l => StronglySorted _ l); [ constructor | | exact S1 ].
    intros a l _ IH Ha. constructor; [ exact IH | ].
    eapply Forall_impl; [ | exact Ha ]. cbn beta. intros; lia.
  - eapply StronglySorted_ind with (P := fun l => StronglySorted _ l); [ constructor | | exact S2 ].
    intros a l _ IH Ha. constructor; [ exact IH | ].
    eapply Forall_impl; [ | exact Ha ]. cbn beta. intros; lia.
  - intros k.
    assert (E : forall l : list TopicEntry,
               filter (fun y => - count y =? k) l = filter (fun t => count t =? - k) l).
    { intros l. apply filter_ext. intros t.
      destruct (Z.eqb_spec (- count t) k), (Z.eqb_spec (count t) (- k)); try reflexivity; lia. }
    rewrite !E, F1, F2. reflexivity.
Qed.

End TopicFacts.

(** ** The assembled result *)

Module StatsFacts.
Import Storage.

(** The record returned by [getUserStats] carries the statistics computed
    above, field by field; it exists exactly when the topic counters do. *)
Lemma getUserStats_fields (tz : Z) (events : list StudyEvent) (now : Z) (s : UserStats) :
  getUserStats tz events now = Some s ->
  Types.totalSessions s = totalSessions events /\
  Types.sessionsToday s = sessionsToday tz events now /\
  Types.sessionsThisWeek s = sessionsThisWeek events now /\
  Types.sessionsThisMonth s = sessionsThisMonth tz events now /\
  Types.totalTimeMinutes s = totalTimeMinutes tz events now /\
  Types.studyTimeToday s = studyTimeToday tz events now /\
  Types.studyTimeThisWeek s = studyTimeThisWeek tz events now /\
  Types.quizzesGenerated s = quizzesGenerated events /\
  Types.currentStreak s = currentStreak tz events now /\
  Types.longestStreak s = longestStreak tz events /\
  Types.lastSevenDays s = lastSevenDays tz events now /\
  Types.quizAccuracy s = quizAccuracy events /\
  Types.totalQuizQuestions s = totalQuizQuestions events /\
  Types.totalQuizCorrect s = totalQuizCorrect events /\
  Types.totalQuizzesTaken s = totalQuizzesTaken events /\
  Types.totalExamsTaken s = totalExamsTaken events /\
  Types.examAverageAccuracy s = examAverageAccuracy events /\
  Types.examAverageScore s = examAverageScore events /\
  Types.examBestScore s = examBestScore events /\
  topTopics events = Some (Types.topTopics s).
Proof.
  unfold getUserStats. destruct (topTopics events) as [tt | ]; [ | discriminate ].
  intros H. injection H as <-. cbn. repeat split.
Qed.

Lemma getUserStats_defined (tz : Z) (events : list StudyEvent) (now : Z) :
  Forall Spec.plainKey (Spec.keywords events) ->
  exists s, getUserStats tz events now = Some s.
Proof.
  intros H. unfold getUserStats. rewrite (TopicFacts.topTopics_plain events H).
  eexists. reflexivity.
Qed.

End StatsFacts.

(* ------------------------------------------------------------------------ *)
(** ** Time zones *)

Module ZoneFacts.
Import Zone.


Lemma newYork_regular : regular newYork.
Proof.
  split.
  - intros t d. cbn [newYork localDay midnight].
    unfold change, changeDay, hour, JSDate.msPerDay.
    destruct (Z.ltb_spec t (20520 * 86400000 + 7 * 3600000)) as [Ht | Ht].
    + pose proof (Z.div_mod (t - 5 * 3600000) 86400000 ltac:(lia)) as Hd.
      pose proof (Z.mod_pos_bound (t - 5 * 3600000) 86400000 ltac:(lia)) as Hm.
      destruct (Z.leb_spec d 20520), (Z.leb_spec (d + 1) 20520); split; intros HH; lia.
    + pose proof (Z.div_mod (t - 4 * 3600000) 86400000 ltac:(lia)) as Hd.
      pose proof (Z.mod_pos_bound (t - 4 * 3600000) 86400000 ltac:(lia)) as Hm.
      destruct (Z.leb_spec d 20520), (Z.leb_spec (d + 1) 20520); split; intros HH; lia.
  - intros d. cbn [newYork midnight]. unfold changeDay, hour, JSDate.msPerDay.
    destruct (Z.leb_spec d 20520), (Z.leb_spec (d + 1) 20520); lia.
Qed.

Section Regular.
Variable z : t.
Hypothesis Hz : regular z.

Lemma midnight_span (d : Z) (k : nat) :
  23 * hour * Z.of_nat k <= midnight z (d + Z.of_nat k) - midnight z d
  <= 25 * hour * Z.of_nat k.
Proof.
  induction k as [ | k IH].
  - rewrite Z.add_0_r. lia.
  - pose proof (proj2 Hz (d + Z.of_nat k)) as Hk.
    rewrite Nat2Z.inj_succ.
    replace (d + Z.succ (Z.of_nat k)) with (d + Z.of_nat k + 1) by lia. lia.
Qed.

Lemma midnight_gap (d1 d2 : Z) : d1 <= d2 ->
  23 * hour * (d2 - d1) <= midnight z d2 - midnight z d1 <= 25 * hour * (d2 - d1).
Proof.
  intros H. pose proof (midnight_span d1 (Z.to_nat (d2 - d1))) as Hs.
  rewrite Z2Nat.id in Hs by lia. replace (d1 + (d2 - d1)) with d2 in Hs by lia. exact Hs.
Qed.

Lemma midnight_lt (d1 d2 : Z) : d1 < d2 <-> midnight z d1 < midnight z d2.
Proof.
  unfold hour in *. split; intros H.
  - pose proof (midnight_gap d1 d2 ltac:(lia)). unfold hour in *. nia.
  - destruct (Z_lt_ge_dec d1 d2) as [Hlt | Hge]; [ exact Hlt | ].
    pose proof (midnight_gap d2 d1 ltac:(lia)). unfold hour in *. nia.
Qed.

Lemma localDay_bounds (t : Z) :
  midnight z (localDay z t) <= t < midnight z (localDay z t + 1).
Proof. apply (proj1 Hz). reflexivity. Qed.

Lemma localDay_mono (t1 t2 : Z) : t1 <= t2 -> localDay z t1 <= localDay z t2.
Proof.
  intros H. pose proof (localDay_bounds t1). pose proof (localDay_bounds t2).
  destruct (Z_le_gt_dec (localDay z t1) (localDay z t2)) as [Hle | Hgt]; [ exact Hle | ].
  assert (Hm : midnight z (localDay z t2 + 1) <= midnight z (localDay z t1)).
  { destruct (Z.eq_dec (localDay z t2 + 1) (localDay z t1)) as [-> | Hne]; [ lia | ].
    apply Z.lt_le_incl, (proj1 (midnight_lt _ _)). lia. }
  lia.
Qed.

(** The day of the instant 24 hours ago is today, yesterday or the day
    before yesterday. *)
Lemma dayBefore_bounds (now : Z) :
  localDay z now - 2 <= localDay z (now - 86400000) <= localDay z now.
Proof.
  split; [ | apply localDay_mono; lia ].
  pose proof (localDay_bounds now) as Hn.
  pose proof (localDay_bounds (now - 86400000)) as Hb.
  destruct (Z_le_gt_dec (localDay z now - 2) (localDay z (now - 86400000))) as [H | H];
    [ exact H | ].
  pose proof (midnight_gap (localDay z (now - 86400000) + 1) (localDay z now) ltac:(lia)) as Hg.
  unfold hour in Hg. nia.
Qed.
End Regular.

Lemma fixed_dayBefore (tz now : Z) :
  localDay (fixed tz) (now - 86400000) = localDay (fixed tz) now - 1.
Proof. apply StreakFacts.yesterday_date. Qed.
End ZoneFacts.

(** ** The claims *)

(** C1 (as amended): the contribution of an event is its question count for a
    [quiz_complete] event with a known, non-zero count; [ceil(totalMarks * 1.5)]
    for an [exam_complete] event with a known, non-zero total; and otherwise
    1, plus [ceil(textLength / 500)] when [textLength > 0], plus 2 for a [quiz]
    event.  [totalTimeMinutes] is the sum of the contributions over the log. *)
Theorem C1_event_duration :
  (forall e, Spec.inRange e ->
     Storage.calculateEventDuration e = Spec.contribution e) /\
  (forall tz events now, Forall Spec.inRange events ->
     Storage.totalTimeMinutes tz events now
     = Spec.sum (map Spec.contribution events)).
Proof.
  split.
  - exact DurationFacts.calculateEventDuration_spec.
  - intros tz events now Hr. unfold Storage.totalTimeMinutes, Storage.studyTime.
    rewrite DurationFacts.studyTime_total. simpl. f_equal.
    induction Hr as [ | e l He _ IH]; simpl; [reflexivity | ].
    rewrite IH, DurationFacts.calculateEventDuration_spec by exact He. reflexivity.
Qed.

Lemma C1_event_duration_witness :
  Storage.totalTimeMinutes 0 Sample.log Sample.now = 57.
Proof.
  rewrite (proj2 C1_event_duration 0 Sample.log Sample.now).
  - reflexivity.
  - repeat constructor; simpl; lia.
Defined.

(** C1 as stated fails: a [quiz_complete] event that carries the question
    count 0 contributes 2 minutes (base 1 and one more for its text), not 0. *)
Lemma C1_counterexample :
  let e := Sample.quizDone 0 0 0 in
  Storage.calculateEventDuration e = 2 /\ Spec.contributionAsClaimed e = 0 /\
  Storage.totalTimeMinutes 0 [e] 0 <> Spec.sum (map Spec.contributionAsClaimed [e]).
Proof.
  vm_compute. repeat split; discriminate.
Qed.

(** C2: the active days [uniqueDates] are the distinct calendar days of the
    events in ascending order; [longestStreak] is the largest value taken by
    a counter that scans them, growing by 1 when two neighbours differ by at
    most 1.5 days (for calendar days: when they are consecutive days) and
    restarting at 1 otherwise.  Events on the days D, D+1, D+2 and D+4 give
    [longestStreak = 3]. *)
Theorem C2_longest_streak (tz : Z) (events : list StudyEvent) :
  StronglySorted Z.lt (Storage.uniqueDates tz events) /\
  (forall d, In d (Storage.uniqueDates tz events)
             <-> exists e, In e events /\ JSDate.toDateString tz (timestamp e) = d) /\
  Storage.longestStreak tz events = Spec.longestRun (Storage.uniqueDates tz events) /\
  (forall a b, Spec.withinTolerance a b = true <-> b - a <= 1) /\
  (forall D, (forall d, In d (Storage.dates tz events) <-> In d [D; D + 1; D + 2; D + 4]) ->
             Storage.longestStreak tz events = 3).
Proof.
  split; [ apply StreakFacts.uniqueDates_sorted | ].
  split; [ | split; [ apply StreakFacts.longestStreak_scan | split ] ].
  - intros d. rewrite StreakFacts.uniqueDates_In. unfold Storage.dates.
    rewrite in_map_iff. split; intros (e & H1 & H2); exists e; tauto.
  - intros a b. rewrite StreakFacts.withinTolerance_leb. apply Z.leb_le.
  - intros D HD. rewrite StreakFacts.longestStreak_scan.
    rewrite (StreakFacts.uniqueDates_of_days tz events _ (StreakFacts.sorted4 D) HD).
    apply StreakFacts.longestRun_example.
Qed.

Lemma C2_longest_streak_witness : Storage.longestStreak 0 Sample.log = 3.
Proof.
  apply (proj2 (proj2 (proj2 (proj2 (C2_longest_streak 0 Sample.log)))) 19996).
  intros d.
  change (Storage.dates 0 Sample.log)
    with [19996; 19997; 19998; 20000; 20000; 20000; 20000].
  simpl. tauto.
Defined.

(** C3: in a time zone with daylight saving time the code departs from the
    claim.  [currentStreak] takes for yesterday the calendar day of the
    instant 24 hours before [now], while the week strip of the same function
    takes the calendar day before today.  In New York at 00:30 on Monday
    2026-03-09, the day after the clocks went forward, that instant is 23:30
    on Saturday.  With one event on Sunday, the most recent active day is
    yesterday and the week strip marks it as studied, but [currentStreak] is
    0 where the claim gives 1; with one event on Saturday, the most recent
    active day is neither today nor yesterday, but [currentStreak] is 1
    where the claim gives 0. *)
Theorem C3_current_streak :
  let zone := Zone.newYork in
  let now := ZoneNotions.monday0030 in
  let today := Zone.localDay zone now in
  Zone.regular zone /\
  (now = 1773030600000 /\ JSDate.civil today = (2026, 3, 9) /\
   Zone.localDay zone (now - 86400000) = today - 2) /\
  (map timestamp ZoneNotions.sunday = [1772985600000] /\
   Zoned.uniqueDates zone ZoneNotions.sunday = [today - 1] /\
   In {| day := "S"; date := today - 1; studied := true |}
      (Zoned.lastSevenDays zone ZoneNotions.sunday now) /\
   Spec.currentRun today (Zoned.uniqueDates zone ZoneNotions.sunday) = 1 /\
   Zoned.currentStreak zone ZoneNotions.sunday now = 0) /\
  (map timestamp ZoneNotions.saturday = [1772902800000] /\
   Zoned.uniqueDates zone ZoneNotions.saturday = [today - 2] /\
   Spec.currentRun today (Zoned.uniqueDates zone ZoneNotions.saturday) = 0 /\
   Zoned.currentStreak zone ZoneNotions.saturday now = 1).
Proof.
  cbv zeta. split; [ apply ZoneFacts.newYork_regular | ].
  split; [ repeat split; vm_compute; reflexivity | ].
  split.
  - split; [ reflexivity | split; [ reflexivity | split ] ].
    + do 5 right. left. vm_compute. reflexivity.
    + split; vm_compute; reflexivity.
  - repeat split; vm_compute; reflexivity.
Qed.

(** C4 (as amended): with [S_total] and [S_correct] the sums of
    [quizTotalQuestions] and [quizCorrectAnswers] over the [quiz_complete]
    events (a missing field counting 0), [quizAccuracy] is 0 when [S_total] is
    0 (no division takes place); otherwise it is [Math.round] of the binary64
    product [(S_correct / S_total) * 100], which is [round(100 * S_correct /
    S_total)] whenever that percentage is not exactly half-way between two
    integers, and one of the two neighbouring integers when it is.  Two
    [quiz_complete] events [{total:5, correct:4}] and [{total:10, correct:6}]
    give 67. *)
Theorem C4_quiz_accuracy (events : list StudyEvent) :
  (Spec.S_total events <= 0 -> Storage.quizAccuracy events = 0) /\
  (0 < Spec.S_total events ->
     Storage.quizAccuracy events
     = JSNumber.Math_round
         (JSNumber.fl (JSNumber.fl (inject_Z (Spec.S_correct events)
                                    / inject_Z (Spec.S_total events)) * 100))) /\
  (0 < Spec.S_total events -> 0 <= Spec.S_correct events <= 2 ^ 43 ->
     (~ Spec.halfway (Spec.S_correct events) (Spec.S_total events) ->
        Storage.quizAccuracy events = Spec.quizAccuracyAsClaimed events) /\
     (Spec.halfway (Spec.S_correct events) (Spec.S_total events) ->
        Storage.quizAccuracy events = Spec.quizAccuracyAsClaimed events \/
        Storage.quizAccuracy events = Spec.quizAccuracyAsClaimed events - 1)) /\
  (forall t1 t2, Storage.quizAccuracy [Sample.quizDone t1 5 4; Sample.quizDone t2 10 6] = 67).
Proof.
  unfold Storage.quizAccuracy.
  rewrite AccuracyFacts.totalQuizQuestions_spec, AccuracyFacts.totalQuizCorrect_spec.
  split; [ | split; [ | split ] ].
  - intros H. destruct (0 <? Spec.S_total events) eqn:E; [ apply Z.ltb_lt in E; lia | reflexivity ].
  - intros H. apply Z.ltb_lt in H. rewrite H. reflexivity.
  - intros Ht Hc. unfold Spec.quizAccuracyAsClaimed.
    destruct (Spec.S_total events =? 0) eqn:E0; [ apply Z.eqb_eq in E0; lia | ].
    destruct (0 <? Spec.S_total events) eqn:E; [ | apply Z.ltb_ge in E; lia ].
    exact (AccuracyFacts.percent_round _ _ Hc Ht).
  - intros t1 t2. vm_compute. reflexivity.
Qed.

Lemma C4_quiz_accuracy_witness :
  Storage.quizAccuracy Sample.log = Spec.quizAccuracyAsClaimed Sample.log.
Proof.
  apply (proj1 (proj2 (proj2 (C4_quiz_accuracy Sample.log)))).
  - vm_compute. reflexivity.
  - vm_compute. split; discriminate.
  - vm_compute. discriminate.
Defined.

(** C4 as stated fails: 29 correct answers out of 200 are exactly 14.5 %, but
    the binary64 quotient is just below 0.145 and the code reports 14. *)
Lemma C4_counterexample :
  Storage.quizAccuracy [Sample.quizDone 0 200 29] = 14 /\
  Spec.quizAccuracyAsClaimed [Sample.quizDone 0 200 29] = 15.
Proof.
  split; vm_compute; reflexivity.
Qed.

(** C5 (as amended): for logs whose optional numeric fields are non-negative,
    [quizAccuracy] lies in [0, 100] when the correct answers do not exceed the
    questions in total, and [examAverageAccuracy] lies in [0, 100] when no
    exam score exceeds its total marks (taken as 1 when absent or 0) and the
    log has at most 2^32 events.  No division by zero takes place: the exam
    divisor is never 0, and without questions, or without exams, the result
    is 0. *)
Theorem C5_accuracy_range (events : list StudyEvent) :
  Forall Spec.nonNegativeFields events ->
  (Spec.S_correct events <= Spec.S_total events ->
     0 <= Storage.quizAccuracy events <= 100) /\
  (Z.of_nat (List.length events) <= 2 ^ 32 ->
   Forall Spec.scoreWithinMarks events ->
     0 <= Storage.examAverageAccuracy events <= 100) /\
  (forall e, Storage.orElse (exam_total_marks e) 1 <> 0) /\
  (Spec.S_total events = 0 -> Storage.quizAccuracy events = 0) /\
  (Storage.examCompletions events = [] -> Storage.examAverageAccuracy events = 0).
Proof.
  intros Hnn. split; [ | split; [ | split; [ | split ] ] ].
  - intros H. apply AccuracyFacts.quizAccuracy_bounds. split; [ | assumption ].
    apply AccuracyFacts.S_correct_nonneg. exact Hnn.
  - intros Hlen Hs. apply AccuracyFacts.examAverageAccuracy_bounds; [ assumption | ].
    apply AccuracyFacts.examOk_completions; assumption.
  - intros e. apply AccuracyFacts.orElse_nonzero. discriminate.
  - intros H. unfold Storage.quizAccuracy.
    rewrite AccuracyFacts.totalQuizQuestions_spec, H. reflexivity.
  - intros H. unfold Storage.examAverageAccuracy, Storage.totalExamsTaken.
    rewrite H. reflexivity.
Qed.

Lemma C5_accuracy_range_witness :
  0 <= Storage.quizAccuracy Sample.log <= 100 /\
  0 <= Storage.examAverageAccuracy Sample.log <= 100.
Proof.
  assert (Hnn : Forall Spec.nonNegativeFields Sample.log).
  { repeat constructor; simpl; lia. }
  split.
  - apply (proj1 (C5_accuracy_range Sample.log Hnn)). vm_compute. discriminate.
  - apply (proj1 (proj2 (C5_accuracy_range Sample.log Hnn))).
    + vm_compute. discriminate.
    + repeat constructor; intros H; vm_compute in H |- *; discriminate.
Defined.

(** C5 as stated fails: all fields are non-negative, yet 6 correct answers of
    5 give 120 %, and an exam scored 25 out of 20 gives 125 %. *)
Lemma C5_counterexample :
  Forall Spec.nonNegativeFields [Sample.quizDone 0 5 6; Sample.examDone 0 25 20] /\
  Storage.quizAccuracy [Sample.quizDone 0 5 6; Sample.examDone 0 25 20] = 120 /\
  Storage.examAverageAccuracy [Sample.quizDone 0 5 6; Sample.examDone 0 25 20] = 125.
Proof.
  split; [ repeat constructor; simpl; lia | split; vm_compute; reflexivity ].
Qed.

(** C6 (as amended): [sessionsThisWeek] is the number of [create_session]
    events whose timestamp is later than [now - 7 * 24 h]: an event counts
    exactly when its action type is [create_session] and
    [now - 7 * 24 h < timestamp]; there is no upper bound, so for a log without
    events later than [now] this is the window [now - 7 * 24 h < timestamp <= now]. *)
Theorem C6_sessions_this_week (now : Z) :
  Storage.sessionsThisWeek [] now = 0 /\
  (forall l1 l2 e,
     Storage.sessionsThisWeek (l1 ++ e :: l2) now
     = Storage.sessionsThisWeek (l1 ++ l2) now
       + (if Spec.isCreateSession e && (now - 7 * 24 * 60 * 60 * 1000 <? timestamp e)
          then 1 else 0)) /\
  (forall events,
     Storage.sessionsThisWeek events now = Spec.tally (Spec.afterOneWeekAgo now) events) /\
  (forall events,
     (forall e, In e events -> timestamp e <= now) ->
     Storage.sessionsThisWeek events now
     = Spec.tally (Spec.inTrailingWeekAsClaimed now) events).
Proof.
  split; [ reflexivity | split; [ | split ] ].
  - intros l1 l2 e. rewrite !CountFacts.sessionsThisWeek_count.
    exact (CountFacts.count_insert (Spec.afterOneWeekAgo now) l1 l2 e).
  - intros events. apply CountFacts.sessionsThisWeek_count.
  - intros events Hle. rewrite CountFacts.sessionsThisWeek_count.
    apply CountFacts.count_ext_in. intros e He.
    unfold Spec.inTrailingWeekAsClaimed, Spec.afterOneWeekAgo.
    specialize (Hle e He). apply Z.leb_le in Hle. rewrite Hle, andb_true_r. reflexivity.
Qed.

Lemma C6_sessions_this_week_witness :
  Storage.sessionsThisWeek Sample.log Sample.now
  = Spec.tally (Spec.inTrailingWeekAsClaimed Sample.now) Sample.log.
Proof.
  apply (proj2 (proj2 (proj2 (C6_sessions_this_week Sample.now)))).
  intros e He. simpl in He.
  repeat (destruct He as [He | He]; [ subst e; vm_compute; discriminate | ]).
  contradiction.
Defined.

(** C6 as stated fails: a [create_session] event stamped one millisecond
    after [now] is counted although it lies outside the window ending at
    [now]. *)
Lemma C6_counterexample :
  let e := Sample.event create_session 1 0 [] in
  Storage.sessionsThisWeek [e] 0 = 1 /\
  Spec.inTrailingWeekAsClaimed 0 e = false /\
  Spec.tally (Spec.inTrailingWeekAsClaimed 0) [e] = 0.
Proof.
  vm_compute. repeat split.
Qed.

(** C7: for the empty log and any [now] (in any time zone) the computation
    returns a result, whose session counts, time estimates, quiz and exam
    statistics, accuracies and streaks are all 0, whose [lastSevenDays] has 7
    entries, none of them studied, and whose [topTopics] is empty. *)
Theorem C7_empty_log (tz now : Z) :
  exists days,
    Storage.getUserStats tz [] now
    = Some {| totalSessions := 0; sessionsToday := 0; sessionsThisWeek := 0;
              sessionsThisMonth := 0; totalTimeMinutes := 0; studyTimeToday := 0;
              studyTimeThisWeek := 0; quizzesGenerated := 0; currentStreak := 0;
              longestStreak := 0; lastSevenDays := days; quizAccuracy := 0;
              totalQuizQuestions := 0; totalQuizCorrect := 0; totalQuizzesTaken := 0;
              totalExamsTaken := 0; examAverageAccuracy := 0; examAverageScore := 0%Q;
              examBestScore := 0; topTopics := [] |} /\
    List.length days = 7%nat /\
    Forall (fun d => studied d = false) days.
Proof.
  eexists. split; [ reflexivity | split; [ reflexivity | ] ].
  repeat constructor.
Qed.




(** C10 (as amended): when no trimmed, lowercased keyword is ["constructor"]
    or ["__proto__"], [topTopics] is the first (up to) 5 entries of the
    ranking of all distinct non-empty trimmed, lowercased keywords with their
    counts, by descending count, where keywords of equal count appear in the
    enumeration order of the counter object: the keywords that are array
    indices (canonical decimal integers such as ["2024"]) first, in ascending
    numeric order, then the other keywords in first-seen order.  This
    determines the ranking.  Without array-index keywords the ties are in
    first-seen order. *)
Theorem C10_top_topics (events : list StudyEvent) :
  Forall Spec.plainKey (Spec.keywords events) ->
  exists idx ranking,
    let kws := Spec.keywords events in
    let order := idx ++ filter (fun k => negb (JSObject.isIndex k)) (Spec.firstSeen kws) in
    Permutation idx (filter JSObject.isIndex (Spec.firstSeen kws)) /\
    StronglySorted (fun a b => JSObject.indexOf a < JSObject.indexOf b) idx /\
    Permutation order (Spec.firstSeen kws) /\
    Spec.rankedBy order kws ranking /\
    (forall r, Spec.rankedBy order kws r -> r = ranking) /\
    Storage.topTopics events = Some (firstn 5 ranking) /\
    (filter JSObject.isIndex (Spec.firstSeen kws) = [] ->
     Spec.rankedBy (Spec.firstSeen kws) kws ranking).
Proof.
  intros Hplain.
  set (kws := Spec.keywords events) in *.
  exists (JSArray.sort Derived.byIndex (filter JSObject.isIndex (Spec.firstSeen kws))).
  exists (JSArray.sort Derived.byCount
            (Spec.entriesOf (Derived.enumeration (Spec.firstSeen kws)) kws)).
  cbv zeta. fold kws.
  assert (Hperm : Permutation
                    (JSArray.sort Derived.byIndex (filter JSObject.isIndex (Spec.firstSeen kws)))
                    (filter JSObject.isIndex (Spec.firstSeen kws)))
    by apply SortFacts.sort_perm.
  split; [ exact Hperm | ].
  split.
  { apply TopicFacts.sorted_index_strict.
    - eapply Permutation_NoDup; [ apply Permutation_sym, Hperm | ].
      apply NoDup_filter, TopicFacts.firstSeen_NoDup.
    - eapply Permutation_Forall; [ apply Permutation_sym, Hperm | ].
      apply Forall_forall. intros k Hk. apply filter_In in Hk. tauto.
    - exact (SortFacts.sort_sorted _ JSObject.indexOf TopicFacts.byIndex_key _). }
  split.
  { eapply Permutation_trans; [ | apply TopicFacts.filter_partition_perm ].
    apply Permutation_app_tail. exact Hperm. }
  split; [ apply TopicFacts.sort_rankedBy | ].
  split.
  { intros r Hr. eapply TopicFacts.rankedBy_unique; [ exact Hr | apply TopicFacts.sort_rankedBy ]. }
  split; [ apply TopicFacts.topTopics_plain; exact Hplain | ].
  intros Hnone.
  rewrite (TopicFacts.enumeration_plain _ Hnone). apply TopicFacts.sort_rankedBy.
Qed.

Lemma C10_top_topics_witness :
  exists ranking, Storage.topTopics Sample.log = Some (firstn 5 ranking).
Proof.
  destruct (C10_top_topics Sample.log) as (idx & ranking & _ & _ & _ & _ & _ & H & _).
  - repeat constructor; discriminate.
  - exists ranking. exact H.
Defined.

(** C10 as stated fails: for the keywords ["react"] and ["2024"] of one event,
    both counted once, the result lists ["2024"] before ["react"], although
    ["react"] is seen first. *)
Lemma C10_counterexample :
  let events := [Sample.event chat 0 0 ["react"; "2024"]]%string in
  Storage.topTopics events
  = Some [ {| topic := "2024"; count := 1 |}; {| topic := "react"; count := 1 |} ] /\
  Spec.firstSeen (Spec.keywords events) = ["react"; "2024"]%string /\
  ~ (exists ranking,
       Spec.rankedBy (Spec.firstSeen (Spec.keywords events)) (Spec.keywords events) ranking /\
       Storage.topTopics events = Some (firstn 5 ranking)).
Proof.
  split; [ reflexivity | split; [ reflexivity | ] ].
  intros (ranking & (Hperm & _ & Hst) & Htop).
  apply Permutation_length in Hperm.
  destruct ranking as [ | a [ | b [ | c r ] ] ]; try discriminate Hperm.
  specialize (Hst 1). vm_compute in Htop. injection Htop as <- <-.
  vm_compute in Hst. discriminate Hst.
Qed.

(* ======================================================================== *)
(** * The rest of the code: lemmas *)

(* ------------------------------------------------------------------------ *)
(** ** Keyword extraction *)

Module KeywordFacts.
Import StorageLog Notions.

Section Distinct.
Context {A : Type}.
Variable eqb : A -> A -> bool.
Hypothesis eqb_spec : forall x y, eqb x y = true <-> x = y.

Lemma existsb_eqb (x : A) (l : list A) : existsb (eqb x) l = true <-> In x l.
Proof.
  rewrite existsb_exists. split.
  - intros (y & Hy & E). apply eqb_spec in E. subst. exact Hy.
  - intros H. exists x. split; [ exact H | apply eqb_spec; reflexivity ].
Qed.

Lemma distinct_In (seen l : list A) (x : A) :
  In x (JSArray.distinctFrom eqb seen l) <-> In x l /\ ~ In x seen.
Proof.
  revert seen. induction l as [ | y ys IH]; intros seen; simpl; [ tauto | ].
  destruct (existsb (eqb y) seen) eqn:E.
  - apply existsb_eqb in E. rewrite IH. split; [ tauto | ].
    intros [[-> | H] Hn]; [ contradiction | tauto ].
  - assert (Hy : ~ In y seen).
    { intros Hin. apply existsb_eqb in Hin. congruence. }
    simpl. rewrite IH. simpl. split.
    + intros [-> | [H1 H2]]; tauto.
    + intros [[-> | H1] H2]; [ tauto | ].
      destruct (existsb (eqb y) [x]) eqn:Ex.
      * simpl in Ex. rewrite orb_false_r in Ex. apply eqb_spec in Ex. tauto.
      * right. split; [ exact H1 | ]. intros [-> | H]; [ | tauto ].
        simpl in Ex. rewrite orb_false_r in Ex.
        assert (eqb x x = true) by (apply eqb_spec; reflexivity). congruence.
Qed.

Lemma distinct_NoDup (seen l : list A) : NoDup (JSArray.distinctFrom eqb seen l).
Proof.
  revert seen. induction l as [ | y ys IH]; intros seen; simpl; [ constructor | ].
  destruct (existsb (eqb y) seen); [ apply IH | ].
  constructor; [ | apply IH ]. rewrite distinct_In. simpl. tauto.
Qed.

Lemma set_In (l : list A) (x : A) : In x (JSArray.fromSet eqb l) <-> In x l.
Proof. unfold JSArray.fromSet. rewrite distinct_In. simpl. tauto. Qed.

End Distinct.

Lemma firstn_In {A : Type} (n : nat) (l : list A) (x : A) : In x (firstn n l) -> In x l.
Proof.
  intros H. rewrite <- (firstn_skipn n l). apply in_or_app. left. exact H.
Qed.

Lemma string_eqb_spec (x y : string) : String.eqb x y = true <-> x = y.
Proof. apply String.eqb_eq. Qed.

(** *** Characters *)

Lemma allChars_impl (p q : ascii -> bool) (s : string) :
  (forall c, p c = true -> q c = true) -> allChars p s = true -> allChars q s = true.
Proof.
  intros H. induction s as [ | c s IH]; simpl; [ reflexivity | ].
  intros E. apply andb_prop in E. destruct E as [E1 E2].
  rewrite (H c E1), (IH E2). reflexivity.
Qed.

Lemma allChars_app (p : ascii -> bool) (s t : string) :
  allChars p (s ++ t) = allChars p s && allChars p t.
Proof.
  induction s as [ | c s IH]; simpl; [ reflexivity | ]. rewrite IH, andb_assoc. reflexivity.
Qed.

Lemma allChars_filterChars (p q : ascii -> bool) (s : string) :
  allChars q s = true -> allChars (fun c => p c && q c) (JSString.filterChars p s) = true.
Proof.
  induction s as [ | c s IH]; simpl; [ reflexivity | ].
  intros E. apply andb_prop in E. destruct E as [E1 E2].
  destruct (p c) eqn:Ep; simpl; [ rewrite Ep, E1, (IH E2); reflexivity | exact (IH E2) ].
Qed.

Lemma lowerChar_not_upper (c : ascii) : JSString.isUpperChar (JSString.lowerChar c) = false.
Proof.
  unfold JSString.lowerChar.
  destruct ((65 <=? nat_of_ascii c)%nat && (nat_of_ascii c <=? 90)%nat) eqn:E.
  - apply andb_prop in E. destruct E as [E1 E2]. apply Nat.leb_le in E1, E2.
    unfold JSString.isUpperChar. rewrite nat_ascii_embedding by lia.
    apply andb_false_iff. right. apply Nat.leb_gt. lia.
  - exact E.
Qed.

Lemma toLowerCase_not_upper (s : string) :
  allChars (fun c => negb (JSString.isUpperChar c)) (JSString.toLowerCase s) = true.
Proof.
  induction s as [ | c s IH]; simpl; [ reflexivity | ].
  rewrite lowerChar_not_upper, IH. reflexivity.
Qed.

Lemma wordChar_not_space (c : ascii) :
  JSString.isWordChar c = true -> JSString.isWhiteSpace c = false.
Proof.
  unfold JSString.isWordChar, JSString.isWhiteSpace. intros H.
  repeat (apply orb_prop in H; destruct H as [H | H]);
    try (apply andb_prop in H; destruct H as [H1 H2]; apply Nat.leb_le in H1, H2);
    try apply Nat.eqb_eq in H;
    apply orb_false_iff; split;
    try (apply andb_false_iff; left; apply Nat.leb_gt; lia);
    try (apply andb_false_iff; right; apply Nat.leb_gt; lia);
    try (apply Nat.eqb_neq; lia).
Qed.

(** The pieces of a split contain no white space. *)
Lemma splitFrom_pieces (q : ascii -> bool) (s cur : string) (skipping : bool) :
  allChars q s = true ->
  allChars (fun c => q c && negb (JSString.isWhiteSpace c)) cur = true ->
  Forall (fun t => allChars (fun c => q c && negb (JSString.isWhiteSpace c)) t = true)
         (JSString.splitFrom s cur skipping).
Proof.
  revert cur skipping. induction s as [ | c s IH]; intros cur skipping Hs Hc; simpl.
  - constructor; [ exact Hc | constructor ].
  - simpl in Hs. apply andb_prop in Hs. destruct Hs as [Hq Hs].
    destruct (JSString.isWhiteSpace c) eqn:Ew.
    + destruct skipping; [ apply IH; [ exact Hs | reflexivity ] | ].
      constructor; [ exact Hc | apply IH; [ exact Hs | reflexivity ] ].
    + apply IH; [ exact Hs | ]. rewrite allChars_app, Hc. simpl. rewrite Hq, Ew. reflexivity.
Qed.

Lemma extractKeywords_words (text : string) :
  Forall (fun t => allChars isKeywordChar t = true)
         (JSString.splitWhiteSpace (JSString.removeNonWordSpace (JSString.toLowerCase text))).
Proof.
  unfold JSString.splitWhiteSpace, JSString.removeNonWordSpace.
  pose proof (allChars_filterChars (fun c => JSString.isWordChar c || JSString.isWhiteSpace c)
                _ _ (toLowerCase_not_upper text)) as H.
  apply (splitFrom_pieces _ _ EmptyString false) in H; [ | reflexivity ].
  eapply Forall_impl; [ | exact H ]. intros t. apply allChars_impl. intros c Hc.
  unfold isKeywordChar. apply andb_prop in Hc. destruct Hc as [Hc Hw].
  apply andb_prop in Hc. destruct Hc as [Hc Hu]. rewrite Hu, andb_true_r.
  apply orb_prop in Hc. destruct Hc as [Hc | Hc]; [ exact Hc | ].
  rewrite Hc in Hw. discriminate.
Qed.

Lemma extractKeywords_shape (text : string) :
  Forall keywordShape (extractKeywords text).
Proof.
  unfold extractKeywords. destruct (negb (JSString.truthy text)); [ constructor | ].
  apply Forall_forall. intros k Hk. unfold JSArray.slice0 in Hk.
  apply firstn_In in Hk. apply (proj1 (set_In String.eqb string_eqb_spec _ _)) in Hk.
  apply filter_In in Hk. destruct Hk as [Hk Hf].
  apply andb_prop in Hf. destruct Hf as [Hlen Hstop].
  pose proof (extractKeywords_words text) as Hw. rewrite Forall_forall in Hw.
  split; [ apply Z.ltb_lt; exact Hlen | split; [ | apply Hw; exact Hk ] ].
  intros Hin. apply (existsb_eqb String.eqb string_eqb_spec) in Hin.
  rewrite Hin in Hstop. discriminate.
Qed.

Lemma extractKeywords_NoDup (text : string) : NoDup (extractKeywords text).
Proof.
  unfold extractKeywords. destruct (negb (JSString.truthy text)); [ constructor | ].
  unfold JSArray.slice0, JSArray.fromSet.
  set (l := JSArray.distinctFrom _ _ _).
  assert (Hnd : NoDup l) by apply (distinct_NoDup String.eqb string_eqb_spec).
  rewrite <- (firstn_skipn 5 l) in Hnd. apply NoDup_app_remove_r in Hnd. exact Hnd.
Qed.

Lemma extractKeywords_length (text : string) : (List.length (extractKeywords text) <= 5)%nat.
Proof.
  unfold extractKeywords. destruct (negb (JSString.truthy text)); [ simpl; lia | ].
  apply firstn_le_length.
Qed.

(** *** Keywords are already normalized *)

Lemma trimStart_id (s : string) :
  allChars (fun c => negb (JSString.isWhiteSpace c)) s = true -> JSString.trimStart s = s.
Proof.
  destruct s as [ | c s]; [ reflexivity | ]. simpl. intros H.
  apply andb_prop in H. destruct H as [H _]. destruct (JSString.isWhiteSpace c); [ discriminate | reflexivity ].
Qed.

Lemma trimEnd_id (s : string) :
  allChars (fun c => negb (JSString.isWhiteSpace c)) s = true -> JSString.trimEnd s = s.
Proof.
  induction s as [ | c s IH]; [ reflexivity | ]. simpl. intros H.
  apply andb_prop in H. destruct H as [Hc Hs]. rewrite (IH Hs).
  destruct s; [ destruct (JSString.isWhiteSpace c); [ discriminate | reflexivity ] | reflexivity ].
Qed.

Lemma toLowerCase_id (s : string) :
  allChars (fun c => negb (JSString.isUpperChar c)) s = true -> JSString.toLowerCase s = s.
Proof.
  induction s as [ | c s IH]; [ reflexivity | ]. simpl. intros H.
  apply andb_prop in H. destruct H as [Hc Hs]. rewrite (IH Hs). f_equal.
  unfold JSString.lowerChar. unfold JSString.isUpperChar in Hc.
  destruct ((65 <=? nat_of_ascii c)%nat && (nat_of_ascii c <=? 90)%nat); [ discriminate | reflexivity ].
Qed.

Lemma keyword_normalized (k : string) :
  keywordShape k -> Spec.normalize k = k /\ JSString.truthy k = true.
Proof.
  intros (Hlen & _ & Hc). split.
  - unfold Spec.normalize, JSString.trim.
    assert (Hw : allChars (fun c => negb (JSString.isWhiteSpace c)) k = true).
    { eapply allChars_impl; [ | exact Hc ]. intros c H. unfold isKeywordChar in H.
      apply andb_prop in H. destruct H as [H _]. rewrite (wordChar_not_space c H). reflexivity. }
    rewrite (trimStart_id k Hw), (trimEnd_id k Hw). apply toLowerCase_id.
    eapply allChars_impl; [ | exact Hc ]. intros c H. unfold isKeywordChar in H.
    apply andb_prop in H. tauto.
  - destruct k; [ unfold JSString.length in Hlen; simpl in Hlen; lia | reflexivity ].
Qed.

Lemma keywords_of_logged (events : list StudyEvent) :
  (forall e, In e events -> exists text, topic_keywords e = Some (extractKeywords text)) ->
  Spec.keywords events = flat_map Spec.keywordsOf events.
Proof.
  intros H. unfold Spec.keywords.
  assert (Hs : Forall keywordShape (flat_map Spec.keywordsOf events)).
  { apply Forall_forall. intros k Hk. apply in_flat_map in Hk. destruct Hk as (e & He & Hk).
    destruct (H e He) as (text & Ht). unfold Spec.keywordsOf in Hk. rewrite Ht in Hk.
    pose proof (extractKeywords_shape text) as Hsh. rewrite Forall_forall in Hsh. auto. }
  induction Hs as [ | k l Hk _ IH]; [ reflexivity | ].
  cbn [map filter]. destruct (keyword_normalized k Hk) as [-> ->]. f_equal. exact IH.
Qed.
End KeywordFacts.

(* ------------------------------------------------------------------------ *)
(** ** Independence of the order of the log *)

Module OrderFacts.
Import Storage.

Lemma filter_length_perm {A : Type} (f : A -> bool) (l l' : list A) :
  Permutation l l' -> JSArray.length (filter f l) = JSArray.length (filter f l').
Proof.
  intros H. unfold JSArray.length. f_equal.
  induction H as [ | x l l' _ IH | x y l | l l' l'' _ IH1 _ IH2]; simpl.
  - reflexivity.
  - destruct (f x); simpl; congruence.
  - destruct (f x), (f y); reflexivity.
  - congruence.
Qed.

Lemma filter_perm {A : Type} (f : A -> bool) (l l' : list A) :
  Permutation l l' -> Permutation (filter f l) (filter f l').
Proof.
  intros H.
  induction H as [ | x l l' _ IH | x y l | l l' l'' _ IH1 _ IH2]; simpl.
  - constructor.
  - destruct (f x); [ constructor; exact IH | exact IH ].
  - destruct (f x), (f y); try reflexivity. constructor.
  - etransitivity; eassumption.
Qed.

Lemma fold_left_perm {A B : Type} (f : A -> B -> A) (l l' : list B) :
  (forall a x y, f (f a x) y = f (f a y) x) ->
  Permutation l l' -> forall a, fold_left f l a = fold_left f l' a.
Proof.
  intros Hc H.
  induction H as [ | x l l' _ IH | x y l | l l' l'' _ IH1 _ IH2]; intros a; simpl.
  - reflexivity.
  - apply IH.
  - rewrite Hc. reflexivity.
  - rewrite IH1. apply IH2.
Qed.

Lemma existsb_perm {A : Type} (f : A -> bool) (l l' : list A) :
  Permutation l l' -> existsb f l = existsb f l'.
Proof.
  intros H.
  induction H as [ | x l l' _ IH | x y l | l l' l'' _ IH1 _ IH2]; simpl.
  - reflexivity.
  - rewrite IH. reflexivity.
  - destruct (f x), (f y); reflexivity.
  - congruence.
Qed.

Lemma studyTimeStep_comm (tz now : Z) (a : StudyTime) (x y : StudyEvent) :
  studyTimeStep tz now (studyTimeStep tz now a x) y
  = studyTimeStep tz now (studyTimeStep tz now a y) x.
Proof.
  unfold studyTimeStep. cbn [st_total st_today st_week].
  destruct (dateOf tz x =? todayStr tz now), (dateOf tz y =? todayStr tz now),
           (oneWeekAgo now <? timestamp x), (oneWeekAgo now <? timestamp y);
    f_equal; lia.
Qed.

Lemma studyTime_perm (tz now : Z) (events events' : list StudyEvent) :
  Permutation events events' -> studyTime tz events now = studyTime tz events' now.
Proof.
  intros H. unfold studyTime. apply fold_left_perm; [ | exact H ].
  intros a x y. apply studyTimeStep_comm.
Qed.

Lemma quizTotals_perm (events events' : list StudyEvent) :
  Permutation events events' -> quizTotals events = quizTotals events'.
Proof.
  intros H. unfold quizTotals, quizCompletions. apply fold_left_perm.
  - intros [a b] x y. f_equal; lia.
  - apply filter_perm. exact H.
Qed.

Lemma examBest_fold (l : list StudyEvent) (a : ExamAcc) :
  examBest (fold_left examStep l a) = fold_left (fun b e => if b <? orElse (exam_score e) 0 then orElse (exam_score e) 0 else b)
              l (examBest a).
Proof.
  revert a. induction l as [ | e l IH]; intros a; simpl; [ reflexivity | ].
  rewrite IH. reflexivity.
Qed.

Lemma examBestScore_perm (events events' : list StudyEvent) :
  Permutation events events' -> examBestScore events = examBestScore events'.
Proof.
  intros H. unfold examBestScore, examAcc. rewrite !examBest_fold.
  apply fold_left_perm.
  - intros a x y. cbv beta.
    destruct (a <? orElse (exam_score x) 0) eqn:E1, (a <? orElse (exam_score y) 0) eqn:E2;
      repeat match goal with
             | |- context [?u <? ?v] => destruct (Z.ltb_spec u v)
             | H : (_ <? _) = true |- _ => apply Z.ltb_lt in H
             | H : (_ <? _) = false |- _ => apply Z.ltb_ge in H
             end; lia.
  - unfold examCompletions. apply filter_perm. exact H.
Qed.

Lemma uniqueDates_perm (tz : Z) (events events' : list StudyEvent) :
  Permutation events events' -> uniqueDates tz events = uniqueDates tz events'.
Proof.
  intros H. apply StreakFacts.uniqueDates_of_days.
  - apply StreakFacts.uniqueDates_sorted.
  - intros d. rewrite StreakFacts.uniqueDates_In. unfold dates.
    split; intros Hd; apply in_map_iff in Hd; destruct Hd as (e & He & Hin);
      apply in_map_iff; exists e; (split; [ exact He | ]).
    + eapply Permutation_in; [ exact H | exact Hin ].
    + eapply Permutation_in; [ symmetry; exact H | exact Hin ].
Qed.

Lemma longestStreak_perm (tz : Z) (events events' : list StudyEvent) :
  Permutation events events' -> longestStreak tz events = longestStreak tz events'.
Proof.
  intros H. rewrite !StreakFacts.longestStreak_scan, (uniqueDates_perm tz _ _ H). reflexivity.
Qed.

Lemma currentStreak_perm (tz now : Z) (events events' : list StudyEvent) :
  Permutation events events' -> currentStreak tz events now = currentStreak tz events' now.
Proof.
  intros H. rewrite !StreakFacts.currentStreak_walk, (uniqueDates_perm tz _ _ H). reflexivity.
Qed.

Lemma lastSevenDays_perm (tz now : Z) (events events' : list StudyEvent) :
  Permutation events events' -> lastSevenDays tz events now = lastSevenDays tz events' now.
Proof.
  intros H. unfold lastSevenDays. apply map_ext. intros i.
  rewrite (existsb_perm _ _ _ H). reflexivity.
Qed.

Lemma sessionCreates_perm (events events' : list StudyEvent) :
  Permutation events events' -> Permutation (sessionCreates events) (sessionCreates events').
Proof. apply filter_perm. Qed.

End OrderFacts.

(* ------------------------------------------------------------------------ *)
(** ** Counters and their time windows *)

Module BucketFacts.
Import Storage JSNumber.

Lemma length_filter_le {A : Type} (f : A -> bool) (l : list A) :
  0 <= JSArray.length (filter f l) <= JSArray.length l.
Proof.
  unfold JSArray.length. pose proof (filter_length_le f l). lia.
Qed.

Lemma length_filter_impl {A : Type} (f g : A -> bool) (l : list A) :
  (forall x, In x l -> f x = true -> g x = true) ->
  JSArray.length (filter f l) <= JSArray.length (filter g l).
Proof.
  unfold JSArray.length. induction l as [ | x l IH]; intros H; simpl; [ lia | ].
  assert (IH' := IH (fun y Hy => H y (or_intror Hy))).
  pose proof (H x (or_introl eq_refl)) as Hx.
  destruct (f x); [ rewrite (Hx eq_refl) | destruct (g x) ]; simpl; lia.
Qed.

(** An instant of today's calendar day is less than a day away from now. *)
Lemma same_day_recent (tz now t : Z) :
  JSDate.toDateString tz t = JSDate.toDateString tz now -> now - JSDate.msPerDay < t.
Proof.
  unfold JSDate.toDateString, JSDate.msPerDay, JSDate.DateString. intros H.
  pose proof (Z.div_mod (t + tz) 86400000 ltac:(lia)) as H1.
  pose proof (Z.div_mod (now + tz) 86400000 ltac:(lia)) as H2.
  pose proof (Z.mod_pos_bound (t + tz) 86400000 ltac:(lia)).
  pose proof (Z.mod_pos_bound (now + tz) 86400000 ltac:(lia)).
  rewrite H in H1. lia.
Qed.

Lemma today_in_week (tz now : Z) (e : StudyEvent) :
  (dateOf tz e =? todayStr tz now) = true -> (oneWeekAgo now <? timestamp e) = true.
Proof.
  intros H. apply Z.eqb_eq in H. apply same_day_recent in H.
  apply Z.ltb_lt. unfold oneWeekAgo. unfold JSDate.msPerDay in H. lia.
Qed.

Lemma today_in_month (tz now : Z) (e : StudyEvent) :
  (dateOf tz e =? todayStr tz now) = true ->
  (JSDate.getMonth tz (timestamp e) =? currentMonth tz now)
  && (JSDate.getFullYear tz (timestamp e) =? currentYear tz now) = true.
Proof.
  intros H. apply Z.eqb_eq in H. unfold dateOf, todayStr in H.
  unfold currentMonth, currentYear, JSDate.getMonth, JSDate.getFullYear.
  rewrite H, !Z.eqb_refl. reflexivity.
Qed.

Lemma type_counts (events : list StudyEvent) :
  totalSessions events + quizzesGenerated events + totalQuizzesTaken events
  + totalExamsTaken events <= JSArray.length events.
Proof.
  unfold totalSessions, quizzesGenerated, totalQuizzesTaken, totalExamsTaken,
    sessionCreates, quizCompletions, examCompletions, JSArray.length.
  induction events as [ | e l IH]; [ simpl; lia | ].
  cbn [filter]. destruct (action_type e); cbn [ActivityType_eqb List.length]; lia.
Qed.

(** *** Durations *)

Lemma fl_nonneg (x : Q) : (0 <= x)%Q -> (0 <= fl x)%Q.
Proof.
  intros H. apply (AccuracyFacts.fl_ge_Z x 0); [ simpl; lia | exact H ].
Qed.

Lemma fl_ge_1 (x : Q) : (1 <= x)%Q -> (1 <= fl x)%Q.
Proof.
  intros H. apply (AccuracyFacts.fl_ge_Z x 1); [ simpl; lia | exact H ].
Qed.

Lemma inject_Z_ge_1 (m : Z) : 1 <= m -> (1 <= inject_Z m)%Q.
Proof. intros H. change 1%Q with (inject_Z 1). rewrite <- Zle_Qle. exact H. Qed.

Lemma duration_pos (e : StudyEvent) :
  Spec.nonNegative (quiz_total_questions e) -> Spec.nonNegative (exam_total_marks e) ->
  1 <= calculateEventDuration e.
Proof.
  intros Hq Hx. unfold calculateEventDuration.
  destruct (ActivityType_eqb (action_type e) quiz_complete && truthy (quiz_total_questions e)) eqn:E1.
  - apply andb_prop in E1. destruct E1 as [_ E1].
    destruct (quiz_total_questions e) as [v | ]; [ | discriminate ]. simpl in *.
    apply negb_true_iff, Z.eqb_neq in E1. lia.
  - destruct (ActivityType_eqb (action_type e) exam_complete && truthy (exam_total_marks e)) eqn:E2.
    + apply andb_prop in E2. destruct E2 as [_ E2].
      destruct (exam_total_marks e) as [v | ]; [ | discriminate ]. simpl in *.
      apply negb_true_iff, Z.eqb_neq in E2.
      unfold Math_ceil, mul, ofZ.
      assert (H1 : (1 <= fl (inject_Z v * (3 # 2)))%Q).
      { apply fl_ge_1. pose proof (inject_Z_ge_1 v ltac:(lia)). lra. }
      apply Qceiling_resp_le in H1. change 1%Q with (inject_Z 1) in H1.
      rewrite Qceiling_Z in H1. exact H1.
    + cbv zeta.
      assert (Hc : 0 < text_length e -> 0 <= Math_ceil (div (ofZ (text_length e)) (ofZ 500))).
      { intros Hl. unfold Math_ceil, div, ofZ.
        assert (H0 : (0 <= fl (inject_Z (text_length e) / inject_Z 500))%Q).
        { apply fl_nonneg. apply Qle_shift_div_l; [ reflexivity | ].
          rewrite Qmult_0_l. change 0%Q with (inject_Z 0). rewrite <- Zle_Qle. lia. }
        apply Qceiling_resp_le in H0. change 0%Q with (inject_Z 0) in H0.
        rewrite Qceiling_Z in H0. exact H0. }
      destruct (Z.ltb_spec 0 (text_length e)) as [Hl | Hl];
        destruct (ActivityType_eqb (action_type e) quiz); try specialize (Hc Hl); lia.
Qed.

Lemma studyTime_bounds (tz now : Z) (l : list StudyEvent) (a : StudyTime) :
  Forall (fun e => 1 <= calculateEventDuration e) l ->
  0 <= st_today a <= st_week a -> st_week a <= st_total a ->
  let r := fold_left (studyTimeStep tz now) l a in
  0 <= st_today r <= st_week r /\ st_week r <= st_total r /\
  st_total a + JSArray.length l <= st_total r.
Proof.
  intros H. revert a. induction H as [ | e l He _ IH]; intros a H1 H2; cbv zeta.
  - simpl. unfold JSArray.length. simpl. lia.
  - cbn [fold_left].
    assert (Hstep : 0 <= st_today (studyTimeStep tz now a e) <= st_week (studyTimeStep tz now a e)
                    /\ st_week (studyTimeStep tz now a e) <= st_total (studyTimeStep tz now a e)
                    /\ st_total (studyTimeStep tz now a e) = st_total a + calculateEventDuration e).
    { unfold studyTimeStep. cbn [st_total st_today st_week].
      destruct (dateOf tz e =? todayStr tz now) eqn:Ed.
      - rewrite (today_in_week tz now e Ed). lia.
      - destruct (oneWeekAgo now <? timestamp e); lia. }
    destruct Hstep as (S1 & S2 & S3).
    specialize (IH _ S1 S2). cbv zeta in IH. destruct IH as (I1 & I2 & I3).
    split; [ exact I1 | split; [ exact I2 | ] ].
    unfold JSArray.length in *. cbn [List.length]. lia.
Qed.
End BucketFacts.

(* ------------------------------------------------------------------------ *)
(** ** Runs of consecutive days *)

Module RunFacts.
Import Storage Spec.

Lemma tolerance_next (prev d : Z) : prev < d -> withinTolerance prev d = (d =? prev + 1).
Proof.
  intros H. rewrite StreakFacts.withinTolerance_leb.
  destruct (Z.leb_spec (d - prev) 1), (Z.eqb_spec d (prev + 1)); lia.
Qed.

Lemma sorted_head_lt (x : Z) (l : list Z) :
  StronglySorted Z.lt (x :: l) -> forall y, In y l -> x < y.
Proof.
  intros H y Hy. apply StronglySorted_inv in H. destruct H as [_ H].
  rewrite Forall_forall in H. auto.
Qed.

Lemma sorted_tail (x : Z) (l : list Z) : StronglySorted Z.lt (x :: l) -> StronglySorted Z.lt l.
Proof. intros H. apply StronglySorted_inv in H. tauto. Qed.

(** Some run of [scan]'s result length lies within the days seen. *)
Lemma scan_run (P : Z -> Prop) (rest : list Z) : forall prev c b,
  StronglySorted Z.lt (prev :: rest) ->
  (forall x, In x rest -> P x) ->
  (forall i, 0 <= i < c -> P (prev - i)) ->
  (exists d, forall i, 0 <= i < b -> P (d + i)) ->
  exists d, forall i, 0 <= i < scan prev c b rest -> P (d + i).
Proof.
  induction rest as [ | d rest IH]; intros prev c b Hs Hin Hc Hb; simpl; [ exact Hb | ].
  assert (Hlt : prev < d) by (apply (sorted_head_lt prev (d :: rest) Hs); left; reflexivity).
  apply IH.
  - apply (sorted_tail prev _ Hs).
  - intros x Hx. apply Hin. right. exact Hx.
  - rewrite (tolerance_next _ _ Hlt). destruct (Z.eqb_spec d (prev + 1)) as [-> | Hne].
    + intros i Hi. destruct (Z.eq_dec i 0) as [-> | Hi0].
      * rewrite Z.sub_0_r. apply Hin. left. reflexivity.
      * replace (prev + 1 - i) with (prev - (i - 1)) by lia. apply Hc. lia.
    + intros i Hi. replace (d - i) with d by lia. apply Hin. left. reflexivity.
  - set (c' := if withinTolerance prev d then c + 1 else 1).
    assert (Hc' : forall i, 0 <= i < c' -> P (d - i)).
    { unfold c'. rewrite (tolerance_next _ _ Hlt). destruct (Z.eqb_spec d (prev + 1)) as [-> | Hne].
      - intros i Hi. destruct (Z.eq_dec i 0) as [-> | Hi0].
        + rewrite Z.sub_0_r. apply Hin. left. reflexivity.
        + replace (prev + 1 - i) with (prev - (i - 1)) by lia. apply Hc. lia.
      - intros i Hi. replace (d - i) with d by lia. apply Hin. left. reflexivity. }
    destruct (Z.max_spec b c') as [[_ ->] | [_ ->]].
    + exists (d - c' + 1). intros i Hi. replace (d - c' + 1 + i) with (d - (c' - 1 - i)) by lia.
      apply Hc'. lia.
    + exact Hb.
Qed.

(** No run within the days seen is longer than [scan]'s result. *)
Lemma scan_upper (rest : list Z) : forall (P : Z -> Prop) prev c b,
  StronglySorted Z.lt (prev :: rest) ->
  (forall x, P x -> x <= prev) -> P prev ->
  1 <= c <= b ->
  ~ P (prev - c) ->
  (forall a k, (forall i, 0 <= i < k -> P (a + i)) -> k <= b) ->
  forall a k, (forall i, 0 <= i < k -> P (a + i) \/ In (a + i) rest) ->
              k <= scan prev c b rest.
Proof.
  induction rest as [ | d rest IH]; intros P prev c b Hs Hmax Hprev Hcb Hnot Hbest a k Hrun.
  - simpl. apply (Hbest a). intros i Hi. destruct (Hrun i Hi) as [H | []]. exact H.
  - simpl.
    assert (Hlt : prev < d) by (apply (sorted_head_lt prev (d :: rest) Hs); left; reflexivity).
    set (c' := if withinTolerance prev d then c + 1 else 1).
    assert (Hc1 : 1 <= c') by (unfold c'; destruct (withinTolerance prev d); lia).
    apply (IH (fun x => P x \/ x = d) d c' (Z.max b c')) with (a := a).
    + apply (sorted_tail prev _ Hs).
    + intros x [Hx | ->]; [ specialize (Hmax x Hx); lia | lia ].
    + right. reflexivity.
    + lia.
    + unfold c'. rewrite (tolerance_next _ _ Hlt).
      destruct (Z.eqb_spec d (prev + 1)) as [-> | Hne].
      * intros [Hp | He]; [ | lia ]. apply Hnot. replace (prev - c) with (prev + 1 - (c + 1)) by lia.
        exact Hp.
      * intros [Hp | He]; [ | lia ]. specialize (Hmax _ Hp). lia.
    + intros a' k' Hrun'.
      destruct (Z_le_gt_dec k' b) as [Hk | Hk]; [ lia | ].
      (* the run contains d, hence ends at d *)
      assert (Hd : exists i, 0 <= i < k' /\ a' + i = d).
      { destruct (Z_le_gt_dec k' 0) as [H0 | H0]; [ lia | ].
        assert (Hnp : ~ (forall i, 0 <= i < k' -> P (a' + i))).
        { intros Hall. specialize (Hbest a' k' Hall). lia. }
        (* search for the index of d *)
        assert (Hsearch : forall n : nat,
                   (forall i, 0 <= i < Z.of_nat n -> i < k' -> P (a' + i)) \/
                   (exists i, 0 <= i < k' /\ a' + i = d)).
        { induction n as [ | n IHn].
          - left. intros i Hi. lia.
          - destruct IHn as [IHn | IHn]; [ | right; exact IHn ].
            destruct (Z_lt_ge_dec (Z.of_nat n) k') as [Hn | Hn].
            + destruct (Hrun' (Z.of_nat n) ltac:(lia)) as [Hp | He].
              * left. intros i Hi Hik. destruct (Z.eq_dec i (Z.of_nat n)) as [-> | Hne];
                  [ exact Hp | apply IHn; lia ].
              * right. exists (Z.of_nat n). split; [ lia | exact He ].
            + left. intros i Hi Hik. apply IHn; lia. }
        destruct (Hsearch (Z.to_nat k')) as [Hall | Hex]; [ | exact Hex ].
        exfalso. apply Hnp. intros i Hi. apply Hall; lia. }
      destruct Hd as (j & Hj & Hjd).
      assert (Hend : j = k' - 1).
      { destruct (Z.eq_dec j (k' - 1)) as [He | Hne]; [ exact He | ].
        destruct (Hrun' (j + 1) ltac:(lia)) as [Hp | He].
        - specialize (Hmax _ Hp). lia.
        - lia. }
      subst j.
      assert (Hprefix : forall i, 0 <= i < k' - 1 -> P (a' + i)).
      { intros i Hi. destruct (Hrun' i ltac:(lia)) as [Hp | He]; [ exact Hp | lia ]. }
      destruct (Z.eq_dec k' 1) as [-> | Hk1]; [ lia | ].
      assert (Hpd : P (d - 1)).
      { replace (d - 1) with (a' + (k' - 2)) by lia. apply Hprefix. lia. }
      assert (Hprevd : prev = d - 1) by (specialize (Hmax _ Hpd); lia).
      assert (Hk'c : k' - 1 <= c).
      { destruct (Z_le_gt_dec (k' - 1) c) as [H | H]; [ exact H | ].
        exfalso. apply Hnot. replace (prev - c) with (a' + (k' - 2 - c)) by lia.
        apply Hprefix. lia. }
      assert (Hc' : c' = c + 1).
      { unfold c'. rewrite (tolerance_next _ _ Hlt).
        destruct (Z.eqb_spec d (prev + 1)); [ reflexivity | lia ]. }
      lia.
    + intros i Hi. destruct (Hrun i Hi) as [Hp | [He | Hr]].
      * left. left. exact Hp.
      * left. right. symmetry. exact He.
      * right. exact Hr.
Qed.

Lemma longestRun_run (days : list Z) :
  StronglySorted Z.lt days ->
  exists d, forall i, 0 <= i < longestRun days -> In (d + i) days.
Proof.
  intros Hs. destruct days as [ | d0 rest]; simpl.
  - exists 0. intros i Hi. lia.
  - apply (scan_run (fun x => In x (d0 :: rest)) rest d0 1 1 Hs).
    + intros x Hx. right. exact Hx.
    + intros i Hi. replace (d0 - i) with d0 by lia. left. reflexivity.
    + exists d0. intros i Hi. replace (d0 + i) with d0 by lia. left. reflexivity.
Qed.

Lemma longestRun_upper (days : list Z) (a k : Z) :
  StronglySorted Z.lt days ->
  (forall i, 0 <= i < k -> In (a + i) days) -> k <= longestRun days.
Proof.
  intros Hs Hrun. destruct days as [ | d0 rest]; simpl.
  - destruct (Z_le_gt_dec k 0) as [H | H]; [ exact H | ]. destruct (Hrun 0 ltac:(lia)).
  - apply (scan_upper rest (fun x => x = d0) d0 1 1 Hs) with (a := a).
    + intros x ->. lia.
    + reflexivity.
    + lia.
    + lia.
    + intros a' k' H. destruct (Z_le_gt_dec k' 1) as [Hk | Hk]; [ exact Hk | ].
      pose proof (H 0 ltac:(lia)). pose proof (H 1 ltac:(lia)). lia.
    + intros i Hi. destruct (Hrun i Hi) as [H | H]; [ left; symmetry; exact H | right; exact H ].
Qed.

Lemma scan_le (rest : list Z) : forall prev c b,
  0 <= c -> scan prev c b rest <= Z.max b (c + Z.of_nat (List.length rest)).
Proof.
  induction rest as [ | d rest IH]; intros prev c b Hc; simpl List.length; cbn [scan].
  - lia.
  - set (c' := if withinTolerance prev d then c + 1 else 1).
    assert (0 <= c' <= c + 1) by (unfold c'; destruct (withinTolerance prev d); lia).
    specialize (IH d c' (Z.max b c') ltac:(lia)). lia.
Qed.

Lemma longestRun_le_length (days : list Z) : longestRun days <= Z.of_nat (List.length days).
Proof.
  destruct days as [ | d rest]; simpl longestRun; [ simpl; lia | ].
  pose proof (scan_le rest d 1 1 ltac:(lia)). cbn [List.length]. lia.
Qed.

(** *** The walk back from the last active day *)

Lemma walkBack_run (earlier : list Z) : forall m,
  StronglySorted (fun a b => b < a) (m :: earlier) ->
  1 <= walkBack m earlier /\
  (forall i, 0 <= i < walkBack m earlier -> In (m - i) (m :: earlier)) /\
  ~ In (m - walkBack m earlier) (m :: earlier).
Proof.
  induction earlier as [ | prev rest IH]; intros m Hs; cbn [walkBack].
  - split; [ lia | split ].
    + intros i Hi. replace (m - i) with m by lia. left. reflexivity.
    + intros [H | []]. lia.
  - pose proof Hs as Hs'. apply StronglySorted_inv in Hs'. destruct Hs' as [Hs' Hall].
    rewrite Forall_forall in Hall.
    assert (Hlt : prev < m) by (apply Hall; left; reflexivity).
    rewrite (tolerance_next _ _ Hlt). destruct (Z.eqb_spec m (prev + 1)) as [-> | Hne].
    + destruct (IH prev Hs') as (I1 & I2 & I3). split; [ lia | split ].
      * intros i Hi. destruct (Z.eq_dec i 0) as [-> | Hi0]; [ left; lia | ].
        right. replace (prev + 1 - i) with (prev - (i - 1)) by lia. apply I2. lia.
      * intros [H | H]; [ lia | ]. apply I3.
        replace (prev - walkBack prev rest) with (prev + 1 - (1 + walkBack prev rest)) by lia.
        exact H.
    + split; [ lia | split ].
      * intros i Hi. replace (m - i) with m by lia. left. reflexivity.
      * intros [H | H]; [ lia | ]. specialize (Hall _ H). 
        apply StronglySorted_inv in Hs'. destruct Hs' as [_ Hall'].
        rewrite Forall_forall in Hall'. destruct H as [H | H]; [ lia | ].
        specialize (Hall' _ H). lia.
Qed.

Lemma sorted_rev (l : list Z) :
  StronglySorted Z.lt l -> StronglySorted (fun a b => b < a) (rev l).
Proof.
  induction l as [ | x l IH]; intros Hs; simpl; [ constructor | ].
  pose proof (sorted_head_lt x l Hs) as Hx. apply sorted_tail in Hs. specialize (IH Hs).
  assert (Happ : forall l1, StronglySorted (fun a b => b < a) l1 ->
                            (forall y, In y l1 -> x < y) ->
                            StronglySorted (fun a b => b < a) (l1 ++ [x])).
  { induction l1 as [ | y l1 IH1]; intros H1 H2; simpl.
    - constructor; [ constructor | constructor ].
    - apply StronglySorted_inv in H1. destruct H1 as [H1 H1'].
      constructor.
      + apply IH1; [ exact H1 | intros z Hz; apply H2; right; exact Hz ].
      + apply Forall_app. split; [ exact H1' | ].
        constructor; [ apply H2; left; reflexivity | constructor ]. }
  apply Happ; [ exact IH | ]. intros y Hy. apply Hx. apply in_rev. exact Hy.
Qed.

Lemma rev_head_max (l : list Z) (m : Z) (earlier : list Z) :
  StronglySorted Z.lt l -> rev l = m :: earlier ->
  In m l /\ forall d, In d l -> d <= m.
Proof.
  intros Hs Hr. pose proof (sorted_rev l Hs) as Hd. rewrite Hr in Hd.
  apply StronglySorted_inv in Hd. destruct Hd as [_ Hall]. rewrite Forall_forall in Hall.
  assert (Hin : forall d, In d l <-> In d (m :: earlier)).
  { intros d. rewrite <- Hr. apply in_rev. }
  split; [ apply Hin; left; reflexivity | ].
  intros d Hdl. apply Hin in Hdl. destruct Hdl as [<- | Hd]; [ lia | ].
  specialize (Hall _ Hd). lia.
Qed.

(** [currentRun] on the sorted active days, by the latest day [m]. *)
Lemma currentRun_meaning (today : Z) (days : list Z) (m : Z) :
  StronglySorted Z.lt days -> In m days -> (forall d, In d days -> d <= m) ->
  let c := currentRun today days in
  (m = today \/ m = today - 1 ->
   1 <= c /\ (forall i, 0 <= i < c -> In (m - i) days) /\ ~ In (m - c) days) /\
  (m <> today -> m <> today - 1 -> c = 0).
Proof.
  intros Hs Hm Hmax. cbv zeta. unfold currentRun.
  destruct (rev days) as [ | m' earlier] eqn:Hr.
  - apply (f_equal (@rev Z)) in Hr. rewrite rev_involutive in Hr. subst days. destruct Hm.
  - destruct (rev_head_max days m' earlier Hs Hr) as [Hm' Hmax'].
    assert (m' = m). { specialize (Hmax _ Hm'). specialize (Hmax' _ Hm). lia. }
    subst m'.
    pose proof (sorted_rev days Hs) as Hd. rewrite Hr in Hd.
    destruct (walkBack_run earlier m Hd) as (W1 & W2 & W3).
    assert (Hin : forall d, In d days <-> In d (m :: earlier)).
    { intros d. rewrite <- Hr. apply in_rev. }
    split.
    + intros Hcase.
      assert (E : (m =? today) || (m =? today - 1) = true).
      { apply orb_true_iff. destruct Hcase; [ left | right ]; apply Z.eqb_eq; assumption. }
      rewrite E. split; [ exact W1 | split ].
      * intros i Hi. apply Hin. apply W2. exact Hi.
      * intros H. apply W3. apply Hin. exact H.
    + intros H1 H2.
      assert (E : (m =? today) || (m =? today - 1) = false).
      { apply orb_false_iff. split; apply Z.eqb_neq; assumption. }
      rewrite E. reflexivity.
Qed.

Lemma currentRun_nonneg (today : Z) (days : list Z) : 0 <= currentRun today days.
Proof.
  unfold currentRun. destruct (rev days) as [ | m earlier]; [ lia | ].
  destruct ((m =? today) || (m =? today - 1)); [ | lia ].
  destruct earlier as [ | p r]; cbn [walkBack]; [ lia | ].
  assert (H : forall e x, 1 <= walkBack x e).
  { induction e as [ | y e IH]; intros x; cbn [walkBack]; [ lia | ].
    destruct (withinTolerance y x); [ specialize (IH y); lia | lia ]. }
  destruct (withinTolerance p m); [ specialize (H r p); lia | lia ].
Qed.

Lemma currentRun_le_longest (today : Z) (days : list Z) :
  StronglySorted Z.lt days -> currentRun today days <= longestRun days.
Proof.
  intros Hs. destruct (rev days) as [ | m earlier] eqn:Hr.
  - unfold currentRun. rewrite Hr.
    apply (f_equal (@rev Z)) in Hr. rewrite rev_involutive in Hr. subst days. simpl. lia.
  - destruct (rev_head_max days m earlier Hs Hr) as [Hm Hmax].
    destruct (currentRun_meaning today days m Hs Hm Hmax) as [H1 H2].
    destruct (Z.eq_dec m today) as [E | E];
      [ | destruct (Z.eq_dec m (today - 1)) as [E' | E'] ].
    + destruct (H1 (or_introl E)) as (_ & Hrun & _).
      apply (longestRun_upper days (m - currentRun today days + 1)); [ exact Hs | ].
      intros i Hi.
      replace (m - currentRun today days + 1 + i) with (m - (currentRun today days - 1 - i)) by lia.
      apply Hrun. lia.
    + destruct (H1 (or_intror E')) as (_ & Hrun & _).
      apply (longestRun_upper days (m - currentRun today days + 1)); [ exact Hs | ].
      intros i Hi.
      replace (m - currentRun today days + 1 + i) with (m - (currentRun today days - 1 - i)) by lia.
      apply Hrun. lia.
    + rewrite (H2 E E'). 
      apply (longestRun_upper days 0 0 Hs). intros i Hi. lia.
Qed.

Lemma distinctFrom_length (seen l : list Z) :
  (List.length (JSArray.distinctFrom Z.eqb seen l) <= List.length l)%nat.
Proof.
  revert seen. induction l as [ | x l IH]; intros seen; simpl; [ lia | ].
  destruct (existsb (Z.eqb x) seen); [ specialize (IH seen) | specialize (IH (x :: seen)) ];
    simpl; lia.
Qed.

Lemma uniqueDates_length (tz : Z) (events : list StudyEvent) :
  (List.length (uniqueDates tz events) <= List.length events)%nat.
Proof.
  unfold uniqueDates.
  pose proof (SortFacts.sort_perm (fun a b => JSDate.getTime tz a - JSDate.getTime tz b)
                (JSArray.fromSet Z.eqb (dates tz events))) as Hp.
  apply Permutation_length in Hp. unfold JSDate.DateString in *. rewrite Hp.
  unfold JSArray.fromSet.
  pose proof (distinctFrom_length [] (dates tz events)) as Hl.
  unfold dates in Hl at 2. rewrite length_map in Hl. exact Hl.
Qed.

Lemma active_dates (tz : Z) (events : list StudyEvent) (d : Z) :
  In d (dates tz events) <-> Notions.active tz events d.
Proof.
  unfold dates, Notions.active. rewrite in_map_iff. split; intros (e & H1 & H2); exists e; tauto.
Qed.
End RunFacts.

(* ------------------------------------------------------------------------ *)
(** ** The week strip *)

Module CalendarFacts.
Import Storage Spec RunFacts.



End CalendarFacts.

(* ------------------------------------------------------------------------ *)
(** ** Exam scores *)

Module ExamFacts.
Import Storage JSNumber.
Local Open Scope Q_scope.

Lemma fl_pos_form (x : Q) : 0 < x ->
  exists m j, (0 < m <= 2 ^ 53)%Z /\ fl_pos x == inject_Z m * pow2 j.
Proof.
  intros Hx. unfold fl_pos.
  exists (rne (x / pow2 (ilog2 x - 52))), (ilog2 x - 52)%Z.
  split; [ | reflexivity ].
  destruct (JSNumberFacts.scaled_range x Hx) as [H1 H2]. cbv zeta in H1, H2.
  split.
  - apply JSNumberFacts.rne_mono in H1. rewrite JSNumberFacts.rne_Z in H1.
    assert (0 < 2 ^ 52)%Z by lia. lia.
  - apply Qlt_le_weak, JSNumberFacts.rne_mono in H2. rewrite JSNumberFacts.rne_Z in H2. exact H2.
Qed.

Lemma fl_form (x : Q) :
  exists m j, (Z.abs m <= 2 ^ 53)%Z /\ fl x == inject_Z m * pow2 j.
Proof.
  unfold fl. destruct (Qcompare_spec x 0) as [E | L | G].
  - exists 0%Z, 0%Z. split; [ simpl; lia | ring ].
  - assert (Hx : 0 < - x) by lra.
    destruct (fl_pos_form (- x) Hx) as (m & j & Hm & E).
    exists (- m)%Z, j. split; [ lia | ]. rewrite E, inject_Z_opp. ring.
  - destruct (fl_pos_form x G) as (m & j & Hm & E).
    exists m, j. split; [ lia | exact E ].
Qed.

Lemma fl_idem (x : Q) : fl (fl x) == fl x.
Proof.
  destruct (fl_form x) as (m & j & Hm & E).
  rewrite E. apply JSNumberFacts.fl_exact. exact Hm.
Qed.

Lemma Math_round_proper (x y : Q) : x == y -> Math_round x = Math_round y.
Proof. intros H. unfold Math_round. apply Qfloor_comp. rewrite H. reflexivity. Qed.

Lemma examBest_inv (l : list StudyEvent) : forall a : ExamAcc,
  let r := examBest (fold_left examStep l a) in
  (examBest a <= r)%Z /\
  (forall e, In e l -> (orElse (exam_score e) 0 <= r)%Z) /\
  (r = examBest a \/ exists e, In e l /\ r = orElse (exam_score e) 0).
Proof.
  induction l as [ | e l IH]; intros a; cbv zeta.
  - simpl. split; [ lia | split; [ intros e [] | left; reflexivity ] ].
  - cbn [fold_left]. specialize (IH (examStep a e)). cbv zeta in IH.
    destruct IH as (I1 & I2 & I3).
    assert (Hs : examBest (examStep a e) = Z.max (examBest a) (orElse (exam_score e) 0)).
    { unfold examStep. cbn [examBest].
      destruct (Z.ltb_spec (examBest a) (orElse (exam_score e) 0)); lia. }
    rewrite Hs in I1, I3.
    split; [ lia | split ].
    + intros e' [<- | He']; [ lia | apply I2, He' ].
    + destruct I3 as [I3 | (e' & He' & I3)].
      * destruct (Z.max_spec (examBest a) (orElse (exam_score e) 0)) as [[_ Hm] | [_ Hm]].
        -- right. exists e. split; [ left; reflexivity | lia ].
        -- left. lia.
      * right. exists e'. split; [ right; exact He' | exact I3 ].
Qed.

End ExamFacts.

(* ------------------------------------------------------------------------ *)
(** ** The average score *)

Module AverageFacts.
Import Storage JSNumber ExamFacts.

Lemma toFixed1_bounds (x : Q) (b : Z) :
  0 <= b <= 2 ^ 53 -> (0 <= x <= inject_Z b)%Q -> (0 <= toFixed1 x <= inject_Z b)%Q.
Proof.
  intros Hb [H0 H1]. unfold toFixed1.
  assert (E : Qle_bool 0 x = true) by (apply Qle_bool_iff; exact H0).
  rewrite E.
  set (n := Qfloor (x * 10 + (1 # 2))).
  assert (Hn : 0 <= n <= 10 * b).
  { unfold n. split.
    - assert (H : Qfloor 0 <= Qfloor (x * 10 + (1 # 2))) by (apply Qfloor_resp_le; lra).
      exact H.
    - assert (Hx : (x * 10 + (1 # 2) <= inject_Z (10 * b) + (1 # 2))%Q).
      { rewrite inject_Z_mult. change (inject_Z 10) with 10%Q. lra. }
      apply Qfloor_resp_le in Hx.
      assert (Hf : Qfloor (inject_Z (10 * b) + (1 # 2)) = 10 * b).
      { apply JSNumberFacts.Qfloor_unique; lra. }
      lia. }
  assert (Hq : (0 <= inject_Z n / 10 <= inject_Z b)%Q).
  { destruct Hn as [Hn0 Hn1]. rewrite Zle_Qle in Hn0, Hn1.
    rewrite inject_Z_mult in Hn1. change (inject_Z 10) with 10%Q in Hn1.
    change (inject_Z 0) with 0%Q in Hn0.
    split.
    - apply Qle_shift_div_l; [ reflexivity | lra ].
    - apply Qle_shift_div_r; [ reflexivity | lra ]. }
  split.
  - apply BucketFacts.fl_nonneg. tauto.
  - apply AccuracyFacts.fl_le_Z; [ lia | tauto ].
Qed.
End AverageFacts.

(* ------------------------------------------------------------------------ *)
(** ** The topic ranking *)

Module RankingFacts.
Import Storage Spec Derived.

Lemma enumeration_perm (keys : list string) : Permutation (enumeration keys) keys.
Proof.
  unfold enumeration.
  eapply Permutation_trans; [ | apply TopicFacts.filter_partition_perm ].
  apply Permutation_app_tail. apply SortFacts.sort_perm.
Qed.

Lemma sorted_app_le {A : Type} (R : A -> A -> Prop) (l1 l2 : list A) :
  StronglySorted R (l1 ++ l2) ->
  StronglySorted R l1 /\ forall x y, In x l1 -> In y l2 -> R x y.
Proof.
  induction l1 as [ | a l1 IH]; simpl; intros H.
  - split; [ constructor | intros x y [] ].
  - apply StronglySorted_inv in H. destruct H as [H Ha]. destruct (IH H) as [I1 I2].
    rewrite Forall_forall in Ha. split.
    + constructor; [ exact I1 | ]. apply Forall_forall. intros x Hx. apply Ha.
      apply in_or_app. left. exact Hx.
    + intros x y [<- | Hx] Hy; [ apply Ha; apply in_or_app; right; exact Hy | apply I2; assumption ].
Qed.

Lemma ranking_sorted (order kws : list string) :
  StronglySorted (fun a b => count b <= count a)
                 (JSArray.sort byCount (entriesOf order kws)).
Proof.
  pose proof (SortFacts.sort_sorted byCount (fun t => - count t) TopicFacts.byCount_key
                (entriesOf order kws)) as H.
  revert H. generalize (JSArray.sort byCount (entriesOf order kws)). intros l H.
  induction H as [ | a l _ IH Ha]; constructor; [ exact IH | ].
  eapply Forall_impl; [ | exact Ha ]. intros b Hb. cbv beta in Hb. lia.
Qed.

Lemma map_topic_entriesOf (order kws : list string) : map topic (entriesOf order kws) = order.
Proof.
  unfold entriesOf. rewrite map_map. cbn [topic]. apply map_id.
Qed.

Lemma In_entriesOf (order kws : list string) (t : TopicEntry) :
  In t (entriesOf order kws) -> In (topic t) order /\ count t = occurrences (topic t) kws.
Proof.
  unfold entriesOf. intros H. apply in_map_iff in H. destruct H as (k & <- & Hk).
  cbn [topic count]. tauto.
Qed.
End RankingFacts.

(* ------------------------------------------------------------------------ *)
(** ** Grading *)

Module GradingFacts.
Import JSNumber Notions.

(** Half of a list length, rounded up, as the code computes it. *)
Lemma ceil_half (n h : Z) : 0 <= n < 2 ^ 32 ->
  (Math_ceil (div (ofZ n) (ofZ 2)) <=? h) = (n <=? 2 * h).
Proof.
  intros Hn. unfold Math_ceil, div, ofZ.
  assert (E : (fl (inject_Z n / inject_Z 2) == inject_Z n / inject_Z 2)%Q).
  { assert (E2 : (inject_Z n / inject_Z 2 == inject_Z n * pow2 (-1))%Q).
    { unfold pow2. change (inject_Z 2) with 2%Q. change (Qpower 2 (-1)) with (/ 2)%Q.
      unfold Qdiv. reflexivity. }
    rewrite E2. apply JSNumberFacts.fl_exact. lia. }
  rewrite (Qceiling_comp _ _ E).
  destruct (Z.leb_spec n (2 * h)) as [H | H].
  - apply Z.leb_le.
    assert (Hq : (inject_Z n / inject_Z 2 <= inject_Z h)%Q).
    { apply Qle_shift_div_r; [ reflexivity | ].
      change (inject_Z 2) with 2%Q. rewrite Zle_Qle, inject_Z_mult in H.
      change (inject_Z 2) with 2%Q in H. lra. }
    apply Qceiling_resp_le in Hq. rewrite Qceiling_Z in Hq. exact Hq.
  - apply Z.leb_gt.
    destruct (Z_lt_ge_dec h (Qceiling (inject_Z n / inject_Z 2))) as [Hlt | Hge]; [ exact Hlt | ].
    exfalso.
    pose proof (Qle_ceiling (inject_Z n / inject_Z 2)) as Hc.
    assert (Hh : (inject_Z (Qceiling (inject_Z n / inject_Z 2)) <= inject_Z h)%Q)
      by (rewrite <- Zle_Qle; lia).
    assert (Hq : (inject_Z n / inject_Z 2 <= inject_Z h)%Q) by lra.
    assert (Hq2 : (inject_Z n <= inject_Z (2 * h))%Q).
    { rewrite inject_Z_mult. change (inject_Z 2) with 2%Q in *.
      setoid_replace (inject_Z n) with (inject_Z n / 2 * 2)%Q by field.
      rewrite (Qmult_comm 2).
      apply Qmult_le_compat_r; [ exact Hq | discriminate ]. }
    rewrite <- Zle_Qle in Hq2. lia.
Qed.

(** A counting [reduce] agrees with the length of the [filter]. *)
Lemma count_fold {A : Type} (f : A -> bool) (l : list A) (a : Z) :
  fold_left (fun acc x => if f x then acc + 1 else acc) l a = a + JSArray.length (filter f l).
Proof.
  unfold JSArray.length. revert a. induction l as [ | x l IH]; intros a; simpl; [ lia | ].
  rewrite IH. destruct (f x); cbn [List.length]; lia.
Qed.

(** A [reduce] that adds marks. *)
Lemma marks_fold {A : Type} (f : A -> bool) (w : A -> Z) (l : list A) (a : Z) :
  fold_left (fun acc x => if f x then acc + w x else acc) l a
  = a + Spec.sum (map w (filter f l)).
Proof.
  revert a. induction l as [ | x l IH]; intros a; simpl; [ unfold Spec.sum; simpl; lia | ].
  rewrite IH. destruct (f x); unfold Spec.sum; simpl; lia.
Qed.


End GradingFacts.

(* ------------------------------------------------------------------------ *)
(** ** The quiz runner *)

Module QuizRunnerFacts.
Import JSNumber Notions QuizRunner GradingFacts.

Lemma isCorrect_attempted (userAnswers : Answers) (q : QuizItem) :
  isCorrect userAnswers q = true -> hasAttempted userAnswers q = true.
Proof.
  unfold isCorrect, hasAttempted. destruct (userAnswers (id q)) as [a | ]; [ | discriminate ].
  cbn [option_map]. destruct (String.eqb_spec a "") as [-> | Hne]; [ | reflexivity ].
  simpl. discriminate.
Qed.

Lemma correctCount_filter (questions : list QuizItem) (userAnswers : Answers) :
  correctCount questions userAnswers
  = JSArray.length (filter (isCorrect userAnswers) questions).
Proof. unfold correctCount. rewrite count_fold. lia. Qed.

Lemma correctCount_le_length (questions : list QuizItem) (userAnswers : Answers) :
  0 <= correctCount questions userAnswers <= JSArray.length questions.
Proof. rewrite correctCount_filter. apply BucketFacts.length_filter_le. Qed.
End QuizRunnerFacts.

(* ------------------------------------------------------------------------ *)
(** ** Substrings *)

Module SubstringFacts.

Lemma toLowerCase_app (x y : string) :
  JSString.toLowerCase (x ++ y) = (JSString.toLowerCase x ++ JSString.toLowerCase y)%string.
Proof. induction x as [ | c x IH]; simpl; [ reflexivity | rewrite IH; reflexivity ]. Qed.

Lemma trimStart_suffix (a : string) : exists p, a = (p ++ JSString.trimStart a)%string.
Proof.
  induction a as [ | c a (p & IH)]; simpl.
  - exists EmptyString. reflexivity.
  - destruct (JSString.isWhiteSpace c).
    + exists (String c p). simpl. rewrite <- IH. reflexivity.
    + exists EmptyString. reflexivity.
Qed.

Lemma trimEnd_prefix (b : string) : exists r, b = (JSString.trimEnd b ++ r)%string.
Proof.
  induction b as [ | c b (r & IH)]; simpl.
  - exists EmptyString. reflexivity.
  - destruct (JSString.trimEnd b) as [ | c' t] eqn:E.
    + destruct (JSString.isWhiteSpace c).
      * exists (String c b). reflexivity.
      * exists b. reflexivity.
    + exists r. simpl. rewrite IH at 1. reflexivity.
Qed.

Lemma startsWith_app (b r s : string) :
  JSString.startsWith b s = true -> JSString.startsWith (b ++ r) s = true.
Proof.
  revert b. induction s as [ | c s IH]; intros b H; [ destruct (b ++ r)%string; reflexivity | ].
  destruct b as [ | a b]; [ discriminate | ]. simpl in *.
  apply andb_prop in H. destruct H as [H1 H2]. rewrite H1, (IH _ H2). reflexivity.
Qed.

Lemma includes_app_r (b r s : string) :
  JSString.includes b s = true -> JSString.includes (b ++ r) s = true.
Proof.
  induction b as [ | a b IH]; intros H.
  - simpl in H. rewrite orb_false_r in H. destruct s; [ | discriminate ].
    destruct r; reflexivity.
  - cbn [JSString.includes] in H. apply orb_prop in H.
    change (String a b ++ r)%string with (String a (b ++ r)). cbn [JSString.includes].
    apply orb_true_iff. destruct H as [H | H].
    + left. apply (startsWith_app (String a b) r s H).
    + right. apply IH, H.
Qed.

Lemma includes_app_l (p b s : string) :
  JSString.includes b s = true -> JSString.includes (p ++ b) s = true.
Proof.
  intros H. induction p as [ | a p IH]; [ exact H | ].
  change (String a p ++ b)%string with (String a (p ++ b)). cbn [JSString.includes].
  rewrite IH. apply orb_true_r.
Qed.

Lemma includes_trim (a s : string) :
  JSString.includes (JSString.toLowerCase (JSString.trim a)) s = true ->
  JSString.includes (JSString.toLowerCase a) s = true.
Proof.
  intros H. unfold JSString.trim in H.
  destruct (trimStart_suffix a) as (p & Hp).
  destruct (trimEnd_prefix (JSString.trimStart a)) as (r & Hr).
  rewrite Hp, Hr, !toLowerCase_app. apply includes_app_l, includes_app_r, H.
Qed.

End SubstringFacts.

(* ------------------------------------------------------------------------ *)
(** ** Quiz rows *)

Module QuizLogFacts.
Import Storage Notions QuizRunner GradingFacts QuizRunnerFacts.

Lemma sums_bounded (l : list StudyEvent) :
  Forall (fun e => 0 <= Spec.field0 (quiz_correct_answers e)
                   <= Spec.field0 (quiz_total_questions e)) l ->
  0 <= Spec.sum (map (fun e => Spec.field0 (quiz_correct_answers e)) l)
  <= Spec.sum (map (fun e => Spec.field0 (quiz_total_questions e)) l).
Proof.
  unfold Spec.sum. induction 1 as [ | e l He _ IH]; simpl; lia.
Qed.

Lemma quizRows_totals (events : list StudyEvent) :
  (forall e, In e events -> action_type e = quiz_complete ->
             exists rowId userId clock title questions userAnswers,
               e = quizRow rowId userId clock title questions userAnswers) ->
  0 <= Spec.S_correct events <= Spec.S_total events.
Proof.
  intros H. unfold Spec.S_correct, Spec.S_total. apply sums_bounded.
  apply Forall_forall. intros e He. apply filter_In in He. destruct He as [He Ht].
  destruct (H e He) as (r & u & c & t & qs & ans & ->).
  { unfold Spec.isQuizComplete in Ht. destruct (action_type e); try discriminate Ht. reflexivity. }
  cbn. pose proof (correctCount_le_length qs ans). lia.
Qed.
End QuizLogFacts.

(* ------------------------------------------------------------------------ *)
(** ** The exam mode *)

Module ExamModeFacts.
Import Notions ExamMode GradingFacts.

Lemma isCorrect_cases (userAnswers : Answers) (q : ExamItem) :
  isCorrect userAnswers q = correctAtFinish userAnswers q || gradedLoosely userAnswers q.
Proof.
  unfold isCorrect, correctAtFinish, gradedLoosely.
  destruct (answerOf userAnswers q); [ | reflexivity ].
  destruct (type q); try (rewrite orb_false_r; reflexivity);
    destruct (keywords q); try reflexivity; rewrite orb_false_r; reflexivity.
Qed.

Lemma exclusive_cases (userAnswers : Answers) (q : ExamItem) :
  correctAtFinish userAnswers q && gradedLoosely userAnswers q = false.
Proof.
  unfold correctAtFinish, gradedLoosely.
  destruct (answerOf userAnswers q); [ | reflexivity ].
  destruct (type q); try apply andb_false_r; destruct (keywords q);
    try apply andb_false_r; reflexivity.
Qed.

Lemma sum_filter_split {A : Type} (f g : A -> bool) (w : A -> Z) (l : list A) :
  (forall x, f x && g x = false) ->
  Spec.sum (map w (filter (fun x => f x || g x) l))
  = Spec.sum (map w (filter f l)) + Spec.sum (map w (filter g l)).
Proof.
  intros H. unfold Spec.sum. induction l as [ | x l IH]; simpl; [ reflexivity | ].
  specialize (H x). destruct (f x), (g x); try discriminate H; simpl; lia.
Qed.



Lemma cmp_newest (x y : StudyEvent) :
  (0 <? timestamp y - timestamp x) = (- timestamp y <? - timestamp x).
Proof. destruct (Z.ltb_spec 0 (timestamp y - timestamp x)), (Z.ltb_spec (- timestamp y) (- timestamp x)); lia. Qed.
End ExamModeFacts.

(* ------------------------------------------------------------------------ *)
(** ** Logging an activity *)

Module LogFacts.
Import Storage Spec Notions StorageLog RunFacts CalendarFacts.




Lemma fetched_perm (store data : list StudyEvent) :
  getActivities store true data -> Permutation data store.
Proof. intros H. inversion H. assumption. Qed.


End LogFacts.

(* ------------------------------------------------------------------------ *)
(** ** Rows of the quiz runner and of the exam mode *)

Module RowFacts.
Import Notions StorageLog GradingFacts.

Lemma quiz_title_keywords (title : string) :
  exists rest, extractKeywords ("Quiz: " ++ title) = "quiz"%string :: rest.
Proof.
  unfold extractKeywords, JSString.splitWhiteSpace, JSString.removeNonWordSpace.
  change (JSString.truthy ("Quiz: " ++ title)) with true. cbn [negb].
  change (JSString.toLowerCase ("Quiz: " ++ title))
    with ("quiz: " ++ JSString.toLowerCase title)%string.
  set (t := JSString.toLowerCase title).
  change (JSString.filterChars (fun c => JSString.isWordChar c || JSString.isWhiteSpace c)
            ("quiz: " ++ t))
    with ("quiz " ++ JSString.filterChars
                       (fun c => JSString.isWordChar c || JSString.isWhiteSpace c) t)%string.
  set (u := JSString.filterChars _ t).
  change (JSString.splitFrom ("quiz " ++ u) "" false)
    with ("quiz"%string :: JSString.splitFrom u "" true).
  cbn [filter]. change (3 <? JSString.length "quiz") with true.
  change (existsb (String.eqb "quiz") stopWords) with false. cbn [negb andb].
  unfold JSArray.fromSet, JSArray.slice0. cbn [JSArray.distinctFrom existsb firstn].
  eexists. reflexivity.
Qed.

Lemma enoughHits_half (ans : string) (ks : list string) :
  JSArray.length ks < 2 ^ 32 ->
  ExamMode.enoughHits ans ks = (JSArray.length ks <=? 2 * hits ans ks).
Proof.
  intros Hn. unfold ExamMode.enoughHits, hits. rewrite count_fold, Z.add_0_l.
  apply ceil_half. unfold JSArray.length in *. lia.
Qed.
End RowFacts.

(* ------------------------------------------------------------------------ *)
(** ** Time credited to logged rows *)

Module CreditFacts.
Import Storage JSNumber.

Lemma ceil_three_halves (m : Z) : Qceiling (inject_Z m * (3 # 2)) = (3 * m + 1) / 2.
Proof.
  set (k := (3 * m + 1) / 2).
  pose proof (Z.div_mod (3 * m + 1) 2 ltac:(lia)) as Hd. fold k in Hd.
  pose proof (Z.mod_pos_bound (3 * m + 1) 2 ltac:(lia)) as Hr.
  apply DurationFacts.Qceiling_unique.
  - assert (H : (inject_Z (2 * k - 2) < inject_Z (3 * m))%Q) by (rewrite <- Zlt_Qlt; lia).
    rewrite DurationFacts.inject_Z_sub, !inject_Z_mult in H.
    change (inject_Z 2) with 2%Q in H. change (inject_Z 3) with 3%Q in H. lra.
  - assert (H : (inject_Z (3 * m) <= inject_Z (2 * k))%Q) by (rewrite <- Zle_Qle; lia).
    rewrite !inject_Z_mult in H.
    change (inject_Z 2) with 2%Q in H. change (inject_Z 3) with 3%Q in H. lra.
Qed.
End CreditFacts.


(* ------------------------------------------------------------------------ *)
(** ** The streaks in any zone *)

Module ZonedFacts.
Import JSNumber Zone Zoned ZoneNotions Spec.

(** With a constant offset the definitions are those of [Storage]. *)
Lemma fixed_uniqueDates (tz : Z) (events : list StudyEvent) :
  uniqueDates (fixed tz) events = Storage.uniqueDates tz events.
Proof. reflexivity. Qed.

Lemma fixed_longestStreak (tz : Z) (events : list StudyEvent) :
  longestStreak (fixed tz) events = Storage.longestStreak tz events.
Proof. reflexivity. Qed.

Lemma fixed_currentStreak (tz : Z) (events : list StudyEvent) (now : Z) :
  currentStreak (fixed tz) events now = Storage.currentStreak tz events now.
Proof. reflexivity. Qed.

Lemma fixed_lastSevenDays (tz : Z) (events : list StudyEvent) (now : Z) :
  lastSevenDays (fixed tz) events now = Storage.lastSevenDays tz events now.
Proof.
  unfold lastSevenDays, Storage.lastSevenDays. apply map_ext. intros i. cbv zeta.
  rewrite CountFacts.toDateString_minusDays. reflexivity.
Qed.


Section Regular.
Variable z : Zone.t.
Hypothesis Hz : regular z.

Lemma cmp_midnight (a b : Z) :
  (0 <? midnight z a - midnight z b) = (midnight z b <? midnight z a).
Proof.
  destruct (Z.ltb_spec 0 (midnight z a - midnight z b)),
           (Z.ltb_spec (midnight z b) (midnight z a)); lia.
Qed.

Lemma sorted_by_midnight (l : list Z) :
  StronglySorted (fun a b => midnight z a <= midnight z b) l -> StronglySorted Z.le l.
Proof.
  induction 1 as [ | a l _ IH Ha]; constructor; [ exact IH | ].
  eapply Forall_impl; [ | exact Ha ]. intros b Hb. cbv beta in Hb.
  destruct (Z_le_gt_dec a b) as [H | H]; [ exact H | ].
  assert (Hlt : b < a) by lia.
  apply (proj1 (ZoneFacts.midnight_lt z Hz b a)) in Hlt. lia.
Qed.

Lemma zoned_uniqueDates_sorted (events : list StudyEvent) :
  StronglySorted Z.lt (uniqueDates z events).
Proof.
  unfold uniqueDates. apply StreakFacts.sorted_le_NoDup_lt.
  - apply sorted_by_midnight.
    apply (SortFacts.sort_sorted _ (midnight z) cmp_midnight).
  - eapply Permutation_NoDup; [ apply Permutation_sym, SortFacts.sort_perm | ].
    apply StreakFacts.distinctFrom_NoDup.
Qed.

Lemma zoned_uniqueDates_In (events : list StudyEvent) (d : Z) :
  In d (uniqueDates z events) <-> In d (dates z events).
Proof.
  unfold uniqueDates. split; intros H.
  - apply StreakFacts.fromSet_In. eapply Permutation_in; [ apply SortFacts.sort_perm | exact H ].
  - eapply Permutation_in; [ apply Permutation_sym, SortFacts.sort_perm | ].
    apply StreakFacts.fromSet_In. exact H.
Qed.

Lemma zoned_active_dates (events : list StudyEvent) (d : Z) :
  In d (uniqueDates z events) <-> activeIn z events d.
Proof.
  rewrite zoned_uniqueDates_In. unfold dates, activeIn. rewrite in_map_iff.
  split; intros (e & H1 & H2); exists e; tauto.
Qed.


(** Two midnights are at most a day and a half apart exactly when the later
    day is at most the day after the earlier. *)
Lemma zoned_diffDays_within (prev curr : Z) :
  Qle_bool (diffDays z prev curr) (3 # 2) = withinTolerance prev curr.
Proof.
  rewrite StreakFacts.withinTolerance_leb. unfold diffDays, div, ofZ.
  change (1000 * 3600 * 24) with 86400000.
  set (x := midnight z curr - midnight z prev).
  destruct (Z.leb_spec (curr - prev) 1) as [H | H].
  - apply Qle_bool_iff.
    assert (Hx : x <= 25 * hour).
    { unfold x. destruct (Z_le_gt_dec curr prev) as [Hle | Hgt].
      - pose proof (ZoneFacts.midnight_gap z Hz curr prev Hle). unfold hour in *. nia.
      - replace curr with (prev + 1) by lia. apply (proj2 Hz prev). }
    assert (Hq : (inject_Z x / inject_Z 86400000 <= 3 # 2)%Q).
    { apply Qle_shift_div_r; [ reflexivity | ].
      assert (Hi : (inject_Z x <= inject_Z (25 * hour))%Q) by (rewrite <- Zle_Qle; exact Hx).
      eapply Qle_trans; [ exact Hi | ]. vm_compute. discriminate. }
    apply JSNumberFacts.fl_mono in Hq.
    assert (E : (fl (3 # 2) == 3 # 2)%Q).
    { assert (E3 : (3 # 2 == inject_Z 3 * pow2 (-1))%Q) by reflexivity.
      rewrite E3. apply JSNumberFacts.fl_exact. simpl. lia. }
    rewrite E in Hq. exact Hq.
  - destruct (Qle_bool (fl (inject_Z x / inject_Z 86400000)) (3 # 2)) eqn:E; [ | reflexivity ].
    apply Qle_bool_iff in E. exfalso.
    assert (Hx : 46 * hour <= x).
    { unfold x. pose proof (ZoneFacts.midnight_gap z Hz prev curr ltac:(lia)). unfold hour in *. nia. }
    assert (Hq : (7 # 4 <= inject_Z x / inject_Z 86400000)%Q).
    { apply Qle_shift_div_l; [ reflexivity | ].
      assert (Hi : (inject_Z (46 * hour) <= inject_Z x)%Q) by (rewrite <- Zle_Qle; exact Hx).
      eapply Qle_trans; [ | exact Hi ]. vm_compute. discriminate. }
    apply JSNumberFacts.fl_mono in Hq.
    assert (E7 : (fl (7 # 4) == 7 # 4)%Q).
    { assert (E3 : (7 # 4 == inject_Z 7 * pow2 (-2))%Q) by reflexivity.
      rewrite E3. apply JSNumberFacts.fl_exact. simpl. lia. }
    rewrite E7 in Hq. lra.
Qed.



Lemma zoned_current_loop (events : list StudyEvent) (i : nat) (c : Z) :
  (i < List.length (uniqueDates z events))%nat ->
  currentLoop z events i c
  = c - 1 + walkBack (nth i (uniqueDates z events) 0) (rev (firstn i (uniqueDates z events))).
Proof.
  revert c. induction i as [ | j IH]; intros c Hi.
  - simpl. lia.
  - cbn [currentLoop]. unfold JSDate.DateString in *.
    rewrite zoned_diffDays_within, StreakFacts.firstn_S_nth by lia.
    rewrite rev_app_distr. cbn [rev app walkBack].
    destruct (withinTolerance _ _); [ rewrite IH by lia; lia | lia ].
Qed.

(** The backward loop is the walk back from the last active day, begun when
    that day is today or the day of the instant 24 hours ago. *)
Lemma zoned_currentStreak_walk (events : list StudyEvent) (now : Z) :
  currentStreak z events now
  = currentRunAt (localDay z now) (localDay z (now - 86400000)) (uniqueDates z events).
Proof.
  unfold currentStreak, currentRunAt.
  destruct (uniqueDates z events) as [ | d rest] eqn:E; [ reflexivity | ].
  rewrite <- E. rewrite StreakFacts.rev_last_firstn by (rewrite E; discriminate).
  destruct (_ || _); [ | reflexivity ].
  rewrite zoned_current_loop by (rewrite E; simpl; lia).
  unfold JSDate.DateString in *. lia.
Qed.

End Regular.

(** *** The walk back *)

Lemma currentRunAt_meaning (today yesterday : Z) (days : list Z) (m : Z) :
  StronglySorted Z.lt days -> In m days -> (forall d, In d days -> d <= m) ->
  let c := currentRunAt today yesterday days in
  (m = today \/ m = yesterday ->
   1 <= c /\ (forall i, 0 <= i < c -> In (m - i) days) /\ ~ In (m - c) days) /\
  (m <> today -> m <> yesterday -> c = 0).
Proof.
  intros Hs Hm Hmax. cbv zeta. unfold currentRunAt.
  destruct (rev days) as [ | m' earlier] eqn:Hr.
  - apply (f_equal (@rev Z)) in Hr. rewrite rev_involutive in Hr. subst days. destruct Hm.
  - destruct (RunFacts.rev_head_max days m' earlier Hs Hr) as [Hm' Hmax'].
    assert (m' = m). { specialize (Hmax _ Hm'). specialize (Hmax' _ Hm). lia. }
    subst m'.
    pose proof (RunFacts.sorted_rev days Hs) as Hd. rewrite Hr in Hd.
    destruct (RunFacts.walkBack_run earlier m Hd) as (W1 & W2 & W3).
    assert (Hin : forall d, In d days <-> In d (m :: earlier)).
    { intros d. rewrite <- Hr. apply in_rev. }
    split.
    + intros Hcase.
      assert (E : (m =? today) || (m =? yesterday) = true).
      { apply orb_true_iff. destruct Hcase; [ left | right ]; apply Z.eqb_eq; assumption. }
      rewrite E. split; [ exact W1 | split ].
      * intros i Hi. apply Hin. apply W2. exact Hi.
      * intros H. apply W3. apply Hin. exact H.
    + intros H1 H2.
      assert (E : (m =? today) || (m =? yesterday) = false).
      { apply orb_false_iff. split; apply Z.eqb_neq; assumption. }
      rewrite E. reflexivity.
Qed.

End ZonedFacts.


(* ------------------------------------------------------------------------ *)
(** ** Logging in any zone *)

Module ZonedLogFacts.
Import Zone Zoned ZoneNotions Spec StorageLog.


Section Regular.
Variable z : Zone.t.
Hypothesis Hz : regular z.


End Regular.

(** In New York, half past midnight on Monday 2026-03-09, with events on the
    Saturday and the Sunday before: the current streak is 0, and logging an
    activity raises it to 3. *)
Lemma streak_jump :
  currentStreak newYork (saturday ++ sunday) monday0030 = 0 /\
  currentStreak newYork
    (logActivity (Some "u"%string) true "r3"%string monday0030 chat "hello world"%string None
       (saturday ++ sunday)) monday0030 = 3.
Proof. split; vm_compute; reflexivity. Qed.
End ZonedLogFacts.

(* ------------------------------------------------------------------------ *)
(** ** Sums of integers in binary64 *)

Module NumberFacts.
Import JSNumber Numbers.

(** Adding an integer to an integer is exact below 2^53. *)
Lemma add_exact (x y : Q) (a b : Z) :
  (x == inject_Z a)%Q -> (y == inject_Z b)%Q -> Z.abs (a + b) <= 2 ^ 53 ->
  (add x y == inject_Z (a + b))%Q.
Proof.
  intros Hx Hy Hb. unfold add. rewrite Hx, Hy, <- inject_Z_plus.
  apply JSNumberFacts.fl_Z. exact Hb.
Qed.

Lemma sum_abs_nonneg {A : Type} (w : A -> Z) (l : list A) :
  0 <= Spec.sum (map (fun x => Z.abs (w x)) l).
Proof. unfold Spec.sum. induction l as [ | x l IH]; simpl; lia. Qed.

(** A sum of integer marks is computed exactly. *)
Lemma marks_exact {A : Type} (value : A -> Q) (w : A -> Z) (f : A -> bool) (l : list A) :
  forall (s : Q) (a : Z),
  (forall x, In x l -> (value x == inject_Z (w x))%Q) ->
  (s == inject_Z a)%Q ->
  Z.abs a + Spec.sum (map (fun x => Z.abs (w x)) l) <= 2 ^ 53 ->
  (fold_left (fun score x => if f x then add score (value x) else score) l s
   == inject_Z (fold_left (fun score x => if f x then (score + w x)%Z else score) l a))%Q.
Proof.
  induction l as [ | x l IH]; intros s a Hv Hs Hb; [ exact Hs | ].
  cbn [fold_left]. unfold Spec.sum in Hb. cbn [map fold_right] in Hb.
  fold (Spec.sum (map (fun x => Z.abs (w x)) l)) in Hb.
  pose proof (sum_abs_nonneg w l) as Hn.
  destruct (f x).
  - apply IH.
    + intros y Hy. apply Hv. right. exact Hy.
    + apply add_exact; [ exact Hs | apply Hv; left; reflexivity | lia ].
    + lia.
  - apply IH; [ intros y Hy; apply Hv; right; exact Hy | exact Hs | lia ].
Qed.

Lemma Qle_bool_Z (a b : Z) (x y : Q) :
  (x == inject_Z a)%Q -> (y == inject_Z b)%Q -> Qle_bool x y = (a <=? b).
Proof.
  intros Hx Hy. destruct (Z.leb_spec a b) as [H | H].
  - apply Qle_bool_iff. rewrite Hx, Hy, <- Zle_Qle. exact H.
  - destruct (Qle_bool x y) eqn:E; [ | reflexivity ].
    apply Qle_bool_iff in E. rewrite Hx, Hy, <- Zle_Qle in E. lia.
Qed.

Lemma exactSum_Z {A : Type} (value : A -> Q) (w : A -> Z) (l : list A) :
  (forall x, In x l -> (value x == inject_Z (w x))%Q) ->
  (exactSum (map value l) == inject_Z (Spec.sum (map w l)))%Q.
Proof.
  unfold exactSum, Spec.sum. induction l as [ | x l IH]; intros H; [ reflexivity | ].
  cbn [map fold_right]. rewrite inject_Z_plus, <- IH, <- (H x (or_introl eq_refl)).
  - reflexivity.
  - intros y Hy. apply H. right. exact Hy.
Qed.

Lemma exactSum_filter_Z {A : Type} (value : A -> Q) (w : A -> Z) (f : A -> bool) (l : list A) :
  (forall x, In x l -> (value x == inject_Z (w x))%Q) ->
  (exactSum (map value (filter f l)) == inject_Z (Spec.sum (map w (filter f l))))%Q.
Proof.
  intros H. apply exactSum_Z. intros x Hx. apply filter_In in Hx. apply H, Hx.
Qed.

Lemma Qabs_Z (x : Q) (a : Z) : (x == inject_Z a)%Q -> (Qabs x == inject_Z (Z.abs a))%Q.
Proof. intros H. rewrite H. reflexivity. Qed.

(** The two exam accumulators on integer scores that are not negative: the
    total is exact, and the best score [B] is an integer that bounds every
    score. *)
Lemma examScores_integral (score : StudyEvent -> Q) (l : list StudyEvent) :
  forall (a : Q * Q) (ta tb : Z),
  (forall e, In e l -> isInteger (score e) /\ (0 <= score e)%Q) ->
  (fst a == inject_Z ta)%Q -> (snd a == inject_Z tb)%Q -> 0 <= ta -> 0 <= tb ->
  (inject_Z ta + exactSum (map score l) <= inject_Z (2 ^ 53))%Q ->
  exists T B : Z,
    (inject_Z T == inject_Z ta + exactSum (map score l))%Q /\
    (fst (fold_left (examScoreStep score) l a) == inject_Z T)%Q /\
    (snd (fold_left (examScoreStep score) l a) == inject_Z B)%Q /\
    tb <= B <= tb + (T - ta) /\ ta <= T <= ta + Z.of_nat (List.length l) * B.
Proof.
  induction l as [ | e l IH]; intros a ta tb Hv Ht Hb H0 H1 Hbig.
  - exists ta, tb. cbn [map exactSum fold_right fold_left List.length Z.of_nat].
    repeat split; try assumption; try lia. unfold exactSum. simpl. ring.
  - destruct (Hv e (or_introl eq_refl)) as [Hi Hn]. unfold isInteger in Hi.
    set (s := Qfloor (score e)) in *.
    assert (Hs : 0 <= s).
    { rewrite Hi in Hn. change 0%Q with (inject_Z 0) in Hn. rewrite <- Zle_Qle in Hn. exact Hn. }
    assert (Hrest : (forall x, In x l -> (score x == inject_Z (Qfloor (score x)))%Q)).
    { intros x Hx. apply (Hv x (or_intror Hx)). }
    pose proof (exactSum_Z score (fun x => Qfloor (score x)) l Hrest) as Hsum.
    assert (Hpos : 0 <= Spec.sum (map (fun x => Qfloor (score x)) l)).
    { unfold Spec.sum. clear - Hv. induction l as [ | x l IH]; simpl; [ lia | ].
      assert (0 <= Qfloor (score x)).
      { destruct (Hv x (or_intror (or_introl eq_refl))) as [_ H].
        apply Qfloor_resp_le in H. exact H. }
      assert (0 <= fold_right Z.add 0 (map (fun x => Qfloor (score x)) l)).
      { apply IH. intros y [<- | Hy]; apply Hv; [ left | right; right ]; trivial. }
      lia. }
    cbn [map] in Hbig. unfold exactSum in Hbig. cbn [fold_right] in Hbig.
    fold (exactSum (map score l)) in Hbig.
    rewrite Hsum, Hi, <- !inject_Z_plus, <- Zle_Qle in Hbig.
    destruct a as [total best]. cbn [fst snd] in Ht, Hb. cbn [fold_left examScoreStep].
    destruct (IH (add total (score e), if Qle_bool (score e) best then best else score e)
                 (ta + s) (Z.max tb s)) as (T & B & HT & Hf & Hs' & HB & HTb).
    + intros x Hx. apply Hv. right. exact Hx.
    + cbn [fst]. apply add_exact; [ exact Ht | exact Hi | lia ].
    + cbn [snd]. rewrite (Qle_bool_Z s tb _ _ Hi Hb).
      destruct (Z.leb_spec s tb) as [H | H].
      * rewrite Z.max_l by lia. exact Hb.
      * rewrite Z.max_r by lia. exact Hi.
    + lia.
    + lia.
    + rewrite Hsum, <- !inject_Z_plus, <- Zle_Qle. lia.
    + exists T, B. split; [ | split; [ exact Hf | split; [ exact Hs' | ] ] ].
      * rewrite HT. cbn [map]. unfold exactSum. cbn [fold_right].
        rewrite inject_Z_plus, Hi. ring.
      * cbn [List.length]. nia.
Qed.

(** With marks of 0.1, 0.2 and 0.3, the first graded loosely, the score shown
    is 0.6000000000000001, while the logged score is 0.5: the difference is
    not the 0.1 of the first question. *)
Lemma fractional_marks_differ :
  let items := [Examples.looseItem; Examples.blankItem; Examples.essayItem] in
  ~ (getCurrentScore tenths items Examples.examAnswers (fun _ => None) true
     == finalScore tenths items Examples.examAnswers
        + exactSum (map tenths (filter (Notions.gradedLoosely Examples.examAnswers) items)))%Q.
Proof. cbv zeta. vm_compute. discriminate. Qed.

(** A single exam scored 1.25 has the average 1.3. *)
Lemma fractional_average_exceeds :
  (examBestScore fiveQuarters [Examples.lastExam]
   < examAverageScore fiveQuarters [Examples.lastExam])%Q.
Proof. vm_compute. reflexivity. Qed.
End NumberFacts.

(* ======================================================================== *)
(** * Further properties of the code *)

(** Splits a hypothesis [In e [e1; ...; en]] into its cases. *)
Ltac each_member H := repeat (destruct H as [<- | H]); [ .. | destruct H ].

Section KeywordProperties.
Import Storage Spec Derived Notions StorageLog.

(** X1: [extractKeywords] returns at most 5 keywords, all different; each is
    longer than 3 characters, is no stop word and consists of lowercase
    letters, digits and underscores only. *)
Theorem X1_extract_keywords (text : string) :
  JSArray.length (extractKeywords text) <= 5 /\
  NoDup (extractKeywords text) /\
  Forall keywordShape (extractKeywords text).
Proof.
  split; [ | split ].
  - unfold JSArray.length. pose proof (KeywordFacts.extractKeywords_length text). lia.
  - apply KeywordFacts.extractKeywords_NoDup.
  - apply KeywordFacts.extractKeywords_shape.
Qed.

(** X2: in a log whose rows were all built by [logActivity], the keywords
    that [getUserStats] counts are the stored keywords themselves: trimming,
    lowercasing and dropping empty strings change nothing. *)
Theorem X2_logged_keywords_normalized (events : list StudyEvent) :
  (forall e, In e events ->
     exists rowId userId clock type textContent extraData,
       e = newEvent rowId userId clock type textContent extraData) ->
  keywords events = flat_map keywordsOf events /\
  topicCounts events
  = fold_left bumpStep (flat_map keywordsOf events) (Some JSObject.empty).
Proof.
  intros H.
  assert (E : keywords events = flat_map keywordsOf events).
  { apply KeywordFacts.keywords_of_logged. intros e He.
    destruct (H e He) as (r & u & c & t & text & x & ->). exists text. reflexivity. }
  split; [ exact E | ]. rewrite TopicFacts.topicCounts_keywords, E. reflexivity.
Qed.

Lemma X2_logged_keywords_normalized_witness :
  keywords Examples.table = flat_map keywordsOf Examples.table.
Proof.
  apply (X2_logged_keywords_normalized Examples.table).
  intros e He. unfold Examples.table in He. each_member He.
  - unfold quizRow. do 6 eexists. reflexivity.
  - unfold examRow. do 6 eexists. reflexivity.
Defined.

(** X3: every row logged by the quiz runner has ["quiz"] as its first topic
    keyword, whatever the title, and every row logged by the exam mode has
    the topic keywords ["completed"], ["exam"] and ["mode"]. *)
Theorem X3_row_topics (rowId userId : string) (clock : Z) (title : string)
        (questions : list QuizRunner.QuizItem) (userAnswers : QuizRunner.Answers)
        (examData : list ExamMode.ExamItem) (examAnswers : ExamMode.Answers)
        (totalMarks : Z) (subjectName : string) :
  (exists rest,
      topic_keywords (quizRow rowId userId clock title questions userAnswers)
      = Some ("quiz"%string :: rest)) /\
  topic_keywords (examRow rowId userId clock examData examAnswers totalMarks subjectName)
  = Some ["completed"; "exam"; "mode"]%string.
Proof.
  split; [ | reflexivity ].
  destruct (RowFacts.quiz_title_keywords title) as (rest & E).
  exists rest. unfold quizRow, newEvent. cbn [topic_keywords]. rewrite E. reflexivity.
Qed.
End KeywordProperties.

Section StatisticsProperties.
Import Storage Spec Notions.

(** X4: apart from the topic ranking and the two exam averages, the
    statistics do not depend on the order in which the log lists the
    events. *)
Theorem X4_order_independent (tz now : Z) (events events' : list StudyEvent) :
  Permutation events events' ->
  totalSessions events' = totalSessions events /\
  sessionsToday tz events' now = sessionsToday tz events now /\
  sessionsThisWeek events' now = sessionsThisWeek events now /\
  sessionsThisMonth tz events' now = sessionsThisMonth tz events now /\
  totalTimeMinutes tz events' now = totalTimeMinutes tz events now /\
  studyTimeToday tz events' now = studyTimeToday tz events now /\
  studyTimeThisWeek tz events' now = studyTimeThisWeek tz events now /\
  quizzesGenerated events' = quizzesGenerated events /\
  totalQuizzesTaken events' = totalQuizzesTaken events /\
  totalQuizQuestions events' = totalQuizQuestions events /\
  totalQuizCorrect events' = totalQuizCorrect events /\
  quizAccuracy events' = quizAccuracy events /\
  totalExamsTaken events' = totalExamsTaken events /\
  examBestScore events' = examBestScore events /\
  currentStreak tz events' now = currentStreak tz events now /\
  longestStreak tz events' = longestStreak tz events /\
  lastSevenDays tz events' now = lastSevenDays tz events now.
Proof.
  intros H. pose proof (OrderFacts.sessionCreates_perm _ _ H) as Hs.
  unfold totalSessions, sessionsToday, sessionsThisWeek, sessionsThisMonth,
    totalTimeMinutes, studyTimeToday, studyTimeThisWeek, quizzesGenerated,
    totalQuizzesTaken, quizAccuracy, totalQuizQuestions, totalQuizCorrect, totalExamsTaken,
    quizCompletions, examCompletions.
  rewrite <- (OrderFacts.studyTime_perm tz now _ _ H), <- (OrderFacts.quizTotals_perm _ _ H),
    <- (OrderFacts.examBestScore_perm _ _ H), <- (OrderFacts.currentStreak_perm tz now _ _ H),
    <- (OrderFacts.longestStreak_perm tz _ _ H), <- (OrderFacts.lastSevenDays_perm tz now _ _ H).
  rewrite <- !(OrderFacts.filter_length_perm _ _ _ Hs), <- !(OrderFacts.filter_length_perm _ _ _ H).
  assert (E : JSArray.length (sessionCreates events') = JSArray.length (sessionCreates events)).
  { unfold sessionCreates. symmetry. apply OrderFacts.filter_length_perm. exact H. }
  rewrite E. repeat split; reflexivity.
Qed.

Lemma X4_order_independent_witness :
  currentStreak 0 (rev Sample.log) Sample.now = currentStreak 0 Sample.log Sample.now /\
  totalTimeMinutes 0 (rev Sample.log) Sample.now = totalTimeMinutes 0 Sample.log Sample.now.
Proof.
  pose proof (X4_order_independent 0 Sample.now Sample.log (rev Sample.log)
                (Permutation_rev Sample.log)) as H.
  split; [ apply H | apply H ].
Defined.

(** X5: the session counters are nested as their time windows are: today's
    sessions are among this week's and among this month's, which are among
    all sessions; and the four event counters together never exceed the
    number of events. *)
Theorem X5_session_buckets (tz now : Z) (events : list StudyEvent) :
  0 <= sessionsToday tz events now /\
  sessionsToday tz events now <= sessionsThisWeek events now /\
  sessionsToday tz events now <= sessionsThisMonth tz events now /\
  sessionsThisWeek events now <= totalSessions events /\
  sessionsThisMonth tz events now <= totalSessions events /\
  totalSessions events + quizzesGenerated events + totalQuizzesTaken events
  + totalExamsTaken events <= JSArray.length events.
Proof.
  unfold sessionsToday, sessionsThisWeek, sessionsThisMonth, totalSessions.
  split; [ apply BucketFacts.length_filter_le | ].
  split; [ apply BucketFacts.length_filter_impl; intros e _; apply BucketFacts.today_in_week | ].
  split; [ apply BucketFacts.length_filter_impl; intros e _; apply BucketFacts.today_in_month | ].
  split; [ apply BucketFacts.length_filter_le | ].
  split; [ apply BucketFacts.length_filter_le | apply BucketFacts.type_counts ].
Qed.

(** X6: when no numeric field of the log is negative, every event counts for
    at least one minute, so the total time is at least the number of events,
    and today's time is part of this week's, which is part of the total. *)
Theorem X6_study_time (tz now : Z) (events : list StudyEvent) :
  Forall nonNegativeFields events ->
  JSArray.length events <= totalTimeMinutes tz events now /\
  0 <= studyTimeToday tz events now /\
  studyTimeToday tz events now <= studyTimeThisWeek tz events now /\
  studyTimeThisWeek tz events now <= totalTimeMinutes tz events now.
Proof.
  intros H.
  assert (Hd : Forall (fun e => 1 <= calculateEventDuration e) events).
  { eapply Forall_impl; [ | exact H ]. intros e (H1 & _ & _ & H4).
    apply BucketFacts.duration_pos; assumption. }
  pose proof (BucketFacts.studyTime_bounds tz now events
                {| st_total := 0; st_today := 0; st_week := 0 |} Hd) as Hb.
  cbn [st_total st_today st_week] in Hb. cbv zeta in Hb.
  specialize (Hb ltac:(lia) ltac:(lia)).
  unfold totalTimeMinutes, studyTimeToday, studyTimeThisWeek, studyTime. lia.
Qed.

Lemma X6_study_time_witness :
  JSArray.length Sample.log <= totalTimeMinutes 0 Sample.log Sample.now.
Proof.
  apply (X6_study_time 0 Sample.now Sample.log).
  repeat constructor; simpl; lia.
Defined.
End StatisticsProperties.

Section StreakProperties.
Import Storage Spec Notions StorageLog.

(** X7: [longestStreak] is the length of the longest run of consecutive
    calendar days that all have an event: such a run of that length exists,
    and no run is longer. *)
Theorem X7_longest_streak_meaning (tz : Z) (events : list StudyEvent) :
  (exists d, forall i, 0 <= i < longestStreak tz events -> active tz events (d + i)) /\
  (forall d k, (forall i, 0 <= i < k -> active tz events (d + i)) ->
               k <= longestStreak tz events).
Proof.
  rewrite StreakFacts.longestStreak_scan.
  pose proof (StreakFacts.uniqueDates_sorted tz events) as Hs.
  split.
  - destruct (RunFacts.longestRun_run _ Hs) as (d & Hd). exists d. intros i Hi.
    apply RunFacts.active_dates, StreakFacts.uniqueDates_In, Hd, Hi.
  - intros d k Hrun. apply (RunFacts.longestRun_upper _ d k Hs). intros i Hi.
    apply StreakFacts.uniqueDates_In, RunFacts.active_dates, Hrun, Hi.
Qed.

Lemma X7_longest_streak_meaning_witness : 3 <= longestStreak 0 Sample.log.
Proof.
  apply (proj2 (X7_longest_streak_meaning 0 Sample.log) 19996 3).
  intros i Hi. assert (Hc : i = 0 \/ i = 1 \/ i = 2) by lia.
  destruct Hc as [-> | [-> | ->]]; apply CountFacts.studied_iff; reflexivity.
Defined.

(** X9: the current streak is never negative and never longer than the
    longest streak, which is at most the number of distinct calendar days of
    the log, which is at most the number of events; a log that is not empty
    has a longest streak of at least 1. *)
Theorem X9_streak_bounds (tz now : Z) (events : list StudyEvent) :
  0 <= currentStreak tz events now /\
  currentStreak tz events now <= longestStreak tz events /\
  longestStreak tz events <= JSArray.length (uniqueDates tz events) /\
  JSArray.length (uniqueDates tz events) <= JSArray.length events /\
  (events <> [] -> 1 <= longestStreak tz events).
Proof.
  rewrite StreakFacts.currentStreak_walk, StreakFacts.longestStreak_scan.
  pose proof (StreakFacts.uniqueDates_sorted tz events) as Hs.
  split; [ apply RunFacts.currentRun_nonneg | ].
  split; [ apply RunFacts.currentRun_le_longest, Hs | ].
  split; [ apply RunFacts.longestRun_le_length | ].
  split; [ unfold JSArray.length; pose proof (RunFacts.uniqueDates_length tz events); lia | ].
  intros Hne. destruct events as [ | e l]; [ congruence | ].
  apply (RunFacts.longestRun_upper _ (dateOf tz e) 1 Hs). intros i Hi.
  replace (dateOf tz e + i) with (dateOf tz e) by (unfold JSDate.DateString in *; lia).
  apply StreakFacts.uniqueDates_In. left. reflexivity.
Qed.

Lemma X9_streak_bounds_witness : 1 <= longestStreak 0 Sample.log.
Proof.
  apply (X9_streak_bounds 0 Sample.now Sample.log). discriminate.
Defined.


End StreakProperties.

Section ZonedStreakProperties.
Import Zone Zoned ZoneNotions Spec StorageLog.

(** X8: in a zone whose local days last 23 to 25 hours, let [last] be an
    event of the latest local day of the log.  When that day is today or the
    day that [currentStreak] takes for yesterday, which is the local day of
    the instant 24 hours before [now], [currentStreak] is the number
    [c >= 1] of consecutive days with an event that end on that day: the [c]
    days up to it all have one and the day before them has none.  Otherwise
    [currentStreak] is 0.  The day taken for yesterday is today, the day
    before or the day before that. *)
Theorem X8_current_streak_meaning (z : Zone.t) (now : Z) (events : list StudyEvent)
        (last : StudyEvent) :
  regular z ->
  In last events ->
  (forall e, In e events -> dateOf z e <= dateOf z last) ->
  let today := localDay z now in
  let dayBefore := localDay z (now - 86400000) in
  let c := currentStreak z events now in
  (dateOf z last = today \/ dateOf z last = dayBefore ->
   1 <= c /\ (forall i, 0 <= i < c -> activeIn z events (dateOf z last - i)) /\
   ~ activeIn z events (dateOf z last - c)) /\
  (dateOf z last <> today -> dateOf z last <> dayBefore -> c = 0) /\
  today - 2 <= dayBefore <= today.
Proof.
  intros Hz Hlast Hmax. cbv zeta. rewrite (ZonedFacts.zoned_currentStreak_walk z Hz).
  pose proof (ZonedFacts.zoned_uniqueDates_sorted z Hz events) as Hs.
  destruct (ZonedFacts.currentRunAt_meaning (localDay z now) (localDay z (now - 86400000))
              (uniqueDates z events) (dateOf z last) Hs) as [H1 H2].
  - apply (ZonedFacts.zoned_active_dates z). exists last. tauto.
  - intros d Hd. apply (ZonedFacts.zoned_active_dates z) in Hd.
    destruct Hd as (e & He & <-). apply Hmax, He.
  - split; [ | split; [ exact H2 | apply (ZoneFacts.dayBefore_bounds z Hz) ] ].
    intros Hc. destruct (H1 Hc) as (A & B & C). split; [ exact A | split ].
    + intros i Hi. apply (ZonedFacts.zoned_active_dates z), B, Hi.
    + intros Ha. apply C. apply (ZonedFacts.zoned_active_dates z), Ha.
Qed.

Lemma X8_current_streak_meaning_witness :
  currentStreak newYork sunday monday0030 = 0.
Proof.
  destruct (X8_current_streak_meaning newYork monday0030 sunday
              (Sample.event chat (changeDay * JSDate.msPerDay + 16 * hour) 0 []))
    as (_ & H & _).
  - apply ZoneFacts.newYork_regular.
  - left. reflexivity.
  - intros e He. unfold sunday in He. each_member He. apply Z.leb_le. reflexivity.
  - apply H; vm_compute; discriminate.
Defined.




End ZonedStreakProperties.

Section ExamStatisticsProperties.
Import Storage Spec Notions JSNumber.

(** X13: [examBestScore] is never negative, is at least the score of every
    finished exam, and is either 0 or the score that some finished exam
    carries. *)
Theorem X13_exam_best_score (events : list StudyEvent) :
  0 <= examBestScore events /\
  (forall e, In e events -> action_type e = exam_complete ->
             orElse (exam_score e) 0 <= examBestScore events) /\
  (examBestScore events = 0 \/
   exists e, In e events /\ action_type e = exam_complete /\
             exam_score e = Some (examBestScore events)).
Proof.
  unfold examBestScore, examAcc.
  destruct (ExamFacts.examBest_inv (examCompletions events)
              {| examTotalScore := 0; examTotalAccuracySum := 0%Q; examBest := 0 |})
    as (H1 & H2 & H3). cbv zeta in H1, H2, H3. cbn [examBest] in H1, H3.
  split; [ exact H1 | split ].
  - intros e He Ht. apply H2. unfold examCompletions. apply filter_In.
    split; [ exact He | rewrite Ht; reflexivity ].
  - destruct H3 as [H3 | (e & He & H3)]; [ left; exact H3 | ].
    unfold examCompletions in He. apply filter_In in He. destruct He as [He Ht].
    set (r := examBest _) in *.
    destruct (Z.eq_dec r 0) as [E | E]; [ left; exact E | right ].
    exists e. split; [ exact He | split ].
    + destruct (action_type e); try discriminate Ht. reflexivity.
    + unfold orElse in H3. destruct (exam_score e) as [v | ]; [ | congruence ].
      destruct (v =? 0); congruence.
Qed.

Lemma X13_exam_best_score_witness : 18 <= examBestScore Sample.log.
Proof.
  apply (proj1 (proj2 (X13_exam_best_score Sample.log)) Examples.lastExam).
  - do 6 right. left. reflexivity.
  - reflexivity.
Defined.

(** X14: computed in binary64 on the numbers [score e] that the finished
    exams carry, the average exam score lies between 0 and the best exam
    score, in spite of the rounding to one decimal, when every score is an
    integer that is not negative and the scores add up to at most 2^53. *)
Theorem X14_exam_average_score (score : StudyEvent -> Q) (events : list StudyEvent) :
  (forall e, In e (examCompletions events) ->
             Numbers.isInteger (score e) /\ (0 <= score e)%Q) ->
  (Numbers.exactSum (map score (examCompletions events)) <= inject_Z (2 ^ 53))%Q ->
  (0 <= Numbers.examAverageScore score events <= Numbers.examBestScore score events)%Q.
Proof.
  intros Hv Hbig. unfold Numbers.examAverageScore, Numbers.examBestScore, Numbers.examScores.
  destruct (NumberFacts.examScores_integral score (examCompletions events) (0%Q, 0%Q) 0 0 Hv)
    as (T & B & HT & Hf & Hs & HB & HTb);
    try reflexivity; try lia; [ rewrite Qplus_0_l; exact Hbig | ].
  rewrite Qplus_0_l in HT. rewrite <- HT, <- Zle_Qle in Hbig.
  unfold totalExamsTaken, JSArray.length.
  set (n := Z.of_nat (List.length (examCompletions events))) in *.
  rewrite Hs.
  destruct (Z.ltb_spec 0 n) as [Hn | Hn].
  - apply AverageFacts.toFixed1_bounds; [ lia | ].
    assert (Hq : (0 <= inject_Z T / inject_Z n <= inject_Z B)%Q).
    { assert (Hn' : (0 < inject_Z n)%Q)
        by (change 0%Q with (inject_Z 0); rewrite <- Zlt_Qlt; exact Hn).
      split.
      - apply Qle_shift_div_l; [ exact Hn' | ]. rewrite Qmult_0_l.
        change 0%Q with (inject_Z 0). rewrite <- Zle_Qle. lia.
      - apply Qle_shift_div_r; [ exact Hn' | ]. rewrite <- inject_Z_mult, <- Zle_Qle. lia. }
    unfold div, ofZ. rewrite Hf. split.
    + apply BucketFacts.fl_nonneg. tauto.
    + apply AccuracyFacts.fl_le_Z; [ lia | tauto ].
  - split; [ lra | ]. change 0%Q with (inject_Z 0). rewrite <- Zle_Qle. lia.
Qed.

Lemma X14_exam_average_score_witness :
  (0 <= Numbers.examAverageScore (fun e => inject_Z (orElse (exam_score e) 0)) Sample.log
     <= Numbers.examBestScore (fun e => inject_Z (orElse (exam_score e) 0)) Sample.log)%Q.
Proof.
  apply (X14_exam_average_score (fun e => inject_Z (orElse (exam_score e) 0)) Sample.log).
  - intros e He. vm_compute in He. each_member He; split; vm_compute; congruence.
  - vm_compute. congruence.
Defined.

(** X15: for a log with exactly one finished exam, the average exam accuracy
    of the profile is the percentage that the exam history shows for that
    exam. *)
Theorem X15_single_exam (events : list StudyEvent) (e : StudyEvent) :
  examCompletions events = [e] ->
  examAverageAccuracy events = ExamMode.percentage e.
Proof.
  intros H. unfold examAverageAccuracy, totalExamsTaken, examAcc. rewrite H.
  cbn [fold_left JSArray.length List.length Z.of_nat]. change (0 <? _) with true. cbv iota.
  unfold ExamMode.percentage, examStep. cbn [examTotalAccuracySum].
  apply ExamFacts.Math_round_proper. unfold mul at 1 2.
  set (p := (div (ofZ (orElse (exam_score e) 0)) (ofZ (orElse (exam_total_marks e) 1))
             * ofZ 100)%Q).
  unfold div at 1. unfold add, ofZ at 1.
  assert (E1 : (fl (0 + fl p) == fl p)%Q).
  { rewrite Qplus_0_l. apply ExamFacts.fl_idem. }
  assert (E2 : (fl (0 + fl p) / inject_Z 1 == fl p)%Q).
  { rewrite E1. change (inject_Z 1) with 1%Q. field. }
  rewrite E2. apply ExamFacts.fl_idem.
Qed.

Lemma X15_single_exam_witness :
  examAverageAccuracy Sample.log = ExamMode.percentage Examples.lastExam.
Proof.
  apply (X15_single_exam Sample.log Examples.lastExam). reflexivity.
Defined.
End ExamStatisticsProperties.

Section RankingProperties.
Import Storage Spec Derived Notions.

(** X16: when no keyword is ["constructor"] or ["__proto__"], [topTopics]
    lists the smaller of 5 and the number of distinct keywords; its topics
    are all different keywords of the log, each with the number of its
    occurrences (at least 1), in descending order of that number; and every
    keyword left out occurs no more often than any listed one. *)
Theorem X16_top_topics_invariants (events : list StudyEvent) (tops : list TopicEntry) :
  Forall plainKey (keywords events) ->
  topTopics events = Some tops ->
  let kws := keywords events in
  JSArray.length tops = Z.min 5 (JSArray.length (firstSeen kws)) /\
  NoDup (map topic tops) /\
  StronglySorted (fun a b => count b <= count a) tops /\
  (forall t, In t tops -> In (topic t) kws /\ 1 <= count t /\
                          count t = occurrences (topic t) kws) /\
  (forall k, In k kws ->
             In k (map topic tops) \/ forall t, In t tops -> occurrences k kws <= count t).
Proof.
  intros Hplain Htop. cbv zeta.
  rewrite (TopicFacts.topTopics_plain events Hplain) in Htop.
  set (kws := keywords events) in *.
  set (order := enumeration (firstSeen kws)) in *.
  set (full := JSArray.sort byCount (entriesOf order kws)) in *.
  assert (Et : tops = firstn 5 full) by congruence.
  clear Htop. subst tops.
  assert (Hperm : Permutation full (entriesOf order kws)) by apply SortFacts.sort_perm.
  assert (Horder : Permutation order (firstSeen kws)) by apply RankingFacts.enumeration_perm.
  assert (Hsorted : StronglySorted (fun a b => count b <= count a) full)
    by apply RankingFacts.ranking_sorted.
  rewrite <- (firstn_skipn 5 full) in Hsorted. apply RankingFacts.sorted_app_le in Hsorted.
  destruct Hsorted as [Hs1 Hs2].
  assert (Hin : forall t, In t full -> In (topic t) kws /\ count t = occurrences (topic t) kws).
  { intros t Ht. apply (Permutation_in _ Hperm) in Ht. apply RankingFacts.In_entriesOf in Ht.
    destruct Ht as [Ht Hc]. split; [ | exact Hc ].
    apply (Permutation_in _ Horder) in Ht.
    apply (proj1 (TopicFacts.firstSeen_In _ _)) in Ht. exact Ht. }
  assert (Hsub : forall t, In t (firstn 5 full) -> In t full).
  { intros t Ht. rewrite <- (firstn_skipn 5 full). apply in_or_app. left. exact Ht. }
  split; [ | split; [ | split; [ exact Hs1 | split ] ] ].
  - unfold JSArray.length. rewrite length_firstn.
    apply Permutation_length in Hperm, Horder. rewrite Hperm.
    unfold entriesOf. rewrite length_map, Horder. lia.
  - assert (Hnd : NoDup (map topic full)).
    { eapply Permutation_NoDup.
      - apply Permutation_sym. eapply Permutation_trans.
        + apply Permutation_map. exact Hperm.
        + rewrite RankingFacts.map_topic_entriesOf. exact Horder.
      - apply TopicFacts.firstSeen_NoDup. }
    rewrite <- (firstn_skipn 5 full), map_app in Hnd. apply NoDup_app_remove_r in Hnd. exact Hnd.
  - intros t Ht. destruct (Hin t (Hsub t Ht)) as [H1 H2].
    split; [ exact H1 | split; [ | exact H2 ] ].
    rewrite H2. pose proof (TopicFacts.occurrences_pos _ _ H1). lia.
  - intros k Hk.
    assert (Hk' : In {| topic := k; count := occurrences k kws |} full).
    { apply (Permutation_in _ (Permutation_sym Hperm)). unfold entriesOf.
      apply in_map_iff. exists k. split; [ reflexivity | ].
      apply (Permutation_in _ (Permutation_sym Horder)).
      apply (proj2 (TopicFacts.firstSeen_In _ _)), Hk. }
    rewrite <- (firstn_skipn 5 full) in Hk'. apply in_app_or in Hk'.
    destruct Hk' as [Hk' | Hk'].
    + left. apply in_map_iff. eexists. split; [ | exact Hk' ]. reflexivity.
    + right. intros t Ht. exact (Hs2 t _ Ht Hk').
Qed.

Lemma X16_top_topics_invariants_witness :
  exists tops, topTopics Sample.log = Some tops /\ NoDup (map topic tops).
Proof.
  exists [ {| topic := "react"; count := 2 |}; {| topic := "go"; count := 2 |};
           {| topic := "2024"; count := 1 |} ]%string.
  split; [ reflexivity | ].
  apply (X16_top_topics_invariants Sample.log).
  - repeat constructor; discriminate.
  - reflexivity.
Defined.
End RankingProperties.

Section QuizRunnerProperties.
Import Storage Spec Notions QuizRunner.

(** X17: the score of a quiz is never negative and never exceeds the number
    of questions with an answer that is not the empty string, which never
    exceeds the number of questions: an unanswered question never scores. *)
Theorem X17_quiz_score_bounds (questions : list QuizItem) (userAnswers : Answers) :
  0 <= correctCount questions userAnswers /\
  correctCount questions userAnswers
  <= JSArray.length (filter (hasAttempted userAnswers) questions) /\
  JSArray.length (filter (hasAttempted userAnswers) questions) <= JSArray.length questions.
Proof.
  rewrite QuizRunnerFacts.correctCount_filter.
  split; [ apply BucketFacts.length_filter_le | split; [ | apply BucketFacts.length_filter_le ] ].
  apply BucketFacts.length_filter_impl. intros q _. apply QuizRunnerFacts.isCorrect_attempted.
Qed.

(** X18: a short-answer question with a keyword list that is not empty is
    counted as correct exactly when the trimmed, lowercased answer is not
    empty and includes at least half of the (lowercased) keywords. *)
Theorem X18_quiz_keyword_threshold (userAnswers : Answers) (q : QuizItem)
        (ks : list string) (a : string) :
  type q = short_answer -> keywords q = Some ks ->
  0 < JSArray.length ks < 2 ^ 32 ->
  userAnswers (id q) = Some a ->
  let ua := JSString.toLowerCase (JSString.trim a) in
  isCorrect userAnswers q = JSString.truthy ua && (JSArray.length ks <=? 2 * hits ua ks).
Proof.
  intros Ht Hk Hn Ha. cbv zeta. unfold isCorrect. rewrite Ha, Ht, Hk. cbn [option_map].
  destruct (JSString.truthy (JSString.toLowerCase (JSString.trim a))); [ | reflexivity ].
  assert (E : (0 <? JSArray.length ks) = true) by (apply Z.ltb_lt; lia).
  rewrite E. cbn [andb]. apply GradingFacts.ceil_half. lia.
Qed.

Lemma X18_quiz_keyword_threshold_witness :
  isCorrect Examples.quizAnswers Examples.shortItem = true.
Proof.
  rewrite (X18_quiz_keyword_threshold Examples.quizAnswers Examples.shortItem
             ["Light"; "water"; "carbon"] "  Water and LIGHT ")%string.
  - reflexivity.
  - reflexivity.
  - reflexivity.
  - unfold JSArray.length. simpl. lia.
  - reflexivity.
Defined.

(** X19: once the quiz is submitted, a short-answer question with a keyword
    list that is not empty and that is counted as correct is also drawn as
    correct. *)
Theorem X19_quiz_counted_is_shown (userAnswers : Answers) (q : QuizItem) (ks : list string) :
  type q = short_answer -> keywords q = Some ks ->
  0 < JSArray.length ks < 2 ^ 32 ->
  isCorrect userAnswers q = true -> shownCorrect true userAnswers q = true.
Proof.
  intros Ht Hk Hn Hc. unfold shownCorrect.
  rewrite (QuizRunnerFacts.isCorrect_attempted _ _ Hc). cbn [andb].
  unfold isCorrect in Hc. destruct (userAnswers (id q)) as [a | ]; [ | discriminate ].
  cbn [option_map] in Hc. rewrite Ht, Hk in *.
  destruct (JSString.truthy (JSString.toLowerCase (JSString.trim a))); [ | discriminate ].
  assert (E : (0 <? JSArray.length ks) = true) by (apply Z.ltb_lt; lia).
  rewrite E in Hc. rewrite GradingFacts.ceil_half in Hc by lia. apply Z.leb_le in Hc.
  set (f := fun k => JSString.includes (JSString.toLowerCase (JSString.trim a))
                                       (JSString.toLowerCase k)) in *.
  destruct (filter f ks) as [ | k l] eqn:Ef.
  - unfold JSArray.length in Hc at 2. simpl in Hc. lia.
  - assert (Hin : In k (filter f ks)) by (rewrite Ef; left; reflexivity).
    apply filter_In in Hin. destruct Hin as [Hin Hf].
    apply existsb_exists. exists k. split; [ exact Hin | ].
    apply SubstringFacts.includes_trim. exact Hf.
Qed.

Lemma X19_quiz_counted_is_shown_witness :
  shownCorrect true Examples.quizAnswers Examples.shortItem = true.
Proof.
  apply (X19_quiz_counted_is_shown Examples.quizAnswers Examples.shortItem
           ["Light"; "water"; "carbon"]%string).
  - reflexivity.
  - reflexivity.
  - unfold JSArray.length. simpl. lia.
  - vm_compute. reflexivity.
Defined.

(** X20: in a log whose [quiz_complete] rows were all written by the quiz
    runner, the correct answers never exceed the questions, and the quiz
    accuracy lies between 0 and 100. *)
Theorem X20_quiz_runner_accuracy (events : list StudyEvent) :
  (forall e, In e events -> action_type e = quiz_complete ->
             exists rowId userId clock title questions userAnswers,
               e = quizRow rowId userId clock title questions userAnswers) ->
  0 <= totalQuizCorrect events <= totalQuizQuestions events /\
  0 <= quizAccuracy events <= 100.
Proof.
  intros H. pose proof (QuizLogFacts.quizRows_totals events H) as Hb.
  rewrite AccuracyFacts.totalQuizQuestions_spec, AccuracyFacts.totalQuizCorrect_spec.
  split; [ exact Hb | apply AccuracyFacts.quizAccuracy_bounds, Hb ].
Qed.

Lemma X20_quiz_runner_accuracy_witness : 0 <= quizAccuracy Examples.table <= 100.
Proof.
  apply (X20_quiz_runner_accuracy Examples.table).
  intros e He Ht. unfold Examples.table in He. each_member He.
  - do 6 eexists. reflexivity.
  - discriminate Ht.
Defined.
End QuizRunnerProperties.

Section ExamModeProperties.
Import Storage Spec Notions ExamMode.

(** X21: an answered short or long question with a keyword list is correct
    exactly when the answer includes at least half of the keywords; with an
    empty keyword list every answer is correct. *)
Theorem X21_exam_keyword_threshold (userAnswers : Answers) (q : ExamItem)
        (ks : list string) (ans : string) :
  type q = short_answer \/ type q = long_answer ->
  keywords q = Some ks -> JSArray.length ks < 2 ^ 32 ->
  answerOf userAnswers q = Some ans ->
  isCorrect userAnswers q = (JSArray.length ks <=? 2 * hits ans ks) /\
  (ks = [] -> isCorrect userAnswers q = true).
Proof.
  intros Ht Hk Hn Ha.
  assert (E : isCorrect userAnswers q = (JSArray.length ks <=? 2 * hits ans ks)).
  { unfold isCorrect. rewrite Ha, Hk.
    destruct Ht as [-> | ->]; apply RowFacts.enoughHits_half, Hn. }
  split; [ exact E | ]. intros ->. rewrite E. reflexivity.
Qed.

Lemma X21_exam_keyword_threshold_witness :
  isCorrect Examples.examAnswers Examples.essayItem = true.
Proof.
  rewrite (proj1 (X21_exam_keyword_threshold Examples.examAnswers Examples.essayItem
                    ["Water"; "membrane"; "gradient"] "water and a membrane"
                    (or_introl eq_refl) eq_refl ltac:(unfold JSArray.length; simpl; lia)
                    eq_refl))%string.
  reflexivity.
Defined.

(** X22: computed in binary64 on the numbers [value q] that the questions
    carry as marks, the score shown when the exam is finished is the logged
    score plus the marks of the answered short and long questions that have
    no keyword list (the display grades them as correct, the log as wrong),
    when every mark is an integer and the absolute values of the marks add
    up to at most 2^53. *)
Theorem X22_exam_shown_vs_logged (value : ExamItem -> Q) (examData : list ExamItem)
        (userAnswers : Answers) (submittedQuestions : Submitted) :
  (forall q, In q examData -> Numbers.isInteger (value q)) ->
  (Numbers.exactSum (map (fun q => Qabs (value q)) examData) <= inject_Z (2 ^ 53))%Q ->
  (Numbers.getCurrentScore value examData userAnswers submittedQuestions true
   == Numbers.finalScore value examData userAnswers
      + Numbers.exactSum (map value (filter (gradedLoosely userAnswers) examData)))%Q.
Proof.
  intros Hv Hbig. set (w := fun q => Qfloor (value q)).
  assert (Hw : forall q, In q examData -> (value q == inject_Z (w q))%Q)
    by (intros q Hq; apply (Hv q Hq)).
  assert (Hb : Z.abs 0 + sum (map (fun q => Z.abs (w q)) examData) <= 2 ^ 53).
  { rewrite (NumberFacts.exactSum_Z (fun q => Qabs (value q)) (fun q => Z.abs (w q)))
      in Hbig by (intros q Hq; apply NumberFacts.Qabs_Z, Hw, Hq).
    rewrite <- Zle_Qle in Hbig. simpl Z.abs. lia. }
  unfold Numbers.getCurrentScore, Numbers.finalScore.
  rewrite (NumberFacts.marks_exact value w _ examData 0%Q 0 Hw (Qeq_refl _) Hb).
  rewrite (NumberFacts.marks_exact value w _ examData 0%Q 0 Hw (Qeq_refl _) Hb).
  rewrite (NumberFacts.exactSum_filter_Z value w _ examData Hw).
  rewrite !GradingFacts.marks_fold, <- inject_Z_plus. apply inject_Z_injective.
  rewrite !Z.add_0_l.
  rewrite <- (ExamModeFacts.sum_filter_split _ _ _ _ (ExamModeFacts.exclusive_cases userAnswers)).
  f_equal. f_equal. apply filter_ext. intros q.
  rewrite orb_true_r. apply ExamModeFacts.isCorrect_cases.
Qed.

Lemma X22_exam_shown_vs_logged_witness :
  (Numbers.getCurrentScore (fun q => inject_Z (marks q)) Examples.examItems
     Examples.examAnswers (fun _ => None) true
   == Numbers.finalScore (fun q => inject_Z (marks q)) Examples.examItems
        Examples.examAnswers + inject_Z 5)%Q.
Proof.
  apply (Qeq_trans _ _ _
           (X22_exam_shown_vs_logged (fun q => inject_Z (marks q)) Examples.examItems
              Examples.examAnswers (fun _ => None)
              ltac:(intros q Hq; unfold Examples.examItems in Hq; each_member Hq;
                    vm_compute; reflexivity)
              ltac:(vm_compute; congruence))).
  vm_compute. reflexivity.
Defined.



(** X24: whatever the fetch returns, the exam history is sorted with the
    newest row first and holds only [exam_complete] rows of the table; when
    the fetch succeeds it holds all of them. *)
Theorem X24_exam_history (store data : list StudyEvent) (ok : bool) :
  StorageLog.getActivities store ok data ->
  StronglySorted (fun a b => timestamp b <= timestamp a) (loadHistory data) /\
  (forall e, In e (loadHistory data) -> In e store /\ action_type e = exam_complete) /\
  (ok = true ->
   Permutation (loadHistory data)
               (filter (fun e => ActivityType_eqb (action_type e) exam_complete) store)).
Proof.
  intros H.
  assert (Hp : Permutation (loadHistory data)
                 (filter (fun e => ActivityType_eqb (action_type e) exam_complete) data))
    by apply SortFacts.sort_perm.
  split; [ | split ].
  - unfold loadHistory.
    pose proof (SortFacts.sort_sorted (fun a b => timestamp b - timestamp a)
                  (fun e => - timestamp e) ExamModeFacts.cmp_newest
                  (filter (fun e => ActivityType_eqb (action_type e) exam_complete) data)) as Hs.
    revert Hs. generalize (JSArray.sort (fun a b => timestamp b - timestamp a)
                  (filter (fun e => ActivityType_eqb (action_type e) exam_complete) data)).
    intros l Hs. induction Hs as [ | a l _ IH Ha]; constructor; [ exact IH | ].
    eapply Forall_impl; [ | exact Ha ]. intros b Hb. cbv beta in Hb. lia.
  - intros e He. apply (Permutation_in _ Hp), filter_In in He. destruct He as [He Ht].
    split.
    + destruct H as [data Hd _ | ]; [ apply (Permutation_in _ Hd), He | destruct He ].
    + destruct (action_type e); try discriminate Ht. reflexivity.
  - intros ->. apply LogFacts.fetched_perm in H.
    eapply Permutation_trans; [ exact Hp | ]. apply OrderFacts.filter_perm. exact H.
Qed.

Lemma X24_exam_history_witness :
  Permutation (loadHistory Sample.log)
              (filter (fun e => ActivityType_eqb (action_type e) exam_complete) Sample.log).
Proof.
  destruct (X24_exam_history Sample.log Sample.log true) as (_ & _ & H).
  - constructor; [ apply Permutation_refl | ].
    repeat constructor; apply Z.leb_le; reflexivity.
  - apply H. reflexivity.
Defined.
End ExamModeProperties.

Section RowProperties.
Import Storage Spec Notions StorageLog.

(** X25: when the fetch of the log fails, [getUserStats] still returns a
    result: the statistics shown to a guest ([EMPTY_STATS]) in every field
    but the week strip, which has its 7 entries, none of them studied. *)
Theorem X25_failed_fetch (tz now : Z) (store data : list StudyEvent) :
  getActivities store false data ->
  exists days,
    getUserStats tz data now = Some (withDays Profile.EMPTY_STATS days) /\
    List.length days = 7%nat /\
    Forall (fun d => studied d = false) days.
Proof.
  intros H. inversion H; subst.
  eexists. split; [ reflexivity | split; [ reflexivity | ] ].
  repeat constructor.
Qed.

Lemma X25_failed_fetch_witness :
  exists days, getUserStats 0 [] Sample.now = Some (withDays Profile.EMPTY_STATS days).
Proof.
  destruct (X25_failed_fetch 0 Sample.now Sample.log [] (fetchFailed _)) as (days & H & _).
  exists days. exact H.
Defined.

(** X26: a finished quiz with at least one question is credited with one
    minute per question, and a finished exam with [totalMarks] between 1 and
    2^51 with one and a half minutes per mark, rounded up. *)
Theorem X26_row_durations (rowId userId : string) (clock : Z) (title : string)
        (questions : list QuizRunner.QuizItem) (userAnswers : QuizRunner.Answers)
        (examData : list ExamMode.ExamItem) (examAnswers : ExamMode.Answers)
        (totalMarks : Z) (subjectName : string) :
  (questions <> [] ->
   calculateEventDuration (quizRow rowId userId clock title questions userAnswers)
   = JSArray.length questions) /\
  (0 < totalMarks <= 2 ^ 51 ->
   calculateEventDuration
     (examRow rowId userId clock examData examAnswers totalMarks subjectName)
   = (3 * totalMarks + 1) / 2).
Proof.
  split.
  - intros Hne. unfold calculateEventDuration, quizRow, newEvent.
    cbn [action_type quiz_total_questions optField QuizRunner.logged total_questions
         ActivityType_eqb truthy valueOf andb].
    destruct questions as [ | q l]; [ congruence | ].
    assert (E : (JSArray.length (q :: l) =? 0) = false).
    { apply Z.eqb_neq. unfold JSArray.length. cbn [List.length]. lia. }
    rewrite E. reflexivity.
  - intros Hm. unfold calculateEventDuration, examRow, newEvent.
    cbn [action_type quiz_total_questions exam_total_marks optField ExamMode.logged
         total_questions exam_total ActivityType_eqb truthy valueOf andb].
    assert (E : (totalMarks =? 0) = false) by (apply Z.eqb_neq; lia).
    rewrite E. cbn [negb].
    rewrite DurationFacts.ceil_mul_3_2 by lia. apply CreditFacts.ceil_three_halves.
Qed.

Lemma X26_row_durations_witness :
  calculateEventDuration
    (examRow "r2" "u" 0 Examples.examItems Examples.examAnswers 20 "General Knowledge")
  = 30.
Proof.
  apply (proj2 (X26_row_durations "r2" "u" 0 "" [] QuizRunner.noAnswers Examples.examItems
                  Examples.examAnswers 20 "General Knowledge")%string).
  lia.
Defined.
End RowProperties.
